(** * rsyslog KSI-LS12 signing library (runtime/lib_ksils12.c)

    A shallow embedding of the online Merkle-tree signer: the TLV writers,
    the per-block accumulator, the block controller, the aggregator config
    handler and the asynchronous signer worker, with the properties the
    specification states about them. *)

From Stdlib Require Import Strings.String Strings.Ascii.
From Stdlib Require Import ZArith List Lia Bool.
From stdpp Require Import base list.
Import ListNotations.

Local Open Scope Z_scope.

(** ** Machine integers

    C integers are carried as [Z]; every conversion to a narrower type is
    written out. *)

Definition u8 (x : Z) : Z := x mod 256.
Definition u16 (x : Z) : Z := x mod 65536.
Definition u32 (x : Z) : Z := x mod 4294967296.
Definition u64 (x : Z) : Z := x mod 18446744073709551616.

(** Two's complement reading of the low 32 bits: the value of an [int]. *)
Definition s32 (x : Z) : Z :=
  let y := u32 x in if y <? 2147483648 then y else y - 4294967296.

Definition MIN (a b : Z) : Z := if a <? b then a else b.

Arguments u8 x : simpl never.
Arguments u16 x : simpl never.
Arguments u32 x : simpl never.
Arguments u64 x : simpl never.
Arguments s32 x : simpl never.

(** ** Results of C code that may stop before it returns

    [None] is the run that stops on a failed [assert] or uses an object it
    has freed; [Some] carries what the function returns. *)

Definition C (A : Type) : Type := option A.

Definition ret {A} (a : A) : C A := Some a.

Definition bind {A B} (m : C A) (k : A -> C B) : C B :=
  match m with
  | Some a => k a
  | None => None
  end.

Notation "'let*' x ':=' m 'in' k" := (bind m (fun x => k))
  (at level 10, x pattern, m at level 200, k at level 200).

Definition assert (b : bool) : C unit := if b then Some tt else None.

(** ** Environment: what the file takes from its headers and from libksi

    [lib_ksils12.h] (constants) and libksi (hasher, hash lengths, the
    synchronous signer, error strings) are not part of the translation
    unit; they are the parameters of the development. *)

Class KsiEnv := {
  (* lib_ksils12.h *)
  MAX_ROOTS : nat;
  RSGTE_IO : Z;
  RSGTE_HASH_CREATE : Z;
  RSGTE_IO_nonzero : RSGTE_IO <> 0;
  RSGTE_HASH_CREATE_nonzero : RSGTE_HASH_CREATE <> 0;
  (* libksi *)
  KSI_getHashLength : Z -> Z;
  (* reset; add ...; close on the context's hasher: the imprint of the
     bytes added, or [None] when one of the calls reports an error *)
  KSI_DataHasher_run : list Z -> option (list Z);
  (* KSI_Signature_signAggregated followed by KSI_Signature_serialize:
     the DER bytes, or the KSI status of the failing call *)
  KSI_sign : list Z -> Z -> Z + list Z;
  KSI_getErrorString : Z -> list Z;
  KSI_UNKNOWN_ERROR : Z
}.

(** Modelled from the spec: the tag mask and the 16-bit flag of
    lib_ksils12.h, absent from the sources; a tag of the short form "fits in
    5 bits" and the "high bit of the first byte" selects the long form. *)
Definition RSGT_TYPE_MASK : Z := 0x1f.
Definition RSGT_FLAG_TLV16 : Z := 0x80.

(** libksi's status of success. *)
Definition KSI_OK : Z := 0.

(** ** Output streams

    A [FILE] opened for appending: the bytes written through it so far and
    its error indicator. A stream whose indicator is set refuses every
    write. *)

Record FILE := mkFILE { fbytes : list Z; ferror : bool }.

(** [fwrite(data, size, 1, f)]: the number of items written, 0 or 1. An item
    of size 0 writes nothing and counts as 0 items. *)
Definition fwrite (data : list Z) (size : Z) (f : FILE) : Z * FILE :=
  if (size =? 0) || ferror f then (0, f)
  else (1, mkFILE (fbytes f ++ take (Z.to_nat size) data) (ferror f)).

(** ** TLV codec *)

Section Codec.
Context `{KsiEnv}.

Fixpoint tlvGetIntSize_loop (fuel : nat) (val n : Z) : Z :=
  match fuel with
  | O => n
  | S fuel' =>
      if val =? 0 then n
      else tlvGetIntSize_loop fuel' (Z.shiftr val 8) (u8 (n + 1))
  end.

(** [val] is a [uint64_t]: eight shifts by 8 bits clear it. *)
Definition tlvGetIntSize (val : Z) : Z := tlvGetIntSize_loop 8 (u64 val) 0.

Definition tlvWriteOctetString (f : FILE) (data : list Z) (len : Z) : Z * FILE :=
  let len := u16 len in
  let '(n, f') := fwrite data len f in
  if n =? 1 then (0, f') else (RSGTE_IO, f').

Definition tlvWriteHeader8 (f : FILE) (flags tlvtype len : Z) : C (Z * FILE) :=
  let tlvtype := u8 tlvtype in
  let* _ := assert (Z.land flags RSGT_TYPE_MASK =? 0) in
  let* _ := assert (Z.land tlvtype RSGT_TYPE_MASK =? tlvtype) in
  let buf := [ u8 (Z.lor (Z.land flags (Z.lnot RSGT_FLAG_TLV16)) tlvtype);
               Z.land len 0xff ] in
  ret (tlvWriteOctetString f buf 2).

Definition tlvWriteHeader16 (f : FILE) (flags tlvtype len : Z) : C (Z * FILE) :=
  let tlvtype := u16 tlvtype in
  let len := u16 len in
  let* _ := assert (Z.land flags RSGT_TYPE_MASK =? 0) in
  let* _ := assert (Z.land (Z.shiftr tlvtype 8) RSGT_TYPE_MASK =? Z.shiftr tlvtype 8) in
  let typ := u16 (Z.lor (Z.shiftl (Z.lor flags RSGT_FLAG_TLV16) 8) tlvtype) in
  let buf := [ u8 (Z.shiftr typ 8);
               Z.land typ 0xff;
               Z.land (Z.shiftr len 8) 0xff;
               Z.land len 0xff ] in
  ret (tlvWriteOctetString f buf 4).

Definition tlvGetHeaderSize (tag size : Z) : Z :=
  let tag := u16 tag in
  let size := u64 size in
  if (tag <=? RSGT_TYPE_MASK) && (size <=? 0xff) then 2
  else if (Z.shiftr tag 8 <=? RSGT_TYPE_MASK) && (size <=? 0xffff) then 4
  else 0.

(** The size handed to [tlvGetHeaderSize] is [flags], as in the source. *)
Definition tlvWriteHeader (f : FILE) (flags tlvtype len : Z) : C (Z * FILE) :=
  let tlvtype := u16 tlvtype in
  let len := u16 len in
  let headersize := tlvGetHeaderSize tlvtype flags in
  if headersize =? 2 then tlvWriteHeader8 f flags tlvtype len
  else if headersize =? 4 then tlvWriteHeader16 f flags tlvtype len
  else ret (0, f).

Definition tlvWriteOctetStringTLV (f : FILE) (flags tlvtype : Z)
    (data : list Z) (len : Z) : C (Z * FILE) :=
  let len := u16 len in
  let* (r, f1) := tlvWriteHeader f flags tlvtype len in
  if negb (r =? 0) then ret (RSGTE_IO, f1)
  else
    let '(n, f2) := fwrite data len f1 in
    if negb (n =? 1) then ret (RSGTE_IO, f2) else ret (0, f2).

(** The loop [for (i = count - 1; i >= 0; i--)]: [buf[i]] receives the low
    byte of [nTmp]; the bytes come out most significant first. *)
Fixpoint tlvInt64_fill (count : nat) (nTmp : Z) (buf : list Z) : list Z :=
  match count with
  | O => buf
  | S i => tlvInt64_fill i (Z.shiftr nTmp 8) (Z.land 0xFF nTmp :: buf)
  end.

Definition tlvWriteInt64TLV (f : FILE) (flags tlvtype val : Z) : C (Z * FILE) :=
  let val := u64 val in
  let count := tlvGetIntSize val in
  let* (r, f1) := tlvWriteHeader f flags tlvtype count in
  if negb (r =? 0) then ret (RSGTE_IO, f1)
  else
    let buf := tlvInt64_fill (Z.to_nat count) val [] in
    let '(n, f2) := fwrite buf count f1 in
    if negb (n =? 1) then ret (RSGTE_IO, f2) else ret (0, f2).

End Codec.

(** ** Data model *)

Inductive QITEM_type :=
  | QITEM_SIGNATURE_REQUEST
  | QITEM_CLOSE_FILE
  | QITEM_NEW_FILE
  | QITEM_QUIT.

Inductive QITEM_status :=
  | QITEM_WAITING
  | QITEM_SENT
  | QITEM_DONE.

Definition QITEM_type_eqb (a b : QITEM_type) : bool :=
  match a, b with
  | QITEM_SIGNATURE_REQUEST, QITEM_SIGNATURE_REQUEST
  | QITEM_CLOSE_FILE, QITEM_CLOSE_FILE
  | QITEM_NEW_FILE, QITEM_NEW_FILE
  | QITEM_QUIT, QITEM_QUIT => true
  | _, _ => false
  end.

Definition QITEM_status_eqb (a b : QITEM_status) : bool :=
  match a, b with
  | QITEM_WAITING, QITEM_WAITING
  | QITEM_SENT, QITEM_SENT
  | QITEM_DONE, QITEM_DONE => true
  | _, _ => false
  end.

(** A [KSI_DataHash] is carried as its imprint (algorithm id, then digest). *)
Definition KSI_DataHash := list Z.

(** What the worker reads from the aggregator's config object. *)
Record KSI_Config := mkConfig {
  KSI_Config_getMaxRequests : option Z;
  KSI_Config_getMaxLevel : option Z
}.

Inductive KSI_AsyncState :=
  | KSI_ASYNC_STATE_UNDEFINED
  | KSI_ASYNC_STATE_WAITING_FOR_RESPONSE
  | KSI_ASYNC_STATE_PUSH_CONFIG_RECEIVED
  | KSI_ASYNC_STATE_RESPONSE_RECEIVED
  | KSI_ASYNC_STATE_ERROR.

(** A [KSI_AsyncHandle] as the worker sees it: the answer of each getter,
    [inl] carrying the KSI status of a getter that fails. The request
    context is the address of the queue item the request was built from. *)
Record KSI_AsyncHandle := mkHandle {
  KSI_AsyncHandle_getState : Z + KSI_AsyncState;
  KSI_AsyncHandle_getConfig : Z + KSI_Config;
  KSI_AsyncHandle_getRequestCtx : Z + option nat;
  KSI_AsyncHandle_getError : Z;
  (* getSignature followed by KSI_Signature_serialize *)
  KSI_AsyncHandle_getSignature : Z + list Z
}.

(** The [void *arg] of a queue item. *)
Inductive QueueArg :=
  | ArgNULL
  | ArgHash (h : KSI_DataHash)
  | ArgFile (f : FILE).

(** [qaddr] is the address [malloc] gave the item: responses find their
    request through it. *)
Record QueueItem := mkItem {
  qaddr : nat;
  type : QITEM_type;
  status : QITEM_status;
  arg : QueueArg;
  intarg1 : Z;
  intarg2 : Z;
  respHandle : option KSI_AsyncHandle;
  ksi_status : Z;
  request_time : Z
}.

Inductive LOGSIG_SyncMode := LOGSIG_ASYNCHRONOUS | LOGSIG_SYNCHRONOUS.

(** Modelled from the spec: the queue of lib_ksi_queue.c, absent from the
    sources, a bounded FIFO: [push] appends or is refused, [popFront]
    removes the first item, [getAt i] reads the i-th. *)
Definition ProtectedQueue := list QueueItem.

(** Modelled from the spec: a push can fail (allocation or capacity).
    [create_signer_thread] makes the queue with [ProtectedQueue_new(10)];
    what the queue does with that bound and with its allocator is decided in
    lib_ksi_queue.c, so whether the queue takes the item is an input of the
    call, [accepted]. [None] is the [false] the function returns, the queue
    unchanged. *)
Definition ProtectedQueue_addItem (q : ProtectedQueue) (qi : QueueItem) (accepted : bool)
    : option ProtectedQueue :=
  if accepted then Some (q ++ [qi]) else None.

Definition ProtectedQueue_count (q : ProtectedQueue) : nat := length q.

Definition ProtectedQueue_getItem (q : ProtectedQueue) (i : nat) : option QueueItem :=
  q !! i.

Definition ProtectedQueue_peekFront (q : ProtectedQueue) : option QueueItem :=
  head q.

Definition ProtectedQueue_popFront (q : ProtectedQueue) : option QueueItem * ProtectedQueue :=
  match q with
  | [] => (None, [])
  | qi :: q' => (Some qi, q')
  end.

(** The fields of [struct rsksictx_s] the signing engine uses. *)
Record rsksictx_s := mkCtx {
  ctx_hashAlg : Z;
  ctx_bKeepRecordHashes : bool;
  ctx_bKeepTreeHashes : bool;
  blockLevelLimit : Z;
  effectiveBlockLevelLimit : Z;
  ctx_blockTimeLimit : Z;
  max_requests : Z;
  syncMode : LOGSIG_SyncMode;
  ctx_disabled : bool;
  signer_queue : ProtectedQueue
}.

(** The fields of [struct ksifile_s]; [roots] is the array of [MAX_ROOTS]
    slots, [IV] and the slots are [None] when the pointer is NULL. *)
Record ksifile_s := mkKsi {
  hashAlg : Z;
  bKeepRecordHashes : bool;
  bKeepTreeHashes : bool;
  blockSizeLimit : Z;
  blockTimeLimit : Z;
  disabled : bool;
  IV : option (list Z);
  lastLeaf : list Z;
  nRecords : Z;
  bInBlk : Z;
  blockStarted : Z;
  nRoots : nat;
  roots : list (option KSI_DataHash);
  blockFile : FILE
}.

(** What a call takes from the operating system: the address of a freshly
    allocated queue item (0 is the NULL of a failed [malloc]), the clock at
    enqueue and at block start, the content of the new IV buffer after the
    read from the random source, and whether the queue takes a push. *)
Record SysIn := mkSys {
  sys_malloc : nat;
  sys_time_enqueue : Z;
  sys_time_init : Z;
  sys_random : list Z;
  sys_push : bool
}.

Definition set_blockFile (f : FILE) (k : ksifile_s) : ksifile_s :=
  mkKsi (hashAlg k) (bKeepRecordHashes k) (bKeepTreeHashes k) (blockSizeLimit k)
        (blockTimeLimit k) (disabled k) (IV k) (lastLeaf k) (nRecords k) (bInBlk k)
        (blockStarted k) (nRoots k) (roots k) f.

Definition set_roots (r : list (option KSI_DataHash)) (k : ksifile_s) : ksifile_s :=
  mkKsi (hashAlg k) (bKeepRecordHashes k) (bKeepTreeHashes k) (blockSizeLimit k)
        (blockTimeLimit k) (disabled k) (IV k) (lastLeaf k) (nRecords k) (bInBlk k)
        (blockStarted k) (nRoots k) r (blockFile k).

Definition set_nRoots (n : nat) (k : ksifile_s) : ksifile_s :=
  mkKsi (hashAlg k) (bKeepRecordHashes k) (bKeepTreeHashes k) (blockSizeLimit k)
        (blockTimeLimit k) (disabled k) (IV k) (lastLeaf k) (nRecords k) (bInBlk k)
        (blockStarted k) n (roots k) (blockFile k).

Definition set_nRecords (n : Z) (k : ksifile_s) : ksifile_s :=
  mkKsi (hashAlg k) (bKeepRecordHashes k) (bKeepTreeHashes k) (blockSizeLimit k)
        (blockTimeLimit k) (disabled k) (IV k) (lastLeaf k) n (bInBlk k)
        (blockStarted k) (nRoots k) (roots k) (blockFile k).

Definition set_lastLeaf (l : list Z) (k : ksifile_s) : ksifile_s :=
  mkKsi (hashAlg k) (bKeepRecordHashes k) (bKeepTreeHashes k) (blockSizeLimit k)
        (blockTimeLimit k) (disabled k) (IV k) l (nRecords k) (bInBlk k)
        (blockStarted k) (nRoots k) (roots k) (blockFile k).

Definition set_IV (iv : option (list Z)) (k : ksifile_s) : ksifile_s :=
  mkKsi (hashAlg k) (bKeepRecordHashes k) (bKeepTreeHashes k) (blockSizeLimit k)
        (blockTimeLimit k) (disabled k) iv (lastLeaf k) (nRecords k) (bInBlk k)
        (blockStarted k) (nRoots k) (roots k) (blockFile k).

Definition set_bInBlk (b : Z) (k : ksifile_s) : ksifile_s :=
  mkKsi (hashAlg k) (bKeepRecordHashes k) (bKeepTreeHashes k) (blockSizeLimit k)
        (blockTimeLimit k) (disabled k) (IV k) (lastLeaf k) (nRecords k) b
        (blockStarted k) (nRoots k) (roots k) (blockFile k).

Definition set_blockStarted (t : Z) (k : ksifile_s) : ksifile_s :=
  mkKsi (hashAlg k) (bKeepRecordHashes k) (bKeepTreeHashes k) (blockSizeLimit k)
        (blockTimeLimit k) (disabled k) (IV k) (lastLeaf k) (nRecords k) (bInBlk k)
        t (nRoots k) (roots k) (blockFile k).

Definition set_blockSizeLimit (n : Z) (k : ksifile_s) : ksifile_s :=
  mkKsi (hashAlg k) (bKeepRecordHashes k) (bKeepTreeHashes k) n
        (blockTimeLimit k) (disabled k) (IV k) (lastLeaf k) (nRecords k) (bInBlk k)
        (blockStarted k) (nRoots k) (roots k) (blockFile k).

Definition set_effectiveBlockLevelLimit (l : Z) (c : rsksictx_s) : rsksictx_s :=
  mkCtx (ctx_hashAlg c) (ctx_bKeepRecordHashes c) (ctx_bKeepTreeHashes c)
        (blockLevelLimit c) l (ctx_blockTimeLimit c) (max_requests c) (syncMode c)
        (ctx_disabled c) (signer_queue c).

Definition set_max_requests (m : Z) (c : rsksictx_s) : rsksictx_s :=
  mkCtx (ctx_hashAlg c) (ctx_bKeepRecordHashes c) (ctx_bKeepTreeHashes c)
        (blockLevelLimit c) (effectiveBlockLevelLimit c) (ctx_blockTimeLimit c) m
        (syncMode c) (ctx_disabled c) (signer_queue c).

Definition set_ctx_disabled (d : bool) (c : rsksictx_s) : rsksictx_s :=
  mkCtx (ctx_hashAlg c) (ctx_bKeepRecordHashes c) (ctx_bKeepTreeHashes c)
        (blockLevelLimit c) (effectiveBlockLevelLimit c) (ctx_blockTimeLimit c)
        (max_requests c) (syncMode c) d (signer_queue c).

Definition set_signer_queue (q : ProtectedQueue) (c : rsksictx_s) : rsksictx_s :=
  mkCtx (ctx_hashAlg c) (ctx_bKeepRecordHashes c) (ctx_bKeepTreeHashes c)
        (blockLevelLimit c) (effectiveBlockLevelLimit c) (ctx_blockTimeLimit c)
        (max_requests c) (syncMode c) (ctx_disabled c) q.

(** ** Writers of the block file and of the signature file *)

Section Writers.
Context `{KsiEnv}.

(** The macro [CHKr(code)]: leave with the status of [code] unless it is 0. *)
Definition CHKr (m : C (Z * FILE)) (k : FILE -> C (Z * FILE)) : C (Z * FILE) :=
  let* (r, f) := m in
  if negb (r =? 0) then ret (r, f) else k f.

Definition tlvWriteHashKSI (ksi : ksifile_s) (tlvtype : Z) (rec : KSI_DataHash)
    : C (Z * ksifile_s) :=
  let* (r, f) := tlvWriteOctetStringTLV (blockFile ksi) 0 tlvtype rec
                   (Z.of_nat (length rec)) in
  ret (r, set_blockFile f ksi).

Definition tlvWriteBlockHdrKSI (ksi : ksifile_s) : C (Z * ksifile_s) :=
  let hash_algo := u8 (hashAlg ksi) in
  let tlvlen := u32 (2 + 1 + 2 + KSI_getHashLength (hashAlg ksi)
                     + 2 + KSI_getHashLength (hd 0 (lastLeaf ksi)) + 1) in
  let* (r, f) :=
    CHKr (tlvWriteHeader (blockFile ksi) 0x00 0x0901 tlvlen) (fun f =>
    CHKr (tlvWriteOctetStringTLV f 0x00 0x01 [hash_algo] 1) (fun f =>
    CHKr (tlvWriteOctetStringTLV f 0x00 0x02 (default [] (IV ksi))
            (KSI_getHashLength (hashAlg ksi))) (fun f =>
    tlvWriteOctetStringTLV f 0x00 0x03 (lastLeaf ksi)
            (KSI_getHashLength (hd 0 (lastLeaf ksi)) + 1)))) in
  ret (r, set_blockFile f ksi).

Definition tlvWriteKSISigLS12 (outfile : FILE) (record_count : Z)
    (der : list Z) (lenDer : Z) : C (Z * FILE) :=
  let lenDer := u16 lenDer in
  let totalSize := s32 (2 + tlvGetIntSize record_count + 4 + lenDer) in
  CHKr (tlvWriteHeader outfile 0x00 0x0904 totalSize) (fun f =>
  CHKr (tlvWriteInt64TLV f 0x00 0x01 record_count) (fun f =>
  tlvWriteOctetStringTLV f 0x00 0x0905 der lenDer)).

(** [hash] may be NULL: [KSI_DataHash_getImprint] then leaves the imprint
    empty. [errorText] is the C string without its terminating NUL. *)
Definition tlvWriteNoSigLS12 (outfile : FILE) (record_count : Z)
    (hash : option KSI_DataHash) (errorText : option (list Z)) : C (Z * FILE) :=
  let imprint := default [] hash in
  let imprintLen := Z.of_nat (length imprint) in
  let noSigSize :=
    s32 (2 + imprintLen
         + match errorText with
           | Some t => 2 + Z.of_nat (length t) + 1
           | None => 0
           end) in
  let totalSize := s32 (2 + tlvGetIntSize record_count + 2 + noSigSize) in
  CHKr (tlvWriteHeader outfile 0x00 0x0904 totalSize) (fun f =>
  CHKr (tlvWriteInt64TLV f 0x00 0x01 record_count) (fun f =>
  CHKr (tlvWriteHeader f 0x00 0x02 noSigSize) (fun f =>
  CHKr (tlvWriteOctetStringTLV f 0x00 0x01 imprint imprintLen) (fun f =>
  match errorText with
  | Some t => tlvWriteOctetStringTLV f 0x00 0x02 (t ++ [0]) (Z.of_nat (length t) + 1)
  | None => ret (0, f)
  end)))).

End Writers.

(** ** Hasher facade and the level of a block *)

Section Hashing.
Context `{KsiEnv}.

(** A NULL [IV] is refused by the hasher, as a failing call. *)
Definition sigblkCreateMask (ksi : ksifile_s) : Z * option KSI_DataHash :=
  match IV ksi with
  | None => (RSGTE_HASH_CREATE, None)
  | Some iv =>
      match KSI_DataHasher_run
              (take (Z.to_nat (KSI_getHashLength (hd 0 (lastLeaf ksi)) + 1)) (lastLeaf ksi)
               ++ take (Z.to_nat (KSI_getHashLength (hashAlg ksi))) iv) with
      | Some m => (0, Some m)
      | None => (RSGTE_HASH_CREATE, None)
      end
  end.

Definition sigblkCreateHash (ksi : ksifile_s) (rec : list Z) (len : Z)
    : Z * option KSI_DataHash :=
  match KSI_DataHasher_run (take (Z.to_nat len) rec) with
  | Some h => (0, Some h)
  | None => (RSGTE_HASH_CREATE, None)
  end.

Definition sigblkHashTwoNodes (ksi : ksifile_s) (left right : KSI_DataHash) (level : Z)
    : Z * option KSI_DataHash :=
  match KSI_DataHasher_run (left ++ right ++ [u8 level]) with
  | Some h => (0, Some h)
  | None => (RSGTE_HASH_CREATE, None)
  end.

Fixpoint sigblkCalcLevel_loop (fuel : nat) (c level : Z) : Z :=
  match fuel with
  | O => level
  | S fuel' =>
      if 1 <? c then sigblkCalcLevel_loop fuel' (Z.shiftr c 1) (u32 (level + 1))
      else level
  end.

(** [leaves] is an [unsigned]: 32 halvings bring it to 0. The comparison
    [1 << level < (int)leaves] is made on [int]s. *)
Definition sigblkCalcLevel (leaves : Z) : Z :=
  let leaves := u32 leaves in
  let level := sigblkCalcLevel_loop 32 leaves 0 in
  if s32 (Z.shiftl 1 level) <? s32 leaves then u32 (level + 1) else level.

End Hashing.

(** ** Merkle accumulator and block controller *)

Section Block.
Context `{KsiEnv}.

(** [roots[j]], NULL when the slot is empty. *)
Definition root_at (ksi : ksifile_s) (j : nat) : option KSI_DataHash :=
  match roots ksi !! j with
  | Some (Some h) => Some h
  | _ => None
  end.

Definition set_root (j : nat) (v : option KSI_DataHash) (ksi : ksifile_s) : ksifile_s :=
  set_roots (<[j := v]> (roots ksi)) ksi.

(** Both failure paths disable the context and queue nothing: a NULL from
    [malloc], and a push the queue refuses (the item is then freed). *)
Definition add_queue_item (ctx : rsksictx_s) (sys : SysIn) (ty : QITEM_type)
    (a : QueueArg) (i1 i2 : Z) : bool * rsksictx_s :=
  if (sys_malloc sys =? 0)%nat then (false, set_ctx_disabled true ctx) else
  let qi := mkItem (sys_malloc sys) ty QITEM_WAITING a (u64 i1) (u64 i2)
                   None KSI_UNKNOWN_ERROR (sys_time_enqueue sys) in
  match ProtectedQueue_addItem (signer_queue ctx) qi (sys_push sys) with
  | None => (false, set_ctx_disabled true ctx)
  | Some q => (true, set_signer_queue q ctx)
  end.

(** [1 << n] on [int]s. C leaves the shift undefined for a count outside
    0..31; the compiled code takes the count modulo 32, as the shift
    instruction does, and so does the model. [1 << 31] is [INT_MIN]. *)
Definition int_shl1 (n : Z) : Z := s32 (Z.shiftl 1 (Z.land n 31)).

(** [seedIVKSI] leaves in [IV] whatever [sys_random] holds. The [int] of
    the shift is converted to the [uint64_t] of [blockSizeLimit]. *)
Definition sigblkInitKSI (ctx : rsksictx_s) (ksi : option ksifile_s) (sys : SysIn)
    : option ksifile_s :=
  match ksi with
  | None => None
  | Some k =>
      let k := set_IV (Some (sys_random sys)) k in
      let k := set_roots (replicate MAX_ROOTS None) k in
      let k := set_nRoots 0%nat k in
      let k := set_nRecords 0 k in
      let k := set_bInBlk 1 k in
      let k := set_blockStarted (sys_time_init sys) k in
      let k := set_blockSizeLimit
                 (u64 (int_shl1 (effectiveBlockLevelLimit ctx - 1))) k in
      Some k
  end.

(** The statement [if (c) tlvWriteHashKSI(ksi, tlvtype, h);], its status
    dropped. *)
Definition write_hash_if (c : bool) (ksi : ksifile_s) (tlvtype : Z) (h : KSI_DataHash)
    : C ksifile_s :=
  if c then let* (_, k) := tlvWriteHashKSI ksi tlvtype h in ret k
  else ret ksi.

(** The carry loop [for (j = 0; j < nRoots; ++j)] of [sigblkAddLeaf], with
    [n] iterations left. It yields the status, the handle and [treeNode]
    ([None] once the node is stored). *)
Fixpoint sigblkAddLeaf_carry (n j : nat) (ksi : ksifile_s) (treeNode : KSI_DataHash)
    : C (Z * ksifile_s * option KSI_DataHash) :=
  match n with
  | O => ret (0, ksi, Some treeNode)
  | S n' =>
      match root_at ksi j with
      | None => ret (0, set_root j (Some treeNode) ksi, None)
      | Some rj =>
          let '(r, out) := sigblkHashTwoNodes ksi rj treeNode (Z.of_nat j + 2) in
          let ksi := set_root j None ksi in
          match out with
          | None => ret (r, ksi, None)
          | Some t =>
              let* ksi := write_hash_if (bKeepTreeHashes ksi) ksi 0x0903 t in
              sigblkAddLeaf_carry n' (S j) ksi t
          end
      end
  end.

(** [memcpy(ksi->lastLeaf, pTmp, len)] *)
Definition memcpy (dst src : list Z) : list Z :=
  src ++ drop (length src) dst.

Definition sigblkAddLeaf (ksi : option ksifile_s) (leafData : list Z)
    (leafLength : Z) (metadata : bool) : C (Z * option ksifile_s) :=
  match ksi with
  | None => ret (0, None)
  | Some k =>
    if disabled k then ret (0, Some k) else
    match sigblkCreateMask k with
    | (r, None) => ret (r, Some k)
    | (_, Some mask) =>
    match sigblkCreateHash k leafData leafLength with
    | (r, None) => ret (r, Some k)
    | (_, Some leafHash) =>
      let* k :=
        if nRecords k =? 0
        then let* (_, k') := tlvWriteBlockHdrKSI k in ret k'
        else ret k in
      let k :=
        if metadata
        then set_blockFile (snd (tlvWriteOctetString (blockFile k) leafData leafLength)) k
        else k in
      let* k := write_hash_if (bKeepRecordHashes k) k 0x0902 leafHash in
      match (if negb metadata
             then sigblkHashTwoNodes k mask leafHash 1
             else sigblkHashTwoNodes k leafHash mask 1) with
      | (r, None) => ret (r, Some k)
      | (_, Some treeNode) =>
        let* k := write_hash_if (bKeepTreeHashes k) k 0x0903 treeNode in
        let k := set_lastLeaf (memcpy (lastLeaf k) treeNode) k in
        let* (r, k, treeNode) := sigblkAddLeaf_carry (nRoots k) 0 k treeNode in
        if negb (r =? 0) then ret (r, Some k) else
        let* k :=
          match treeNode with
          | Some t =>
              let k := set_root (nRoots k) (Some t) k in
              let k := set_nRoots (S (nRoots k)) k in
              let* _ := assert (nRoots k <? MAX_ROOTS)%nat in
              ret k
          | None => ret k
          end in
        ret (0, Some (set_nRecords (u64 (nRecords k + 1)) k))
      end
    end
    end
  end.

Definition sigblkSign (ksi : ksifile_s) (hash : option KSI_DataHash) (level : Z)
    : C (Z * ksifile_s) :=
  match KSI_sign (default [] hash) (s32 level) with
  | inr der =>
      let* (r, f) := tlvWriteKSISigLS12 (blockFile ksi) (nRecords ksi) der
                       (Z.of_nat (length der)) in
      ret ((if negb (r =? KSI_OK) then 1 else 0), set_blockFile f ksi)
  | inl e =>
      let* (r, f) := tlvWriteNoSigLS12 (blockFile ksi) (nRecords ksi) hash
                       (Some (KSI_getErrorString e)) in
      ret (1, set_blockFile f ksi)
  end.

(** The loop [for (j = 0; j < nRoots; ++j)] of [sigblkFinishKSI], with [n]
    iterations left. After a failed hash [root] still points to the freed
    node: with [bKeepTreeHashes] the source goes on to write it. *)
Fixpoint sigblkFinishKSI_fold (n j : nat) (ksi : ksifile_s) (root : option KSI_DataHash)
    : C (Z * ksifile_s * option KSI_DataHash) :=
  match n with
  | O => ret (0, ksi, root)
  | S n' =>
      match root with
      | None =>
          let root := root_at ksi j in
          sigblkFinishKSI_fold n' (S j) (set_root j None ksi) root
      | Some rootDel =>
          match root_at ksi j with
          | None => sigblkFinishKSI_fold n' (S j) ksi root
          | Some rj =>
              let '(r, out) := sigblkHashTwoNodes ksi rj rootDel (Z.of_nat j + 2) in
              let ksi := set_root j None ksi in
              match out with
              | None => if bKeepTreeHashes ksi then None else ret (r, ksi, None)
              | Some t =>
                  let* ksi := write_hash_if (bKeepTreeHashes ksi) ksi 0x0903 t in
                  sigblkFinishKSI_fold n' (S j) ksi (Some t)
              end
          end
      end
  end.

(** The label [done:] of [sigblkFinishKSI]. *)
Definition sigblkFinishKSI_done (ksi : ksifile_s) : ksifile_s :=
  set_bInBlk 0 (set_IV None ksi).

Definition sigblkFinishKSI (ctx : rsksictx_s) (ksi : ksifile_s) (sys : SysIn)
    : C (Z * rsksictx_s * ksifile_s) :=
  if nRecords ksi =? 0 then ret (0, ctx, sigblkFinishKSI_done ksi) else
  let* (r, ksi, root) := sigblkFinishKSI_fold (nRoots ksi) 0 ksi None in
  if negb (r =? 0) then ret (r, ctx, sigblkFinishKSI_done ksi) else
  let level := sigblkCalcLevel (u64 (2 * nRecords ksi)) in
  match syncMode ctx with
  | LOGSIG_ASYNCHRONOUS =>
      let* (r, f) := tlvWriteNoSigLS12 (blockFile ksi) (nRecords ksi) root None in
      let r := if negb (r =? KSI_OK) then 1 else r in
      let ctx := snd (add_queue_item ctx sys QITEM_SIGNATURE_REQUEST
                        (match root with Some h => ArgHash h | None => ArgNULL end)
                        (nRecords ksi) level) in
      ret (r, ctx, sigblkFinishKSI_done (set_blockFile f ksi))
  | LOGSIG_SYNCHRONOUS =>
      let* (_, ksi) := sigblkSign ksi root level in
      ret (0, ctx, sigblkFinishKSI_done ksi)
  end.

Definition sigblkAddRecordKSI (ctx : rsksictx_s) (ksi : option ksifile_s)
    (rec : list Z) (len : Z) (sys : SysIn) : C (Z * rsksictx_s * option ksifile_s) :=
  match ksi with
  | None => ret (0, ctx, None)
  | Some k =>
    if disabled k then ret (0, ctx, Some k) else
    let* (r, ksi') := sigblkAddLeaf (Some k) rec len false in
    if negb (r =? 0) then ret (r, ctx, ksi') else
    match ksi' with
    | None => ret (r, ctx, None)
    | Some k' =>
        if nRecords k' =? blockSizeLimit k' then
          let* (_, ctx, k'') := sigblkFinishKSI ctx k' sys in
          ret (r, ctx, sigblkInitKSI ctx (Some k'') sys)
        else ret (r, ctx, Some k')
    end
  end.

End Block.

(** ** Aggregator configuration *)

(** The options the worker sets on the asynchronous service. *)
Record KSI_AsyncService := mkService {
  KSI_ASYNC_OPT_MAX_REQUEST_COUNT : Z;
  KSI_ASYNC_OPT_REQUEST_CACHE_SIZE : Z
}.

Definition handle_ksi_config (ctx : rsksictx_s) (as_ : option KSI_AsyncService)
    (config : KSI_Config) : rsksictx_s * option KSI_AsyncService :=
  let '(ctx, as_) :=
    match KSI_Config_getMaxRequests config with
    | Some ksi_int =>
        let tmpInt := u64 ksi_int in
        let ctx := set_max_requests tmpInt ctx in
        (ctx,
         match as_ with
         | Some _ => Some (mkService (max_requests ctx) (u64 (5 * max_requests ctx)))
         | None => None
         end)
    | None => (ctx, as_)
    end in
  match KSI_Config_getMaxLevel config with
  | Some ksi_int =>
      let tmpInt := u64 ksi_int in
      let newLevel := MIN tmpInt (blockLevelLimit ctx) in
      if negb (effectiveBlockLevelLimit ctx =? newLevel)
      then (set_effectiveBlockLevelLimit newLevel ctx, as_)
      else if tmpInt <? 2 then (set_ctx_disabled true ctx, as_)
      else (ctx, as_)
  | None => (ctx, as_)
  end.

(** ** Signer worker *)

Section Worker.
Context `{KsiEnv}.

Definition save_response (outfile : FILE) (item : QueueItem) : C (bool * FILE) :=
  let hash := match arg item with ArgHash h => Some h | _ => None end in
  match respHandle item with
  | Some h =>
      if ksi_status item =? KSI_OK then
        match KSI_AsyncHandle_getSignature h with
        | inr raw =>
            let* (_, f) := tlvWriteKSISigLS12 outfile (intarg1 item) raw
                             (Z.of_nat (length raw)) in
            ret (true, f)
        | inl res =>
            let* (_, f) := tlvWriteNoSigLS12 outfile (intarg1 item) hash
                             (Some (KSI_getErrorString res)) in
            ret (false, f)
        end
      else
        let* (_, f) := tlvWriteNoSigLS12 outfile (intarg1 item) hash
                         (Some (KSI_getErrorString (ksi_status item))) in
        ret (true, f)
  | None =>
      let* (_, f) := tlvWriteNoSigLS12 outfile (intarg1 item) hash
                       (Some (KSI_getErrorString (ksi_status item))) in
      ret (true, f)
  end.

(** What one call of [process_requests_async] takes from the asynchronous
    service: the handles [KSI_AsyncService_run] hands out before it yields
    NULL, and, for the item at a given address, the status of building its
    request and the status of [KSI_AsyncService_addRequest]. *)
Record AsyncEnv := mkEnv {
  env_responses : list KSI_AsyncHandle;
  env_build : nat -> Z;
  env_addRequest : nat -> Z
}.

(** Assignment through the item pointer a response carries. *)
Definition update_item (a : nat) (g : QueueItem -> QueueItem) (q : ProtectedQueue)
    : ProtectedQueue :=
  map (fun qi => if Nat.eqb (qaddr qi) a then g qi else qi) q.

Definition set_status (s : QITEM_status) (qi : QueueItem) : QueueItem :=
  mkItem (qaddr qi) (type qi) s (arg qi) (intarg1 qi) (intarg2 qi)
         (respHandle qi) (ksi_status qi) (request_time qi).

Definition set_ksi_status (e : Z) (qi : QueueItem) : QueueItem :=
  mkItem (qaddr qi) (type qi) (status qi) (arg qi) (intarg1 qi) (intarg2 qi)
         (respHandle qi) e (request_time qi).

Definition set_respHandle (h : option KSI_AsyncHandle) (qi : QueueItem) : QueueItem :=
  mkItem (qaddr qi) (type qi) (status qi) (arg qi) (intarg1 qi) (intarg2 qi)
         h (ksi_status qi) (request_time qi).

(** First loop: the responses received. [false] is [goto cleanup]; a NULL
    request context of a received response is dereferenced. *)
Fixpoint process_responses (hs : list KSI_AsyncHandle) (ctx : rsksictx_s)
    (as_ : option KSI_AsyncService) : C (bool * rsksictx_s * option KSI_AsyncService) :=
  match hs with
  | [] => ret (true, ctx, as_)
  | respHandle :: hs' =>
      match KSI_AsyncHandle_getState respHandle with
      | inl _ => ret (false, ctx, as_)
      | inr KSI_ASYNC_STATE_PUSH_CONFIG_RECEIVED =>
          match KSI_AsyncHandle_getConfig respHandle with
          | inr config =>
              let '(ctx, as_) := handle_ksi_config ctx as_ config in
              process_responses hs' ctx as_
          | inl _ => process_responses hs' ctx as_
          end
      | inr KSI_ASYNC_STATE_RESPONSE_RECEIVED =>
          match KSI_AsyncHandle_getRequestCtx respHandle with
          | inl _ => ret (false, ctx, as_)
          | inr None => None
          | inr (Some a) =>
              let q := update_item a
                         (fun qi => set_status QITEM_DONE
                                      (set_ksi_status KSI_OK
                                         (set_respHandle (Some respHandle) qi)))
                         (signer_queue ctx) in
              process_responses hs' (set_signer_queue q ctx) as_
          end
      | inr KSI_ASYNC_STATE_ERROR =>
          match KSI_AsyncHandle_getRequestCtx respHandle with
          | inl _ => ret (false, ctx, as_)
          | inr None => process_responses hs' ctx as_
          | inr (Some a) =>
              let q := update_item a
                         (fun qi => set_status QITEM_DONE
                                      (set_ksi_status
                                         (KSI_AsyncHandle_getError respHandle) qi))
                         (signer_queue ctx) in
              process_responses hs' (set_signer_queue q ctx) as_
          end
      | inr _ => process_responses hs' ctx as_
      end
  end.

(** Second loop, [for (i = 0; i < count; i++)], with [n] iterations left. *)
Fixpoint send_requests (env : AsyncEnv) (n i : nat) (q : ProtectedQueue)
    : bool * ProtectedQueue :=
  match n with
  | O => (true, q)
  | S n' =>
      match ProtectedQueue_getItem q i with
      | None => send_requests env n' (S i) q
      | Some item =>
          if negb (QITEM_type_eqb (type item) QITEM_SIGNATURE_REQUEST)
          then send_requests env n' (S i) q
          else if negb (QITEM_status_eqb (status item) QITEM_WAITING)
          then send_requests env n' (S i) q
          else if negb (env_build env (qaddr item) =? KSI_OK) then (false, q)
          else
            let res := env_addRequest env (qaddr item) in
            if res =? KSI_OK
            then send_requests env n' (S i) (<[i := set_status QITEM_SENT item]> q)
            else (true, <[i := set_ksi_status res (set_status QITEM_DONE item)]> q)
      end
  end.

(** Third loop: the fulfilled requests at the front of the queue. It yields
    the queue left, the signature file, and the items handed to
    [save_response], in that order. Writing to a NULL stream stops the run. *)
Fixpoint save_responses (q : ProtectedQueue) (outfile : option FILE)
    : C (ProtectedQueue * option FILE * list QueueItem) :=
  match q with
  | [] => ret ([], outfile, [])
  | item :: q' =>
      if negb (QITEM_type_eqb (type item) QITEM_SIGNATURE_REQUEST)
      then ret (q, outfile, [])
      else if negb (QITEM_status_eqb (status item) QITEM_DONE)
      then ret (q, outfile, [])
      else
        match outfile with
        | None => None
        | Some f =>
            let* (_, f) := save_response f item in
            let* (q'', outfile, saved) := save_responses q' (Some f) in
            ret (q'', outfile, item :: saved)
        end
  end.

Definition process_requests_async (ctx : rsksictx_s) (as_ : option KSI_AsyncService)
    (outfile : option FILE) (env : AsyncEnv)
    : C (bool * rsksictx_s * option KSI_AsyncService * option FILE * list QueueItem) :=
  let* (ok, ctx, as_) := process_responses (env_responses env) ctx as_ in
  if negb ok then ret (false, ctx, as_, outfile, []) else
  let '(ok, q) := send_requests env (ProtectedQueue_count (signer_queue ctx)) 0
                    (signer_queue ctx) in
  let ctx := set_signer_queue q ctx in
  if negb ok then ret (false, ctx, as_, outfile, []) else
  let* (q, outfile, saved) := save_responses (signer_queue ctx) outfile in
  ret (true, set_signer_queue q ctx, as_, outfile, saved).

(** The worker between two turns of its loop: the context with the queue,
    the asynchronous service, the signature file in use, the files it has
    closed, and whether the thread still runs. *)
Record Worker := mkWorker {
  w_ctx : rsksictx_s;
  w_as : option KSI_AsyncService;
  ksiFile : option FILE;
  w_closed : list FILE;
  w_running : bool
}.

(** One turn of [while (true)] in [signer_thread], after the wait and the
    block timeout check; with it the items handed to [save_response]. The
    config request sent to the service on [QITEM_NEW_FILE] stays with the
    service. A closed file goes to [w_closed]. *)
Definition signer_thread_turn (w : Worker) (env : AsyncEnv) : C (Worker * list QueueItem) :=
  if negb (w_running w) then ret (w, []) else
  if (ProtectedQueue_count (signer_queue (w_ctx w)) =? 0)%nat then
    let* (_, ctx, as_, f, saved) :=
      process_requests_async (w_ctx w) (w_as w) (ksiFile w) env in
    ret (mkWorker ctx as_ f (w_closed w) true, saved)
  else
    let* (ok, ctx, as_, f, saved) :=
      match ksiFile w with
      | Some _ => process_requests_async (w_ctx w) (w_as w) (ksiFile w) env
      | None => ret (true, w_ctx w, w_as w, None, [])
      end in
    if negb ok
    then ret (mkWorker (set_ctx_disabled true ctx) as_ f (w_closed w) false, saved)
    else if match ProtectedQueue_peekFront (signer_queue ctx) with
            | Some item => QITEM_type_eqb (type item) QITEM_SIGNATURE_REQUEST
            | None => false
            end
    then ret (mkWorker ctx as_ f (w_closed w) true, saved)
    else
      match ProtectedQueue_popFront (signer_queue ctx) with
      | (None, _) => ret (mkWorker ctx as_ f (w_closed w) true, saved)
      | (Some item, q') =>
          match type item with
          | QITEM_SIGNATURE_REQUEST =>
              ret (mkWorker (set_signer_queue q' ctx) as_ f (w_closed w) true, saved)
          | QITEM_CLOSE_FILE =>
              ret (mkWorker (set_signer_queue q' ctx) as_ None
                            (w_closed w ++ match f with Some f' => [f'] | None => [] end)
                            true, saved)
          | QITEM_NEW_FILE =>
              ret (mkWorker (set_signer_queue q' ctx) as_
                            (match arg item with ArgFile f' => Some f' | _ => None end)
                            (w_closed w) true, saved)
          | QITEM_QUIT =>
              ret (mkWorker (set_signer_queue q' ctx) as_ f
                            (w_closed w ++ match f with Some f' => [f'] | None => [] end)
                            false, saved)
          end
      end.

(** A run of the system as the queue sees it: items enqueued by the logging
    side ([add_queue_item], also when the worker's timeout check closes a
    block) and turns of the worker. *)
Inductive Event :=
  | EvEnqueue (sys : SysIn) (ty : QITEM_type) (a : QueueArg) (i1 i2 : Z)
  | EvTurn (env : AsyncEnv).

Definition step (w : Worker) (e : Event) : C (Worker * list QueueItem) :=
  match e with
  | EvEnqueue sys ty a i1 i2 =>
      ret (mkWorker (snd (add_queue_item (w_ctx w) sys ty a i1 i2)) (w_as w)
                    (ksiFile w) (w_closed w) (w_running w), [])
  | EvTurn env => signer_thread_turn w env
  end.

Fixpoint run (w : Worker) (evs : list Event) : C (Worker * list QueueItem) :=
  match evs with
  | [] => ret (w, [])
  | e :: evs' =>
      let* (w', saved) := step w e in
      let* (w'', saved') := run w' evs' in
      ret (w'', saved ++ saved')
  end.

End Worker.

(** ** Metadata records, block time-out, state file and the close of a file *)

(** The bytes of a C string literal, without the terminating NUL. *)
Definition cstr (s : string) : list Z :=
  map (fun a => Z.of_nat (nat_of_ascii a)) (list_ascii_of_string s).

Definition blockCloseReason : list Z := cstr "com.guardtime.blockCloseReason"%string.

(** The element tree [tlvCreateMetadata] hands to libksi for serialization. *)
#[warnings="-register-all"] Inductive KSI_TlvElement :=
  | TlvInteger (tag : Z) (value : Z)
  | TlvUtf8String (tag : Z) (value : list Z)
  | TlvNested (tag : Z) (children : list KSI_TlvElement).

(** What the file-level functions take from lib_ksils12.h, from libksi and
    from the C library. *)
Class HostEnv := {
  (* lib_ksils12.h *)
  RSGTE_INTERNAL : Z;
  (* libksi *)
  KSI_MAX_IMPRINT_LEN : Z;
  (* KSI_TlvElement_serialize into a buffer of 0xFFFF bytes: the encoding,
     or [None] when the call reports an error *)
  KSI_TlvElement_serialize : KSI_TlvElement -> option (list Z);
  (* the digits printf gives for [%d] *)
  printf_d : Z -> list Z
}.

Definition KSI_BUF_SIZE : Z := 4096.

Section FileLevel.
Context `{KsiEnv} `{HostEnv}.

(** The buffer and [*len]. The constructors of the elements are taken to
    succeed; when the serialization fails, [*len] keeps the 0 the caller
    put there and the buffer, never read for a length of 0, is left empty. *)
Definition tlvCreateMetadata (ksi : ksifile_s) (record_index : Z)
    (key value : list Z) : list Z * Z :=
  let attrib_tlv :=
    TlvNested 0x02 [TlvUtf8String 0x01 (key ++ [0]); TlvUtf8String 0x02 (value ++ [0])] in
  let metadata := TlvNested 0x0911 [TlvInteger 0x01 (u64 record_index); attrib_tlv] in
  match KSI_TlvElement_serialize metadata with
  | Some buffer => (buffer, Z.of_nat (length buffer))
  | None => ([], 0)
  end.

(** [ksi->nRecords] is read before the NULL check of [sigblkAddLeaf]. *)
Definition sigblkAddMetadata (ksi : option ksifile_s) (key value : list Z)
    : C (Z * option ksifile_s) :=
  match ksi with
  | None => None
  | Some k =>
      let '(buffer, encoded_size) := tlvCreateMetadata k (nRecords k) key value in
      let* (_, ksi') := sigblkAddLeaf (Some k) buffer encoded_size true in
      ret (0, ksi')
  end.

(** [ctx->ksi] is the handle [ksi]; [now] is what [time(NULL)] returns. The
    sum [blockStarted + blockTimeLimit] is taken within the range of
    [time_t]. *)
Definition sigblkCheckTimeOut (ctx : rsksictx_s) (ksi : option ksifile_s)
    (now : Z) (sys : SysIn) : C (Z * rsksictx_s * option ksifile_s) :=
  match ksi with
  | None => ret (0, ctx, None)
  | Some k =>
      if ctx_disabled ctx || (ctx_blockTimeLimit ctx =? 0) || (bInBlk k =? 0)
      then ret (0, ctx, ksi)
      else if now <? blockStarted k + ctx_blockTimeLimit ctx
      then ret (0, ctx, ksi)
      else
        let buf :=
          take (Z.to_nat (KSI_BUF_SIZE - 1))
               (cstr "Block closed due to reaching time limit "%string
                ++ printf_d (ctx_blockTimeLimit ctx)) in
        let* (_, ksi1) := sigblkAddMetadata ksi blockCloseReason buf in
        match ksi1 with
        | None => None
        | Some k1 =>
            let* (_, ctx, k2) := sigblkFinishKSI ctx k1 sys in
            ret (0, ctx, sigblkInitKSI ctx (Some k2) sys)
        end
  end.

(** Modelled from the spec: [struct rsksistatefile] of lib_ksils12.h, absent
    from the sources: "KSISTAT10" (9 bytes), hashID (1), lenHash (1); the
    digest follows it in the file. *)
Definition sizeof_rsksistatefile : nat := 11.

(** A state file is its content, [None] when it cannot be opened. A [read]
    gives the bytes there are, up to the count asked for. *)
Definition ksiReadStateFile (ksi : ksifile_s) (statefile : option (list Z))
    : bool * ksifile_s :=
  let fresh :=
    set_lastLeaf (<[0%nat := u8 (hashAlg ksi)]> (replicate (length (lastLeaf ksi)) 0)) ksi in
  match statefile with
  | None => (false, fresh)
  | Some content =>
      let sf := take sizeof_rsksistatefile content in
      if negb (length sf =? sizeof_rsksistatefile)%nat then (false, fresh) else
      if negb (bool_decide (take 9 sf = cstr "KSISTAT10"%string)) then (false, fresh) else
      let hashID := nth 9 sf 0 in
      let lenHash := nth 10 sf 0 in
      if negb (KSI_getHashLength hashID =? lenHash)
         || (KSI_MAX_IMPRINT_LEN - 1 <? KSI_getHashLength hashID)
      then (false, fresh)
      else
        let digest := take (Z.to_nat lenHash) (drop sizeof_rsksistatefile content) in
        if negb (Z.of_nat (length digest) =? lenHash) then (false, fresh)
        else (true, set_lastLeaf (memcpy (lastLeaf ksi) (hashID :: digest)) ksi)
  end.

(** The new content of the state file; [open_ok] tells whether it could be
    opened for writing. The two [write]s are taken to succeed in full. *)
Definition ksiWwriteStateFile (ksi : ksifile_s) (statefile : option (list Z))
    (open_ok : bool) : option (list Z) :=
  if negb open_ok then statefile
  else
    let lenHash := u8 (KSI_getHashLength (hd 0 (lastLeaf ksi))) in
    Some (cstr "KSISTAT10"%string ++ [u8 (hashAlg ksi); lenHash]
          ++ take (Z.to_nat lenHash) (drop 1 (lastLeaf ksi))).

(** What is left when a handle is gone: the status, the context, the block
    file that was closed and the state file. *)
Record Closed := mkClosed {
  cl_status : Z;
  cl_ctx : rsksictx_s;
  cl_blockFile : option FILE;
  cl_statefile : option (list Z)
}.

Definition ksiCloseSigFile (ctx : rsksictx_s) (ksi : ksifile_s) (sys : SysIn)
    (statefile : option (list Z)) (open_ok : bool) : Closed :=
  let ctx :=
    match syncMode ctx with
    | LOGSIG_ASYNCHRONOUS => snd (add_queue_item ctx sys QITEM_CLOSE_FILE ArgNULL 0 0)
    | LOGSIG_SYNCHRONOUS => ctx
    end in
  mkClosed 0 ctx (Some (blockFile ksi)) (ksiWwriteStateFile ksi statefile open_ok).

(** [sys] serves the calls made while the block is closed, [sys_close] the
    queueing of the close marker. *)
Definition rsksifileDestruct (ctx : rsksictx_s) (ksi : option ksifile_s)
    (sys sys_close : SysIn) (statefile : option (list Z)) (open_ok : bool)
    : C Closed :=
  match ksi with
  | None => ret (mkClosed RSGTE_INTERNAL ctx None statefile)
  | Some k =>
      let* (r, ctx, k) :=
        if negb (disabled k) && negb (bInBlk k =? 0) then
          let* (_, ksi1) :=
            sigblkAddMetadata (Some k) blockCloseReason
              (cstr "Block closed due to file closure."%string) in
          match ksi1 with
          | None => None
          | Some k1 => sigblkFinishKSI ctx k1 sys
          end
        else ret (0, ctx, k) in
      if negb (disabled k) then ret (ksiCloseSigFile ctx k sys_close statefile open_ok)
      else ret (mkClosed r ctx None statefile)
  end.

End FileLevel.

(** ** Aggregator endpoints *)

(** The aggregator part of [struct rsksictx_s]. A string is the C string
    found at the pointer stored, [None] for NULL; [aggregatorEndpoints]
    holds the [aggregatorEndpointCount] pointers in use. *)
Record rsksictx_aggr := mkAggr {
  aggregatorUri : option (list Z);
  aggregatorId : option (list Z);
  aggregatorKey : option (list Z);
  aggregatorEndpoints : list (list Z);
  aggr_disabled : bool
}.

(** What [rsksiSetAggregator] takes from libksi: the capacity of the
    endpoint array, a status, and the status [KSI_CTX_setAggregator] returns
    for the three strings it is given. *)
Class AggrEnv := {
  KSI_CTX_HA_MAX_SUBSERVICES : nat;
  KSI_INVALID_ARGUMENT : Z;
  KSI_CTX_setAggregator : option (list Z) -> option (list Z) -> option (list Z) -> Z
}.

Section Aggregator.
Context `{AggrEnv}.

(** [(s != NULL && strlen(s) != 0) ? strdup(s) : NULL] *)
Definition strdup_nonempty (s : option (list Z)) : option (list Z) :=
  match s with
  | Some (c :: s') => Some (c :: s')
  | _ => None
  end.

(** [strsep(&strTmp, "|")] on the string at [strTmp]: the token, which ends
    where the first ['|'] is overwritten with NUL, and the new [strTmp], NULL
    when there was no ['|']. *)
Fixpoint strsep (s : list Z) : list Z * option (list Z) :=
  match s with
  | [] => ([], None)
  | c :: s' =>
      if c =? 124 then ([], Some s')
      else let '(token, strTmp) := strsep s' in (c :: token, strTmp)
  end.

(** The loop [while ((strTmpUri = strsep(&strTmp, "|")) != NULL)], with
    [fuel] calls of [strsep] left. *)
Fixpoint rsksiSetAggregator_loop (fuel : nat) (strTmp : option (list Z))
    (endpoints : list (list Z)) : list (list Z) :=
  match fuel, strTmp with
  | S fuel', Some s =>
      let '(strTmpUri, strTmp') := strsep s in
      let endpoints' :=
        if (KSI_CTX_HA_MAX_SUBSERVICES <=? length endpoints)%nat then endpoints
        else endpoints ++ [strTmpUri] in
      rsksiSetAggregator_loop fuel' strTmp' endpoints'
  | _, _ => endpoints
  end.

(** A string of [n] bytes holds at most [n + 1] tokens. After the loop the
    string at [aggregatorUri] ends at the first NUL the loop wrote. *)
Definition rsksiSetAggregator (ctx : rsksictx_aggr) (uri loginid key : option (list Z))
    : Z * rsksictx_aggr :=
  let uri := strdup_nonempty uri in
  let loginid := strdup_nonempty loginid in
  let key := strdup_nonempty key in
  let endpoints :=
    rsksiSetAggregator_loop (S (length (default [] uri))) uri (aggregatorEndpoints ctx) in
  let uri := option_map (fun s => fst (strsep s)) uri in
  let r := KSI_CTX_setAggregator uri loginid key in
  if negb (r =? KSI_OK)
  then (KSI_INVALID_ARGUMENT, mkAggr uri loginid key endpoints true)
  else (r, mkAggr uri loginid key endpoints (aggr_disabled ctx)).

End Aggregator.

(** * Notions used in the statements *)

(** ** What is hashed, what is stored, what is written *)

Section Notions.
Context `{KsiEnv}.

(** The value of a byte string read most significant byte first. *)
Definition be_value (bs : list Z) : Z :=
  fold_left (fun acc b => acc * 256 + b) bs 0.

(** Config pushes handled one after the other. *)
Fixpoint handle_ksi_configs (ctx : rsksictx_s) (as_ : option KSI_AsyncService)
    (configs : list KSI_Config) : rsksictx_s * option KSI_AsyncService :=
  match configs with
  | [] => (ctx, as_)
  | config :: configs' =>
      let '(ctx', as_') := handle_ksi_config ctx as_ config in
      handle_ksi_configs ctx' as_' configs'
  end.

(** The bytes hashed into the mask: the imprint held in [lastLeaf], then the
    IV. *)
Definition mask_input (ksi : ksifile_s) (iv : list Z) : list Z :=
  take (Z.to_nat (KSI_getHashLength (hd 0 (lastLeaf ksi)) + 1)) (lastLeaf ksi)
  ++ take (Z.to_nat (KSI_getHashLength (hashAlg ksi))) iv.

(** The bytes hashed into the tree leaf. *)
Definition leaf_input (metadata : bool) (mask leafHash : KSI_DataHash) : list Z :=
  if metadata then leafHash ++ mask ++ [1] else mask ++ leafHash ++ [1].

(** Whether slot [j] of [roots] holds a hash. *)
Definition slot_used (ksi : ksifile_s) (j : nat) : bool :=
  match root_at ksi j with
  | Some _ => true
  | None => false
  end.

(** The state of the roots array after [m] leaves. *)
Definition roots_count (ksi : ksifile_s) (m : nat) : Prop :=
  length (roots ksi) = MAX_ROOTS
  /\ (nRoots ksi <= MAX_ROOTS)%nat
  /\ (forall i, slot_used ksi i = Nat.testbit m i)
  /\ (forall i, (nRoots ksi <= i)%nat -> slot_used ksi i = false).

(** A run of leaves, each added with status 0. *)
Fixpoint sigblkAddLeaves (k : ksifile_s) (leaves : list (list Z * Z * bool))
    : option ksifile_s :=
  match leaves with
  | [] => Some k
  | (leafData, leafLength, metadata) :: leaves' =>
      match sigblkAddLeaf (Some k) leafData leafLength metadata with
      | Some (0, Some k') => sigblkAddLeaves k' leaves'
      | _ => None
      end
  end.

(** Whether an item is a signing request. *)
Definition is_sign (qi : QueueItem) : bool :=
  QITEM_type_eqb (type qi) QITEM_SIGNATURE_REQUEST.

(** What identifies a signing request from enqueue to write: the address of
    its item, the root hash, the record count and the tree level. *)
Definition sign_key (qi : QueueItem) : nat * QueueArg * Z * Z :=
  (qaddr qi, arg qi, intarg1 qi, intarg2 qi).

(** The signing requests waiting in a queue, front first. *)
Definition pending (q : ProtectedQueue) : list (nat * QueueArg * Z * Z) :=
  map sign_key (List.filter is_sign q).

(** An enqueue that queues its item: [malloc] gave an address and the queue
    took the push. *)
Definition queued (sys : SysIn) : bool :=
  negb (sys_malloc sys =? 0)%nat && sys_push sys.

(** The signing requests a run enqueues, in enqueue order; an enqueue that
    fails queues nothing. *)
Fixpoint enqueued (evs : list Event) : list (nat * QueueArg * Z * Z) :=
  match evs with
  | [] => []
  | EvEnqueue sys QITEM_SIGNATURE_REQUEST a i1 i2 :: evs' =>
      if queued sys then (sys_malloc sys, a, u64 i1, u64 i2) :: enqueued evs'
      else enqueued evs'
  | _ :: evs' => enqueued evs'
  end.

(** [save_response] applied to the items of a list, first to last. *)
Fixpoint write_saved (f : FILE) (items : list QueueItem) : C FILE :=
  match items with
  | [] => ret f
  | item :: items' =>
      let* (_, f') := save_response f item in
      write_saved f' items'
  end.

(** An assignment to the status, the response handle or the KSI status of
    an item leaves its type and its key alone. *)
Definition keeps_key (g : QueueItem -> QueueItem) : Prop :=
  forall qi, type (g qi) = type qi /\ sign_key (g qi) = sign_key qi.

(** A signing request that has its answer. *)
Definition done_sign (qi : QueueItem) : Prop :=
  type qi = QITEM_SIGNATURE_REQUEST /\ status qi = QITEM_DONE.

(** A queue, and an event, without file markers or the quit item. *)
Definition all_sign (q : ProtectedQueue) : Prop :=
  Forall (fun qi => type qi = QITEM_SIGNATURE_REQUEST) q.

Definition sign_event (e : Event) : Prop :=
  match e with
  | EvEnqueue _ ty _ _ _ => ty = QITEM_SIGNATURE_REQUEST
  | EvTurn _ => True
  end.

End Notions.

(** ** A concrete environment and concrete states for the examples

    64 root slots, a two-byte "digest" that sums and counts the bytes it is
    given, a signer that refuses level 0. *)

Definition test_hash (bs : list Z) : option (list Z) :=
  Some [1; u8 (fold_right Z.add 0 bs); u8 (Z.of_nat (length bs))].

Definition test_sign (h : list Z) (l : Z) : Z + list Z :=
  if l =? 0 then inl 0x101 else inr (0x30 :: h).

Definition test_env : KsiEnv :=
  {| MAX_ROOTS := 64;
     RSGTE_IO := 1;
     RSGTE_HASH_CREATE := 16;
     RSGTE_IO_nonzero := ltac:(discriminate);
     RSGTE_HASH_CREATE_nonzero := ltac:(discriminate);
     KSI_getHashLength := fun _ => 2;
     KSI_DataHasher_run := test_hash;
     KSI_sign := test_sign;
     KSI_getErrorString := fun e => [69; u8 e];
     KSI_UNKNOWN_ERROR := 0xffff |}.

(** A context with configured limit [cfg] and effective limit [eff], its
    queue empty. *)
Definition example_ctx (cfg eff : Z) (mode : LOGSIG_SyncMode) : rsksictx_s :=
  mkCtx 1 true false cfg eff 0 256 mode false [].

(** A handle for SHA2-256 (id 1) with a zeroed [lastLeaf] and 64 empty
    slots. *)
Definition example_ksi (limit records : Z) (iv : option (list Z)) : ksifile_s :=
  mkKsi 1 true false limit 0 false iv [1; 0; 0] records 1 0 0
        (replicate 64 None) (mkFILE [] false).

Definition example_sys : SysIn := mkSys 4096 1000 1001 [9; 9] true.

(** A block of at most two records, one record in. *)
Definition example_block : option ksifile_s :=
  let ctx := example_ctx 2 2 LOGSIG_ASYNCHRONOUS in
  match @sigblkAddRecordKSI test_env ctx
          (@sigblkInitKSI test_env ctx (Some (example_ksi 0 0 None)) example_sys)
          [65; 10] 2 example_sys with
  | Some (_, _, k) => k
  | None => None
  end.

Definition example_response (a : nat) (sig : list Z) : KSI_AsyncHandle :=
  mkHandle (inr KSI_ASYNC_STATE_RESPONSE_RECEIVED) (inl 1) (inr (Some a)) 0 (inr sig).

Definition example_error (a : nat) (e : Z) : KSI_AsyncHandle :=
  mkHandle (inr KSI_ASYNC_STATE_ERROR) (inl 1) (inr (Some a)) e (inl 1).

Definition example_env (hs : list KSI_AsyncHandle) : AsyncEnv :=
  mkEnv hs (fun _ => KSI_OK) (fun _ => KSI_OK).

(** The worker with an open signature file that holds the magic
    ["LOG12SIG"]. *)
Definition example_worker : Worker :=
  mkWorker (example_ctx 3 3 LOGSIG_ASYNCHRONOUS) (Some (mkService 256 256))
           (Some (mkFILE [76; 79; 71; 49; 50; 83; 73; 71] false)) [] true.

(** Three blocks are finished and their requests sent; the answers for the
    second and the third request arrive before the answer for the first. *)
Definition example_run : list Event :=
  [ EvEnqueue (mkSys 101 10 10 [] true) QITEM_SIGNATURE_REQUEST (ArgHash [1; 11; 7]) 4 3;
    EvEnqueue (mkSys 102 11 11 [] true) QITEM_SIGNATURE_REQUEST (ArgHash [1; 22; 7]) 4 3;
    EvTurn (example_env []);
    EvEnqueue (mkSys 103 12 12 [] true) QITEM_SIGNATURE_REQUEST (ArgHash [1; 33; 7]) 2 2;
    EvTurn (example_env []);
    EvTurn (example_env [example_response 102 [48; 2]; example_error 103 0x20a]);
    EvTurn (example_env [example_response 101 [48; 1]]) ].

(** An environment as [test_env] whose hasher refuses input of fewer than
    two bytes. *)
Definition test_hash_min (bs : list Z) : option (list Z) :=
  if (length bs <? 2)%nat then None else test_hash bs.

Definition test_env_min : KsiEnv :=
  {| MAX_ROOTS := 64;
     RSGTE_IO := 1;
     RSGTE_HASH_CREATE := 16;
     RSGTE_IO_nonzero := ltac:(discriminate);
     RSGTE_HASH_CREATE_nonzero := ltac:(discriminate);
     KSI_getHashLength := fun _ => 2;
     KSI_DataHasher_run := test_hash_min;
     KSI_sign := test_sign;
     KSI_getErrorString := fun e => [69; u8 e];
     KSI_UNKNOWN_ERROR := 0xffff |}.

(** A block of three records, opened by [sigblkInitKSI]. *)
Definition example_leaves : list (list Z * Z * bool) :=
  [([65; 10], 2, false); ([66; 10], 2, false); ([1; 2; 3], 3, true)].

Definition example_block3 : ksifile_s :=
  default (example_ksi 0 0 None)
    (match @sigblkInitKSI test_env (example_ctx 4 4 LOGSIG_ASYNCHRONOUS)
             (Some (example_ksi 0 0 None)) example_sys with
     | Some k => @sigblkAddLeaves test_env k example_leaves
     | None => None
     end).

(** A host for the examples: imprints of at most three bytes, a toy
    serialization of the metadata element, one digit for [%d]. *)
Definition test_serialize (e : KSI_TlvElement) : option (list Z) :=
  match e with
  | TlvNested _ [TlvInteger _ i; TlvNested _ [TlvUtf8String _ k; TlvUtf8String _ v]] =>
      Some ([0x89; 0x11; u8 i] ++ k ++ v)
  | _ => None
  end.

Definition test_host : HostEnv :=
  {| RSGTE_INTERNAL := 7;
     KSI_MAX_IMPRINT_LEN := 3;
     KSI_TlvElement_serialize := test_serialize;
     printf_d := fun n => [48 + n mod 10] |}.

(** A context with a block time limit of 10 seconds. *)
Definition example_ctx_timed (mode : LOGSIG_SyncMode) : rsksictx_s :=
  mkCtx 1 true false 4 4 10 256 mode false [].

(** A queue of one waiting request, one close marker and one answered
    request; a service that refuses every request. *)
Definition example_item (a : nat) (ty : QITEM_type) (st : QITEM_status) : QueueItem :=
  mkItem a ty st (ArgHash [1; 33; 7]) 2 2 None 0xffff 10.

Definition example_queue : ProtectedQueue :=
  [example_item 201 QITEM_SIGNATURE_REQUEST QITEM_WAITING;
   example_item 202 QITEM_CLOSE_FILE QITEM_WAITING;
   example_item 203 QITEM_SIGNATURE_REQUEST QITEM_DONE].

Definition example_env_refusing : AsyncEnv :=
  mkEnv [] (fun _ => KSI_OK) (fun _ => 0x20a).

(** A handle on which [sigblkInitKSI] has opened a block, and the block
    after two records. *)
Definition example_open : ksifile_s :=
  default (example_ksi 0 0 None)
    (@sigblkInitKSI test_env (example_ctx 4 4 LOGSIG_ASYNCHRONOUS)
       (Some (example_ksi 0 0 None)) example_sys).

Definition example_block2 : ksifile_s :=
  default example_open
    (@sigblkAddLeaves test_env example_open
       [([65; 10], 2, false); ([66; 10], 2, false)]).

(** A host as [test_host] whose serialization of the metadata element
    fails. *)
Definition test_host_unencodable : HostEnv :=
  {| RSGTE_INTERNAL := 7;
     KSI_MAX_IMPRINT_LEN := 3;
     KSI_TlvElement_serialize := fun _ => None;
     printf_d := fun n => [48 + n mod 10] |}.

(** A worker that has no signature file yet, and the life of one file: the
    file is announced, a block is finished and its request sent, the file is
    closed, and the answer arrives in the turn that finds the close marker
    behind the request. *)
Definition example_worker_idle : Worker :=
  mkWorker (example_ctx 3 3 LOGSIG_ASYNCHRONOUS) (Some (mkService 256 256)) None [] true.

Definition example_run_file : list Event :=
  [ EvEnqueue (mkSys 100 9 9 [] true) QITEM_NEW_FILE
      (ArgFile (mkFILE [76; 79; 71; 49; 50; 83; 73; 71] false)) 0 0;
    EvTurn (example_env []);
    EvEnqueue (mkSys 101 10 10 [] true) QITEM_SIGNATURE_REQUEST (ArgHash [1; 11; 7]) 4 3;
    EvTurn (example_env []);
    EvEnqueue (mkSys 105 11 11 [] true) QITEM_CLOSE_FILE ArgNULL 0 0;
    EvTurn (example_env [example_response 101 [48; 1]]) ].

(** ** Notions for the life cycle of a block *)

(** The settings of a handle, which adding a leaf and closing a block leave
    alone. *)
Definition block_settings (k : ksifile_s) : Z * bool * bool * Z * bool :=
  (hashAlg k, bKeepRecordHashes k, bKeepTreeHashes k, blockTimeLimit k, disabled k).

(** ** Notions for the requests of the worker *)

(** A signing request that has not been handed to the service. *)
Definition waiting_sign (qi : QueueItem) : bool :=
  is_sign qi && QITEM_status_eqb (status qi) QITEM_WAITING.

(** The mark the worker puts on a request the service has taken. *)
Definition mark_sent (qi : QueueItem) : QueueItem :=
  if waiting_sign qi then set_status QITEM_SENT qi else qi.

(** The root hash a queue item carries, NULL when it carries none. *)
Definition item_hash (qi : QueueItem) : option KSI_DataHash :=
  match arg qi with
  | ArgHash h => Some h
  | _ => None
  end.

(** The life of a request: waiting, sent, done. *)
Definition status_rank (s : QITEM_status) : nat :=
  match s with
  | QITEM_WAITING => 0
  | QITEM_SENT => 1
  | QITEM_DONE => 2
  end.

(** The same queue item at a later time: its type and what identifies it
    are the same, its status is the same or further on. *)
Definition item_advances (qi qi' : QueueItem) : Prop :=
  type qi' = type qi /\ sign_key qi' = sign_key qi
  /\ (status_rank (status qi) <= status_rank (status qi'))%nat.

(** ** Notions for the endpoint list *)

(** Strings joined with ['|'] between them. *)
Fixpoint join_bar (tokens : list (list Z)) : list Z :=
  match tokens with
  | [] => []
  | [t] => t
  | t :: tokens' => t ++ 124 :: join_bar tokens'
  end.

(** The tokens of a string cut at every ['|']. *)
Fixpoint split_bar (s : list Z) : list (list Z) :=
  match s with
  | [] => [[]]
  | c :: s' =>
      if c =? 124 then [] :: split_bar s'
      else match split_bar s' with
           | t :: ts => (c :: t) :: ts
           | [] => [[c]]
           end
  end.

(** An aggregator context that accepts every setting, with room for three
    endpoints. *)
Definition test_aggr : AggrEnv :=
  {| KSI_CTX_HA_MAX_SUBSERVICES := 3;
     KSI_INVALID_ARGUMENT := 0x100;
     KSI_CTX_setAggregator := fun _ _ _ => KSI_OK |}.

(** ** Notions for the finish of a block *)

Section FinishNotions.
Context `{KsiEnv}.

(** The [void *arg] of the request for a root hash. *)
Definition root_arg (root : option KSI_DataHash) : QueueArg :=
  match root with
  | Some h => ArgHash h
  | None => ArgNULL
  end.

(** The queue item of a signing request for [n] records with tree level
    [l], as new. *)
Definition sign_request (sys : SysIn) (root : option KSI_DataHash) (n l : Z)
    : QueueItem :=
  mkItem (sys_malloc sys) QITEM_SIGNATURE_REQUEST QITEM_WAITING (root_arg root)
         n l None KSI_UNKNOWN_ERROR (sys_time_enqueue sys).

(** The context after the attempt to queue [item]: the item is the new last
    one of the queue, or, [malloc] or the push failing, the queue is as it
    was and the context is disabled. *)
Definition enqueue_outcome (ctx : rsksictx_s) (sys : SysIn) (item : QueueItem)
    : rsksictx_s :=
  if queued sys then set_signer_queue (signer_queue ctx ++ [item]) ctx
  else set_ctx_disabled true ctx.

(** The block file [f] after a block of [n] records with root [root] has
    been signed in place with tree level [level]: the signature record when
    the signer answers, the record of the failure with the signer's error
    text when it does not. *)
Definition signed_in_place (f : FILE) (n : Z) (root : option KSI_DataHash)
    (level : Z) (f' : FILE) : Prop :=
  match KSI_sign (default [] root) level with
  | inr der =>
      exists r, tlvWriteKSISigLS12 f n der (Z.of_nat (length der)) = Some (r, f')
  | inl e =>
      exists r, tlvWriteNoSigLS12 f n root (Some (KSI_getErrorString e)) = Some (r, f')
  end.

End FinishNotions.

(** ** Notions for the signature file *)

(** The number of bytes that hold [v], none for 0, at most [fuel]. *)
Fixpoint byte_length (fuel : nat) (v : Z) : nat :=
  match fuel with
  | O => O
  | S fuel' => if v =? 0 then O else S (byte_length fuel' (v / 256))
  end.

(** The [n] low bytes of [v], most significant byte first. *)
Fixpoint be_bytes (n : nat) (v : Z) : list Z :=
  match n with
  | O => []
  | S n' => be_bytes n' (v / 256) ++ [v mod 256]
  end.

(** A TLV with the header of two bytes, and one with the header of four. *)
Definition tlv8 (tag : Z) (value : list Z) : list Z :=
  [tag; Z.of_nat (length value)] ++ value.

Definition tlv16 (tag : Z) (value : list Z) : list Z :=
  let len := Z.of_nat (length value) in
  [0x80 + tag / 256; tag mod 256; len / 256; len mod 256] ++ value.

(** The record count of a block, TLV 0x01. *)
Definition count_tlv (n : Z) : list Z := tlv8 0x01 (be_bytes (byte_length 8 n) n).

(** The signature record of a block of [n] records: TLV 0x0904 with the
    count and the signature, TLV 0x0905. *)
Definition sig_record (n : Z) (der : list Z) : list Z :=
  tlv16 0x0904 (count_tlv n ++ tlv16 0x0905 der).

(** The record of a block left without signature: TLV 0x0904 with the
    count and TLV 0x02, which nests the root imprint (0x01) and the error
    text with its NUL (0x02). *)
Definition nosig_record (n : Z) (imprint text : list Z) : list Z :=
  tlv16 0x0904
    (count_tlv n ++ tlv8 0x02 (tlv8 0x01 imprint ++ tlv8 0x02 (text ++ [0]))).

Section FileNotions.
Context `{KsiEnv}.

(** The answer a request has when it is written: the serialized signature,
    or the KSI status that stands for its failure. *)
Definition item_answer (item : QueueItem) : Z + list Z :=
  match respHandle item with
  | Some h =>
      if ksi_status item =? KSI_OK then KSI_AsyncHandle_getSignature h
      else inl (ksi_status item)
  | None => inl (ksi_status item)
  end.

(** The record of a request in the signature file. *)
Definition response_record (item : QueueItem) : list Z :=
  match item_answer item with
  | inr raw => sig_record (intarg1 item) raw
  | inl e =>
      nosig_record (intarg1 item) (default [] (item_hash item)) (KSI_getErrorString e)
  end.

(** The sizes within which the record of a request is well formed: a
    record count that is not 0, a signature of 1 to 65000 bytes, or a root
    imprint that is not empty and, with the error text, stays within the one
    length byte of TLV 0x02. *)
Definition record_fits (item : QueueItem) : bool :=
  (0 <? intarg1 item) && (intarg1 item <? 18446744073709551616)
  && match item_answer item with
     | inr raw => (0 <? length raw)%nat && (Z.of_nat (length raw) <=? 65000)
     | inl e =>
         (0 <? length (default [] (item_hash item)))%nat
         && (Z.of_nat (length (default [] (item_hash item)))
             + Z.of_nat (length (KSI_getErrorString e)) + 5 <=? 255)
     end.

(** A file after the record of a request has been written to it; a stream
    with its error indicator set takes nothing. *)
Definition with_record (f : FILE) (item : QueueItem) : FILE :=
  if ferror f then f else mkFILE (fbytes f ++ response_record item) false.

(** What identifies a queue item of any type. *)
Definition item_key (qi : QueueItem) : QITEM_type * (nat * QueueArg * Z * Z) :=
  (type qi, sign_key qi).

(** The items a run enqueues, of every type, in enqueue order; an enqueue
    that fails queues nothing. *)
Fixpoint enqueued_all (evs : list Event) : list (QITEM_type * (nat * QueueArg * Z * Z)) :=
  match evs with
  | [] => []
  | EvEnqueue sys ty a i1 i2 :: evs' =>
      if queued sys then (ty, (sys_malloc sys, a, u64 i1, u64 i2)) :: enqueued_all evs'
      else enqueued_all evs'
  | EvTurn _ :: evs' => enqueued_all evs'
  end.

(** The signature file in use and the files closed, after the items of a
    list have been taken off the queue one by one: a signing request leaves
    its record in the file in use, a new-file marker puts its file in use, a
    close marker closes the file in use, a quit marker counts it as closed. *)
Fixpoint replay (f : option FILE) (closed : list FILE) (items : list QueueItem)
    : option FILE * list FILE :=
  match items with
  | [] => (f, closed)
  | item :: items' =>
      match type item with
      | QITEM_SIGNATURE_REQUEST =>
          replay (match f with Some f0 => Some (with_record f0 item) | None => None end)
                 closed items'
      | QITEM_NEW_FILE =>
          replay (match arg item with ArgFile f' => Some f' | _ => None end)
                 closed items'
      | QITEM_CLOSE_FILE =>
          replay None (closed ++ match f with Some f0 => [f0] | None => [] end) items'
      | QITEM_QUIT =>
          replay f (closed ++ match f with Some f0 => [f0] | None => [] end) items'
      end
  end.

End FileNotions.

(** ** Proof steps *)

(** Case analysis on the first computation of a [let*] that returned. *)
Ltac bind_inv H :=
  match type of H with
  | bind ?m _ = Some _ =>
      let E := fresh "E" in
      destruct m as [?|] eqn:E; [cbn [bind] in H | discriminate H]
  end.

(** * Properties *)

(** ** TLV codec *)

Section CodecFacts.
Context `{KsiEnv}.

Lemma land_mask_small (x : Z) : 0 <= x <= 31 -> Z.land x RSGT_TYPE_MASK = x.
Proof.
  intros Hx. change RSGT_TYPE_MASK with (Z.ones 5).
  rewrite Z.land_ones by lia. apply Z.mod_small. change (2 ^ 5) with 32. lia.
Qed.

Lemma land_255 (x : Z) : Z.land x 0xff = x mod 256.
Proof. change 0xff with (Z.ones 8). rewrite Z.land_ones by lia. reflexivity. Qed.

Lemma tlvGetHeaderSize_short (tag : Z) :
  0 <= tag <= 31 -> tlvGetHeaderSize tag 0 = 2.
Proof.
  intros Ht. unfold tlvGetHeaderSize, u16, u64, RSGT_TYPE_MASK.
  rewrite (Z.mod_small tag) by lia.
  replace (tag <=? 31) with true by (symmetry; apply Z.leb_le; lia).
  reflexivity.
Qed.

Lemma tlvGetHeaderSize_long_value (tag len : Z) :
  0 <= tag <= 31 -> 255 < len <= 65535 -> tlvGetHeaderSize tag len = 4.
Proof.
  intros Ht Hl. unfold tlvGetHeaderSize, u16, u64, RSGT_TYPE_MASK.
  rewrite (Z.mod_small tag), (Z.mod_small len) by lia.
  replace (len <=? 255) with false by (symmetry; apply Z.leb_gt; lia).
  replace (len <=? 65535) with true by (symmetry; apply Z.leb_le; lia).
  rewrite andb_false_r, andb_true_r.
  assert (Hs : Z.shiftr tag 8 = 0).
  { rewrite Z.shiftr_div_pow2 by lia. apply Z.div_small. change (2 ^ 8) with 256. lia. }
  rewrite Hs. reflexivity.
Qed.

Lemma tlvWriteHeader_short_tag (bs : list Z) (tag len : Z) :
  0 <= tag <= 31 -> 0 <= len <= 65535 ->
  tlvWriteHeader (mkFILE bs false) 0 tag len
  = Some (0, mkFILE (bs ++ [tag; len mod 256]) false).
Proof.
  intros Ht Hl. unfold tlvWriteHeader.
  assert (Htag : u16 tag = tag) by (unfold u16; apply Z.mod_small; lia).
  assert (Hlen : u16 len = len) by (unfold u16; apply Z.mod_small; lia).
  rewrite Htag, Hlen, tlvGetHeaderSize_short by lia. simpl.
  unfold tlvWriteHeader8.
  assert (Htag8 : u8 tag = tag) by (unfold u8; apply Z.mod_small; lia).
  rewrite Htag8, !land_mask_small by lia.
  rewrite !Z.eqb_refl. simpl.
  change (Z.land 0 (Z.lnot RSGT_FLAG_TLV16)) with 0.
  rewrite Z.lor_0_l, Htag8, land_255. reflexivity.
Qed.

(** C5 (as the code has it). [tlvGetHeaderSize] asks for the 4-byte form
    when a 5-bit tag comes with a length above 255, but [tlvWriteHeader]
    hands it [flags] in place of the length: with [flags = 0] such a TLV gets
    the 2-byte header, its length cut to the low byte. *)
Theorem tlvWriteHeader_short_tag_ignores_length (bs : list Z) (tag len : Z) :
  0 <= tag <= 31 -> 255 < len <= 65535 ->
  tlvGetHeaderSize tag len = 4
  /\ tlvWriteHeader (mkFILE bs false) 0 tag len
     = Some (0, mkFILE (bs ++ [tag; len mod 256]) false).
Proof.
  intros Ht Hl. split.
  - apply tlvGetHeaderSize_long_value; assumption.
  - apply tlvWriteHeader_short_tag; lia.
Qed.

Lemma be_value_snoc (bs : list Z) (b : Z) :
  be_value (bs ++ [b]) = be_value bs * 256 + b.
Proof. unfold be_value. rewrite fold_left_app. reflexivity. Qed.

(** The counting loop returns the least number of bytes that hold [val]. *)
Lemma tlvGetIntSize_loop_spec (fuel : nat) :
  forall val n,
    0 <= val < 256 ^ Z.of_nat fuel -> 0 <= n -> n + Z.of_nat fuel < 256 ->
    exists c : nat,
      tlvGetIntSize_loop fuel val n = n + Z.of_nat c
      /\ (c <= fuel)%nat
      /\ val < 256 ^ Z.of_nat c
      /\ (c <> 0%nat -> 256 ^ (Z.of_nat c - 1) <= val).
Proof.
  induction fuel as [|fuel IH]; intros val n Hv Hn Hb.
  - exists 0%nat. change (256 ^ Z.of_nat 0) with 1 in *. cbn. repeat split; try lia.
  - cbn [tlvGetIntSize_loop]. destruct (Z.eqb_spec val 0) as [->|Hnz].
    + exists 0%nat. change (256 ^ Z.of_nat 0) with 1. repeat split; try lia.
    + rewrite Nat2Z.inj_succ, Z.pow_succ_r in Hv by lia.
      assert (Hs : Z.shiftr val 8 = val / 256).
      { rewrite Z.shiftr_div_pow2 by lia. reflexivity. }
      assert (Hu : u8 (n + 1) = n + 1) by (unfold u8; apply Z.mod_small; lia).
      rewrite Hs, Hu.
      destruct (IH (val / 256) (n + 1)) as (c & Hr & Hc & Hup & Hlo).
      * split; [apply Z.div_pos; lia | apply Z.div_lt_upper_bound; lia].
      * lia.
      * lia.
      * exists (S c). rewrite Hr, Nat2Z.inj_succ, Z.pow_succ_r by lia.
        replace (Z.succ (Z.of_nat c) - 1) with (Z.of_nat c) by lia.
        pose proof (Z.div_mod val 256 ltac:(lia)) as Hdm.
        pose proof (Z.mod_pos_bound val 256 ltac:(lia)) as Hmb.
        repeat split; try lia.
        intros _. destruct c as [|c].
        -- change (256 ^ Z.of_nat 0) with 1. lia.
        -- specialize (Hlo ltac:(lia)).
           replace (Z.of_nat (S c)) with (Z.succ (Z.of_nat (S c) - 1)) by lia.
           rewrite Z.pow_succ_r by lia. lia.
Qed.

(** The fill loop writes the low [count] bytes of [nTmp], most significant
    first, in front of what the buffer holds. *)
Lemma tlvInt64_fill_spec (count : nat) :
  forall nTmp buf,
    0 <= nTmp ->
    exists pre,
      tlvInt64_fill count nTmp buf = pre ++ buf
      /\ length pre = count
      /\ be_value pre = nTmp mod 256 ^ Z.of_nat count.
Proof.
  induction count as [|count IH]; intros nTmp buf Hn.
  - exists []. change (256 ^ Z.of_nat 0) with 1. rewrite Z.mod_1_r. repeat split.
  - cbn [tlvInt64_fill].
    assert (Hs : Z.shiftr nTmp 8 = nTmp / 256).
    { rewrite Z.shiftr_div_pow2 by lia. reflexivity. }
    assert (Hl : Z.land 255 nTmp = nTmp mod 256).
    { rewrite Z.land_comm. apply land_255. }
    rewrite Hs, Hl.
    destruct (IH (nTmp / 256) (nTmp mod 256 :: buf)) as (pre & Hf & Hlen & Hval).
    { apply Z.div_pos; lia. }
    exists (pre ++ [nTmp mod 256]). rewrite Hf, <- app_assoc. split; [reflexivity|].
    split.
    + rewrite length_app, Hlen. cbn. lia.
    + rewrite be_value_snoc, Hval, Nat2Z.inj_succ, Z.pow_succ_r by lia.
      rewrite (Z.rem_mul_r nTmp 256 (256 ^ Z.of_nat count)); [lia | lia |].
      apply Z.pow_pos_nonneg; lia.
Qed.

(** A non-zero integer: the call succeeds, the length byte is the least
    number of bytes that hold the value, and the payload is the value most
    significant byte first. *)
Lemma tlvWriteInt64TLV_big_endian (bs : list Z) (tlvtype val : Z) :
  0 <= tlvtype <= 31 -> 0 < val < 18446744073709551616 ->
  exists (n : nat) (payload : list Z),
    tlvGetIntSize val = Z.of_nat n
    /\ tlvWriteInt64TLV (mkFILE bs false) 0 tlvtype val
       = Some (0, mkFILE (bs ++ [tlvtype; Z.of_nat n] ++ payload) false)
    /\ length payload = n
    /\ be_value payload = val
    /\ 256 ^ (Z.of_nat n - 1) <= val < 256 ^ Z.of_nat n.
Proof.
  intros Ht Hv.
  assert (Hu : u64 val = val) by (unfold u64; apply Z.mod_small; lia).
  destruct (tlvGetIntSize_loop_spec 8 val 0) as (n & Hn & Hle & Hup & Hlo).
  { change (256 ^ Z.of_nat 8) with 18446744073709551616. lia. }
  { lia. }
  { simpl. lia. }
  rewrite Z.add_0_l in Hn.
  assert (Hn0 : n <> 0%nat).
  { intros ->. change (256 ^ Z.of_nat 0) with 1 in Hup. lia. }
  specialize (Hlo Hn0).
  assert (Hsz : tlvGetIntSize val = Z.of_nat n).
  { unfold tlvGetIntSize. rewrite Hu. exact Hn. }
  destruct (tlvInt64_fill_spec n val []) as (pre & Hf & Hlen & Hval); [lia|].
  rewrite app_nil_r in Hf.
  exists n, pre. split; [exact Hsz|]. split; [|split; [exact Hlen|split; [|lia]]].
  - unfold tlvWriteInt64TLV. rewrite Hu, Hsz.
    rewrite tlvWriteHeader_short_tag by lia. cbn [bind].
    rewrite (Z.mod_small (Z.of_nat n) 256) by lia.
    change (negb (0 =? 0)) with false. cbv iota.
    rewrite Nat2Z.id, Hf. unfold fwrite. cbn [ferror fbytes].
    replace (Z.of_nat n =? 0) with false by (symmetry; apply Z.eqb_neq; lia).
    cbn [orb]. rewrite Nat2Z.id, <- Hlen, firstn_all.
    cbn. rewrite <- app_assoc. reflexivity.
  - rewrite Hval. apply Z.mod_small. lia.
Qed.

End CodecFacts.

Lemma tlvWriteHeader_short_tag_ignores_length_witness :
  tlvGetHeaderSize 0x02 300 = 4
  /\ @tlvWriteHeader test_env (mkFILE [] false) 0 0x02 300
     = Some (0, mkFILE [0x02; 44] false).
Proof.
  apply (@tlvWriteHeader_short_tag_ignores_length test_env [] 0x02 300); lia.
Defined.

(** ** Aggregator configuration *)

Lemma MIN_le_r (a b : Z) : MIN a b <= b.
Proof. unfold MIN. destruct (Z.ltb_spec a b); lia. Qed.

Lemma handle_ksi_config_blockLevelLimit ctx as_ config :
  blockLevelLimit (fst (handle_ksi_config ctx as_ config)) = blockLevelLimit ctx.
Proof.
  unfold handle_ksi_config.
  destruct (KSI_Config_getMaxRequests config), (KSI_Config_getMaxLevel config); simpl;
    repeat match goal with |- context [if ?c then _ else _] => destruct c end;
    reflexivity.
Qed.

Lemma handle_ksi_config_disabled_kept ctx as_ config :
  ctx_disabled ctx = true ->
  ctx_disabled (fst (handle_ksi_config ctx as_ config)) = true.
Proof.
  intros Hd. unfold handle_ksi_config.
  destruct (KSI_Config_getMaxRequests config), (KSI_Config_getMaxLevel config); simpl;
    repeat match goal with |- context [if ?c then _ else _] => destruct c end;
    simpl; auto.
Qed.

Lemma handle_ksi_config_level ctx as_ config :
  effectiveBlockLevelLimit (fst (handle_ksi_config ctx as_ config))
  = match KSI_Config_getMaxLevel config with
    | Some m => MIN (u64 m) (blockLevelLimit ctx)
    | None => effectiveBlockLevelLimit ctx
    end.
Proof.
  unfold handle_ksi_config.
  destruct (KSI_Config_getMaxRequests config), (KSI_Config_getMaxLevel config); simpl;
    try reflexivity;
    match goal with
    | |- context [negb (?a =? ?b)] => destruct (Z.eqb_spec a b) as [He|He]
    end; simpl; try reflexivity;
    match goal with |- context [if ?c then _ else _] => destruct c end;
    simpl; assumption.
Qed.

Lemma handle_ksi_config_disables ctx as_ config m :
  KSI_Config_getMaxLevel config = Some m ->
  u64 m < 2 ->
  effectiveBlockLevelLimit ctx = MIN (u64 m) (blockLevelLimit ctx) ->
  ctx_disabled (fst (handle_ksi_config ctx as_ config)) = true.
Proof.
  intros Hm Hlt Heq. unfold handle_ksi_config. rewrite Hm.
  destruct (KSI_Config_getMaxRequests config); simpl;
    rewrite Heq, Z.eqb_refl; simpl;
    (replace (u64 m <? 2) with true by (symmetry; apply Z.ltb_lt; lia));
    reflexivity.
Qed.

(** C7 (counterexample). With a configured limit of 10 and an effective
    limit of 5, a push reporting maxLevel 8 raises the effective limit to 8;
    and a push reporting maxLevel 1 moves the limit to 1 without setting the
    disabled flag. *)
Lemma handle_ksi_config_limit_can_rise :
  let ctx := example_ctx 10 5 LOGSIG_ASYNCHRONOUS in
  effectiveBlockLevelLimit ctx = 5
  /\ effectiveBlockLevelLimit
       (fst (handle_ksi_config ctx None (mkConfig None (Some 8)))) = 8
  /\ ctx_disabled (fst (handle_ksi_config ctx None (mkConfig None (Some 1)))) = false.
Proof. repeat split. Qed.

(** C7 (amended). Over any sequence of config pushes the configured limit
    is untouched, the effective limit stays at or below it, and a disabled
    context stays disabled; a single push that reports maxLevel [m] leaves the
    effective limit at [min(m, L_cfg)], and it sets the disabled flag when
    [m < 2] and the effective limit already has that value. *)
Theorem handle_ksi_config_effective_limit (ctx : rsksictx_s)
    (as_ : option KSI_AsyncService) (configs : list KSI_Config)
    (config : KSI_Config) (m : Z) :
  effectiveBlockLevelLimit ctx <= blockLevelLimit ctx ->
  KSI_Config_getMaxLevel config = Some m ->
  let ctx_n := fst (handle_ksi_configs ctx as_ configs) in
  let ctx_1 := fst (handle_ksi_config ctx as_ config) in
  blockLevelLimit ctx_n = blockLevelLimit ctx
  /\ effectiveBlockLevelLimit ctx_n <= blockLevelLimit ctx
  /\ (ctx_disabled ctx = true -> ctx_disabled ctx_n = true)
  /\ effectiveBlockLevelLimit ctx_1 = MIN (u64 m) (blockLevelLimit ctx)
  /\ (u64 m < 2 ->
      effectiveBlockLevelLimit ctx = MIN (u64 m) (blockLevelLimit ctx) ->
      ctx_disabled ctx_1 = true).
Proof.
  intros Hle Hm ctx_n ctx_1.
  assert (Hseq : blockLevelLimit ctx_n = blockLevelLimit ctx
                 /\ effectiveBlockLevelLimit ctx_n <= blockLevelLimit ctx
                 /\ (ctx_disabled ctx = true -> ctx_disabled ctx_n = true)).
  { subst ctx_n. clear Hm ctx_1. revert ctx as_ Hle.
    induction configs as [|c cs IH]; intros ctx as_ Hle; simpl.
    - auto with zarith.
    - destruct (handle_ksi_config ctx as_ c) as [ctx' as_'] eqn:Hc.
      assert (Hb : blockLevelLimit ctx' = blockLevelLimit ctx).
      { change ctx' with (fst (ctx', as_')). rewrite <- Hc.
        apply handle_ksi_config_blockLevelLimit. }
      assert (Hl : effectiveBlockLevelLimit ctx' <= blockLevelLimit ctx').
      { rewrite Hb. change ctx' with (fst (ctx', as_')). rewrite <- Hc.
        rewrite handle_ksi_config_level.
        destruct (KSI_Config_getMaxLevel c); [apply MIN_le_r | assumption]. }
      destruct (IH ctx' as_' Hl) as (IH1 & IH2 & IH3).
      rewrite <- Hb. repeat split; try assumption.
      intros Hd. apply IH3. change ctx' with (fst (ctx', as_')). rewrite <- Hc.
      apply handle_ksi_config_disabled_kept. assumption. }
  destruct Hseq as (H1 & H2 & H3). repeat split; try assumption.
  - subst ctx_1. rewrite handle_ksi_config_level, Hm. reflexivity.
  - intros Hlt Heq. subst ctx_1. eapply handle_ksi_config_disables; eassumption.
Qed.

Lemma handle_ksi_config_effective_limit_witness :
  let ctx := example_ctx 10 1 LOGSIG_ASYNCHRONOUS in
  let configs := [mkConfig (Some 4) (Some 8); mkConfig None (Some 3)] in
  let config := mkConfig None (Some 1) in
  let ctx_n := fst (handle_ksi_configs ctx None configs) in
  let ctx_1 := fst (handle_ksi_config ctx None config) in
  blockLevelLimit ctx_n = 10
  /\ effectiveBlockLevelLimit ctx_n <= 10
  /\ (ctx_disabled ctx = true -> ctx_disabled ctx_n = true)
  /\ effectiveBlockLevelLimit ctx_1 = MIN (u64 1) 10
  /\ (u64 1 < 2 -> 1 = MIN (u64 1) 10 -> ctx_disabled ctx_1 = true).
Proof.
  apply (handle_ksi_config_effective_limit (example_ctx 10 1 LOGSIG_ASYNCHRONOUS) None
           [mkConfig (Some 4) (Some 8); mkConfig None (Some 3)]
           (mkConfig None (Some 1)) 1).
  - simpl. lia.
  - reflexivity.
Defined.

(** ** Block controller *)

Section BlockFacts.
Context `{KsiEnv}.

Lemma set_blockFile_id (k : ksifile_s) : set_blockFile (blockFile k) k = k.
Proof. destruct k; reflexivity. Qed.

Lemma tlvWriteHashKSI_frame ksi tlvtype h r k' :
  tlvWriteHashKSI ksi tlvtype h = Some (r, k') ->
  exists f, k' = set_blockFile f ksi.
Proof.
  unfold tlvWriteHashKSI. intros Hw. bind_inv Hw.
  destruct p as [r0 f]. inversion Hw. eauto.
Qed.

Lemma write_hash_if_frame c ksi tlvtype h k' :
  write_hash_if c ksi tlvtype h = Some k' ->
  exists f, k' = set_blockFile f ksi.
Proof.
  unfold write_hash_if. destruct c; intros Hw.
  - bind_inv Hw. destruct p as [r k1]. inversion Hw; subst.
    eapply tlvWriteHashKSI_frame; eassumption.
  - inversion Hw; subst. exists (blockFile k'). symmetry. apply set_blockFile_id.
Qed.

Lemma tlvWriteBlockHdrKSI_frame ksi r k' :
  tlvWriteBlockHdrKSI ksi = Some (r, k') ->
  exists f, k' = set_blockFile f ksi.
Proof.
  unfold tlvWriteBlockHdrKSI. intros Hw. bind_inv Hw.
  destruct p as [r0 f]. inversion Hw. eauto.
Qed.

(** C8 (amended). [sigblkFinishKSI] on an empty block returns 0, leaves the
    context with its queue as it was and writes nothing; of the handle it
    changes two fields: [IV] is released and set to NULL, [bInBlk] is
    cleared. *)
Theorem sigblkFinishKSI_empty_block (ctx : rsksictx_s) (ksi : ksifile_s) (sys : SysIn) :
  nRecords ksi = 0 ->
  sigblkFinishKSI ctx ksi sys = Some (0, ctx, set_bInBlk 0 (set_IV None ksi))
  /\ blockFile (set_bInBlk 0 (set_IV None ksi)) = blockFile ksi
  /\ roots (set_bInBlk 0 (set_IV None ksi)) = roots ksi
  /\ lastLeaf (set_bInBlk 0 (set_IV None ksi)) = lastLeaf ksi.
Proof.
  intros Hn. unfold sigblkFinishKSI. rewrite Hn. repeat split.
Qed.

(** C10. With a NULL handle or a disabled one, [sigblkAddRecordKSI] returns
    0 and hands back the context and the handle as they were. *)
Theorem sigblkAddRecordKSI_null_or_disabled (ctx : rsksictx_s)
    (ksi : option ksifile_s) (rec : list Z) (len : Z) (sys : SysIn) :
  ksi = None \/ (exists k, ksi = Some k /\ disabled k = true) ->
  sigblkAddRecordKSI ctx ksi rec len sys = Some (0, ctx, ksi).
Proof.
  intros [Hnull | (k & Hk & Hd)]; subst ksi; simpl.
  - reflexivity.
  - rewrite Hd. reflexivity.
Qed.

End BlockFacts.

(** C8 (counterexample). An empty block in progress, with its IV seeded and
    [bInBlk = 1]: after [sigblkFinishKSI] the IV is NULL and [bInBlk] is 0. *)
Lemma sigblkFinishKSI_empty_block_changes_state :
  let ctx := example_ctx 3 3 LOGSIG_ASYNCHRONOUS in
  let ksi := example_ksi 4 0 (Some [7; 7]) in
  nRecords ksi = 0 /\ IV ksi = Some [7; 7] /\ bInBlk ksi = 1
  /\ exists ksi',
       @sigblkFinishKSI test_env ctx ksi example_sys = Some (0, ctx, ksi')
       /\ IV ksi' = None /\ bInBlk ksi' = 0.
Proof.
  repeat split. eexists. repeat split.
Qed.

Lemma sigblkFinishKSI_empty_block_witness :
  let ctx := example_ctx 3 3 LOGSIG_ASYNCHRONOUS in
  let ksi := example_ksi 4 0 (Some [7; 7]) in
  @sigblkFinishKSI test_env ctx ksi example_sys
  = Some (0, ctx, set_bInBlk 0 (set_IV None ksi))
  /\ blockFile (set_bInBlk 0 (set_IV None ksi)) = blockFile ksi
  /\ roots (set_bInBlk 0 (set_IV None ksi)) = roots ksi
  /\ lastLeaf (set_bInBlk 0 (set_IV None ksi)) = lastLeaf ksi.
Proof.
  apply (@sigblkFinishKSI_empty_block test_env). reflexivity.
Defined.

Lemma sigblkAddRecordKSI_null_or_disabled_witness :
  let ctx := example_ctx 3 3 LOGSIG_ASYNCHRONOUS in
  let ksi := mkKsi 1 true false 4 0 true (Some [7; 7]) [1; 0; 0] 2 1 0 0
                   (replicate 64 None) (mkFILE [] false) in
  @sigblkAddRecordKSI test_env ctx (Some ksi) [65; 10] 2 example_sys
  = Some (0, ctx, Some ksi).
Proof.
  apply (@sigblkAddRecordKSI_null_or_disabled test_env).
  right. eexists. split; reflexivity.
Defined.

(** ** Tree level of a block *)

Lemma u32_small (x : Z) : 0 <= x < 4294967296 -> u32 x = x.
Proof. intros Hx. unfold u32. apply Z.mod_small. assumption. Qed.

Lemma s32_small (x : Z) : 0 <= x < 2147483648 -> s32 x = x.
Proof.
  intros Hx. unfold s32. rewrite u32_small by lia.
  destruct (Z.ltb_spec x 2147483648); lia.
Qed.

Lemma s32_high (x : Z) : 2147483648 <= x < 4294967296 -> s32 x = x - 4294967296.
Proof.
  intros Hx. unfold s32. rewrite u32_small by lia.
  destruct (Z.ltb_spec x 2147483648); lia.
Qed.

(** The halving loop counts the binary logarithm when its fuel covers the
    bits of [c]. *)
Lemma sigblkCalcLevel_loop_log2 (fuel : nat) :
  forall c level,
    0 <= c < 2 ^ Z.of_nat fuel -> 0 <= level -> level + Z.of_nat fuel < 4294967296 ->
    sigblkCalcLevel_loop fuel c level = level + Z.log2 c.
Proof.
  induction fuel as [|fuel IH]; intros c level Hc Hl Hb.
  - change (2 ^ Z.of_nat 0) with 1 in Hc. assert (c = 0) by lia. subst c.
    simpl. lia.
  - cbn [sigblkCalcLevel_loop]. destruct (Z.ltb_spec 1 c) as [Hgt|Hle].
    + rewrite Nat2Z.inj_succ, Z.pow_succ_r in Hc by lia.
      rewrite IH.
      * rewrite u32_small by lia. rewrite Z.log2_shiftr by lia.
        assert (1 <= Z.log2 c) by (apply Z.log2_le_pow2; simpl; lia).
        lia.
      * rewrite Z.shiftr_div_pow2 by lia. change (2 ^ 1) with 2.
        split; [apply Z.div_pos; lia | apply Z.div_lt_upper_bound; lia].
      * rewrite u32_small by lia. lia.
      * rewrite u32_small by lia. lia.
    + assert (Hc01 : c = 0 \/ c = 1) by lia.
      destruct Hc01; subst c; simpl; lia.
Qed.

Lemma sigblkCalcLevel_compare (leaves : Z) :
  1 <= leaves < 4294967296 ->
  (s32 (Z.shiftl 1 (Z.log2 leaves)) <? s32 leaves) = (2 ^ Z.log2 leaves <? leaves).
Proof.
  intros Hl. rewrite Z.shiftl_1_l.
  destruct (Z.log2_spec leaves ltac:(lia)) as [Hlo Hhi].
  destruct (Z.lt_ge_cases leaves 2147483648) as [Hsmall|Hbig].
  - rewrite (s32_small leaves) by lia.
    rewrite s32_small; [reflexivity|].
    split; [apply Z.pow_nonneg; lia | lia].
  - assert (Hlog : Z.log2 leaves = 31).
    { apply Z.log2_unique; [lia|]. change (2 ^ 31) with 2147483648.
      change (2 ^ Z.succ 31) with 4294967296. lia. }
    rewrite Hlog. change (2 ^ 31) with 2147483648.
    rewrite (s32_high leaves) by lia.
    change (s32 2147483648) with (-2147483648).
    destruct (Z.ltb_spec (-2147483648) (leaves - 4294967296));
      destruct (Z.ltb_spec 2147483648 leaves); lia.
Qed.

(** The level of [2 * N] leaves is the least exponent whose power of two
    covers them. *)
Lemma sigblkCalcLevel_least (N : Z) :
  1 <= N -> 2 * N < 4294967296 ->
  let l := sigblkCalcLevel (2 * N) in
  0 <= l
  /\ 2 * N <= 2 ^ l
  /\ (forall l', 0 <= l' -> 2 * N <= 2 ^ l' -> l <= l').
Proof.
  intros HN Hfit l. subst l. unfold sigblkCalcLevel.
  rewrite (u32_small (2 * N)) by lia.
  rewrite sigblkCalcLevel_loop_log2;
    [| change (2 ^ Z.of_nat 32) with 4294967296; lia | lia | simpl; lia].
  rewrite Z.add_0_l, sigblkCalcLevel_compare by lia.
  destruct (Z.log2_spec (2 * N) ltac:(lia)) as [Hlo Hhi].
  assert (Hnn : 0 <= Z.log2 (2 * N)) by apply Z.log2_nonneg.
  assert (Hlt32 : Z.log2 (2 * N) < 32).
  { apply Z.log2_lt_pow2; [lia|]. change (2 ^ 32) with 4294967296. lia. }
  destruct (Z.ltb_spec (2 ^ Z.log2 (2 * N)) (2 * N)) as [Hlt|Hge].
  - rewrite u32_small by lia. repeat split.
    + lia.
    + replace (Z.log2 (2 * N) + 1) with (Z.succ (Z.log2 (2 * N))) by lia. lia.
    + intros l' Hl' Hpow.
      assert (Z.log2 (2 * N) < l'); [|lia].
      apply (Z.pow_lt_mono_r_iff 2); lia.
  - repeat split.
    + lia.
    + lia.
    + intros l' Hl' Hpow. apply (Z.pow_le_mono_r_iff 2); lia.
Qed.

Example sigblkCalcLevel_samples :
  map sigblkCalcLevel [0; 2; 4; 6; 8; 10; 16; 2147483648; 2147483650; 4294967294]
  = [0; 1; 2; 3; 3; 4; 4; 31; 32; 32].
Proof. reflexivity. Qed.

(** ** Block size limit and automatic block change *)

Section BlockLimit.
Context `{KsiEnv}.

Lemma int_shift_small (L : Z) :
  1 <= L <= 31 -> u64 (int_shl1 (L - 1)) = 2 ^ (L - 1).
Proof.
  intros HL. unfold int_shl1. change 31 with (Z.ones 5).
  rewrite Z.land_ones by lia. change (2 ^ 5) with 32.
  rewrite (Z.mod_small (L - 1)) by lia. rewrite Z.shiftl_1_l.
  assert (Hp : 0 < 2 ^ (L - 1) <= 2 ^ 30).
  { split; [apply Z.pow_pos_nonneg; lia | apply Z.pow_le_mono_r; lia]. }
  change (2 ^ 30) with 1073741824 in Hp.
  rewrite s32_small by lia. unfold u64. apply Z.mod_small. lia.
Qed.

Lemma sigblkInitKSI_fields ctx k sys :
  exists k',
    sigblkInitKSI ctx (Some k) sys = Some k'
    /\ blockSizeLimit k' = u64 (int_shl1 (effectiveBlockLevelLimit ctx - 1))
    /\ nRecords k' = 0 /\ nRoots k' = 0%nat /\ bInBlk k' = 1
    /\ IV k' = Some (sys_random sys)
    /\ roots k' = replicate MAX_ROOTS None
    /\ lastLeaf k' = lastLeaf k
    /\ disabled k' = disabled k.
Proof. eexists. repeat split. Qed.

(** [add_queue_item] when [malloc] and the push succeed: the item goes to
    the back of the queue, nothing else changes. *)
Lemma add_queue_item_ok ctx sys ty a i1 i2 :
  queued sys = true ->
  add_queue_item ctx sys ty a i1 i2
  = (true,
     set_signer_queue
       (signer_queue ctx
        ++ [mkItem (sys_malloc sys) ty QITEM_WAITING a (u64 i1) (u64 i2) None
                   KSI_UNKNOWN_ERROR (sys_time_enqueue sys)]) ctx).
Proof.
  unfold queued, add_queue_item, ProtectedQueue_addItem. intros Hq.
  destruct (sys_malloc sys =? 0)%nat; [discriminate Hq|].
  destruct (sys_push sys); [reflexivity | discriminate Hq].
Qed.

(** [add_queue_item] on either failure path: the context is disabled and
    the queue is as it was. *)
Lemma add_queue_item_refused ctx sys ty a i1 i2 :
  queued sys = false ->
  add_queue_item ctx sys ty a i1 i2 = (false, set_ctx_disabled true ctx).
Proof.
  unfold queued, add_queue_item, ProtectedQueue_addItem. intros Hq.
  destruct (sys_malloc sys =? 0)%nat; [reflexivity|].
  destruct (sys_push sys); [discriminate Hq | reflexivity].
Qed.

Lemma add_queue_item_queue ctx sys ty a i1 i2 :
  signer_queue (snd (add_queue_item ctx sys ty a i1 i2))
  = signer_queue ctx
    ++ (if queued sys
        then [mkItem (sys_malloc sys) ty QITEM_WAITING a (u64 i1) (u64 i2) None
                     KSI_UNKNOWN_ERROR (sys_time_enqueue sys)]
        else []).
Proof.
  destruct (queued sys) eqn:Hq.
  - rewrite add_queue_item_ok by assumption. reflexivity.
  - rewrite add_queue_item_refused by assumption. cbn. rewrite app_nil_r. reflexivity.
Qed.

Lemma add_queue_item_level ctx sys ty a i1 i2 :
  effectiveBlockLevelLimit (snd (add_queue_item ctx sys ty a i1 i2))
  = effectiveBlockLevelLimit ctx.
Proof.
  destruct (queued sys) eqn:Hq.
  - rewrite add_queue_item_ok by assumption. reflexivity.
  - rewrite add_queue_item_refused by assumption. reflexivity.
Qed.

Lemma add_queue_item_disabled ctx sys ty a i1 i2 :
  ctx_disabled (snd (add_queue_item ctx sys ty a i1 i2))
  = ctx_disabled ctx || negb (queued sys).
Proof.
  destruct (queued sys) eqn:Hq.
  - rewrite add_queue_item_ok by assumption. cbn. rewrite orb_false_r. reflexivity.
  - rewrite add_queue_item_refused by assumption. cbn. rewrite orb_true_r. reflexivity.
Qed.

Lemma add_queue_item_mode ctx sys ty a i1 i2 :
  syncMode (snd (add_queue_item ctx sys ty a i1 i2)) = syncMode ctx.
Proof.
  destruct (queued sys) eqn:Hq.
  - rewrite add_queue_item_ok by assumption. reflexivity.
  - rewrite add_queue_item_refused by assumption. reflexivity.
Qed.

Lemma sigblkFinishKSI_level ctx ksi sys r ctx' ksi' :
  sigblkFinishKSI ctx ksi sys = Some (r, ctx', ksi') ->
  effectiveBlockLevelLimit ctx' = effectiveBlockLevelLimit ctx.
Proof.
  unfold sigblkFinishKSI. intros Hf.
  destruct (nRecords ksi =? 0); [inversion Hf; reflexivity|].
  bind_inv Hf. destruct p as [[r0 k0] root].
  destruct (negb (r0 =? 0)); [inversion Hf; reflexivity|].
  destruct (syncMode ctx).
  - bind_inv Hf. destruct p as [r1 f]. inversion Hf; subst.
    apply add_queue_item_level.
  - bind_inv Hf. destruct p as [r1 k1]. inversion Hf; subst. reflexivity.
Qed.

Lemma sigblkFinishKSI_fold_nRecords n :
  forall j ksi root r ksi' root',
    sigblkFinishKSI_fold n j ksi root = Some (r, ksi', root') ->
    nRecords ksi' = nRecords ksi.
Proof.
  induction n as [|n IH]; intros j ksi root r ksi' root' Hf;
    cbn [sigblkFinishKSI_fold] in Hf.
  - inversion Hf; subst. reflexivity.
  - destruct root as [rootDel|].
    + destruct (root_at ksi j) as [rj|]; [|eapply IH; eassumption].
      destruct (sigblkHashTwoNodes ksi rj rootDel (Z.of_nat j + 2)) as [r0 [t|]].
      * bind_inv Hf. destruct (write_hash_if_frame _ _ _ _ _ E) as [f ->].
        apply IH in Hf. exact Hf.
      * destruct (bKeepTreeHashes (set_root j None ksi)); [discriminate Hf|].
        inversion Hf; subst. reflexivity.
    + apply IH in Hf. exact Hf.
Qed.

Lemma sigblkAddLeaf_some k rec len md r o :
  sigblkAddLeaf (Some k) rec len md = Some (r, o) -> exists k', o = Some k'.
Proof.
  unfold sigblkAddLeaf. intros Ha.
  repeat match type of Ha with
         | bind ?m _ = Some _ => bind_inv Ha
         | Some _ = Some _ => inversion Ha; subst; clear Ha
         | ret _ = Some _ => inversion Ha; subst; clear Ha
         | context [let '(_, _) := ?p in _] => destruct p
         | context [match ?x with _ => _ end] => destruct x
         end; eauto.
Qed.

End BlockLimit.

Example sigblkAddRecordKSI_second_record_closes_block :
  match example_block with
  | Some k =>
      match @sigblkAddRecordKSI test_env (example_ctx 2 2 LOGSIG_ASYNCHRONOUS)
              (Some k) [66; 10] 2 example_sys with
      | Some (r, ctx', Some k') =>
          (nRecords k, r, nRecords k', bInBlk k', blockSizeLimit k',
           map (fun qi => (intarg1 qi, intarg2 qi)) (signer_queue ctx'))
      | _ => (0, 1, 0, 0, 0, [])
      end
  | None => (0, 1, 0, 0, 0, [])
  end = (1, 0, 0, 1, 2, [(2, 2)]).
Proof. vm_compute. reflexivity. Qed.

(** ** Leaf hashing *)

Section LeafFacts.
Context `{KsiEnv}.

Lemma sigblkHashTwoNodes_ok ksi l r lvl st out :
  sigblkHashTwoNodes ksi l r lvl = (st, Some out) ->
  KSI_DataHasher_run (l ++ r ++ [u8 lvl]) = Some out.
Proof.
  unfold sigblkHashTwoNodes.
  destruct (KSI_DataHasher_run (l ++ r ++ [u8 lvl])); intros Heq; inversion Heq.
  reflexivity.
Qed.

Lemma sigblkHashTwoNodes_fail ksi l r lvl st :
  sigblkHashTwoNodes ksi l r lvl = (st, None) -> st <> 0.
Proof.
  unfold sigblkHashTwoNodes.
  destruct (KSI_DataHasher_run (l ++ r ++ [u8 lvl])); intros Heq; inversion Heq.
  apply RSGTE_HASH_CREATE_nonzero.
Qed.

(** What a successful [sigblkAddLeaf] on an enabled handle went through. *)
Lemma sigblkAddLeaf_inv k leafData leafLength metadata k' :
  disabled k = false ->
  sigblkAddLeaf (Some k) leafData leafLength metadata = Some (0, Some k') ->
  exists iv mask leafHash node f k6 t',
    IV k = Some iv
    /\ KSI_DataHasher_run (mask_input k iv) = Some mask
    /\ KSI_DataHasher_run (take (Z.to_nat leafLength) leafData) = Some leafHash
    /\ KSI_DataHasher_run (leaf_input metadata mask leafHash) = Some node
    /\ sigblkAddLeaf_carry (nRoots k) 0
         (set_lastLeaf (memcpy (lastLeaf k) node) (set_blockFile f k)) node
       = Some (0, k6, t')
    /\ match t' with
       | Some t =>
           (S (nRoots k6) < MAX_ROOTS)%nat
           /\ k' = set_nRecords (u64 (nRecords k6 + 1))
                     (set_nRoots (S (nRoots k6)) (set_root (nRoots k6) (Some t) k6))
       | None => k' = set_nRecords (u64 (nRecords k6 + 1)) k6
       end.
Proof.
  intros Hd Ha. unfold sigblkAddLeaf in Ha. rewrite Hd in Ha.
  unfold sigblkCreateMask in Ha. destruct (IV k) as [iv|] eqn:Hiv.
  2: { inversion Ha. destruct RSGTE_HASH_CREATE_nonzero. assumption. }
  fold (mask_input k iv) in Ha.
  destruct (KSI_DataHasher_run (mask_input k iv)) as [mask|] eqn:Hmask.
  2: { inversion Ha. destruct RSGTE_HASH_CREATE_nonzero. assumption. }
  unfold sigblkCreateHash in Ha.
  destruct (KSI_DataHasher_run (take (Z.to_nat leafLength) leafData))
    as [leafHash|] eqn:Hleaf.
  2: { inversion Ha. destruct RSGTE_HASH_CREATE_nonzero. assumption. }
  bind_inv Ha. rename k0 into k1.
  assert (Hk1 : exists f1, k1 = set_blockFile f1 k).
  { destruct (nRecords k =? 0).
    - bind_inv E. destruct p as [r0 kh]. inversion E; subst.
      eapply tlvWriteBlockHdrKSI_frame; eassumption.
    - inversion E; subst. exists (blockFile k1). symmetry. apply set_blockFile_id. }
  destruct Hk1 as [f1 ->]. clear E.
  set (k2 := if metadata then _ else _) in Ha.
  assert (Hk2 : exists f2, k2 = set_blockFile f2 k).
  { subst k2. destruct metadata; eexists; reflexivity. }
  destruct Hk2 as [f2 Hk2]. rewrite Hk2 in Ha. clear k2 Hk2.
  bind_inv Ha. rename k0 into k3.
  destruct (write_hash_if_frame _ _ _ _ _ E) as [f3 ->]. clear E.
  set (tw := if negb metadata then _ else _) in Ha.
  destruct tw as [r [node|]] eqn:Htw.
  2: { inversion Ha; subst. subst tw. destruct metadata; simpl in Htw;
       apply sigblkHashTwoNodes_fail in Htw; congruence. }
  assert (Hnode : KSI_DataHasher_run (leaf_input metadata mask leafHash) = Some node).
  { subst tw. unfold leaf_input. destruct metadata; simpl in Htw;
      apply sigblkHashTwoNodes_ok in Htw; exact Htw. }
  clear Htw tw.
  bind_inv Ha. rename k0 into k4.
  destruct (write_hash_if_frame _ _ _ _ _ E) as [f4 ->]. clear E.
  bind_inv Ha. destruct p as [[rc k6] t'].
  destruct (Z.eqb_spec rc 0) as [Hrc|Hrc]; simpl in Ha.
  2: { inversion Ha; subst. congruence. }
  subst rc.
  exists iv, mask, leafHash, node, f4, k6, t'.
  repeat split; try assumption.
  destruct t' as [t|].
  - bind_inv Ha. unfold assert in E0.
    match type of E0 with
    | context [if ?c then _ else _] => destruct c eqn:Hlt
    end; [|discriminate E0].
    apply Nat.ltb_lt in Hlt.
    inversion E0; subst. inversion Ha; subst. split; [exact Hlt | reflexivity].
  - inversion Ha; subst. reflexivity.
Qed.

Lemma sigblkAddLeaf_carry_frame n :
  forall j ksi t r ksi' t',
    sigblkAddLeaf_carry n j ksi t = Some (r, ksi', t') ->
    lastLeaf ksi' = lastLeaf ksi /\ nRoots ksi' = nRoots ksi
    /\ nRecords ksi' = nRecords ksi /\ disabled ksi' = disabled ksi
    /\ length (roots ksi') = length (roots ksi)
    /\ IV ksi' = IV ksi.
Proof.
  induction n as [|n IH]; intros j ksi t r ksi' t' Hc; cbn [sigblkAddLeaf_carry] in Hc.
  - inversion Hc; subst. repeat split.
  - destruct (root_at ksi j) as [rj|].
    + destruct (sigblkHashTwoNodes ksi rj t (Z.of_nat j + 2)) as [r0 [t2|]].
      * bind_inv Hc. destruct (write_hash_if_frame _ _ _ _ _ E) as [f ->].
        apply IH in Hc. cbn in Hc. rewrite length_insert in Hc. exact Hc.
      * inversion Hc; subst. cbn. rewrite length_insert. repeat split.
    + inversion Hc; subst. cbn. rewrite length_insert. repeat split.
Qed.

(** C3. A leaf added to an active block (IV seeded, handle enabled): the
    mask is the hash of the imprint in [lastLeaf] (algorithm byte and digest)
    followed by the IV; the tree leaf is the hash of mask, record hash and the
    level byte 1 for a normal record, of record hash, mask and the level byte
    1 for a metadata record; that leaf is what [lastLeaf] holds afterwards. *)
Theorem sigblkAddLeaf_leaf_hash (k : ksifile_s) (iv leafData : list Z)
    (leafLength : Z) (metadata : bool) (k' : ksifile_s) :
  disabled k = false ->
  IV k = Some iv ->
  sigblkAddLeaf (Some k) leafData leafLength metadata = Some (0, Some k') ->
  exists mask leafHash node,
    KSI_DataHasher_run
      (take (Z.to_nat (KSI_getHashLength (hd 0 (lastLeaf k)) + 1)) (lastLeaf k)
       ++ take (Z.to_nat (KSI_getHashLength (hashAlg k))) iv) = Some mask
    /\ KSI_DataHasher_run (take (Z.to_nat leafLength) leafData) = Some leafHash
    /\ KSI_DataHasher_run
         (if metadata then leafHash ++ mask ++ [1] else mask ++ leafHash ++ [1])
       = Some node
    /\ lastLeaf k' = node ++ drop (length node) (lastLeaf k).
Proof.
  intros Hd Hiv0 Ha.
  destruct (sigblkAddLeaf_inv _ _ _ _ _ Hd Ha)
    as (iv' & mask & leafHash & node & f & k6 & t' & Hiv & Hm & Hl & Hn & Hc & Hk').
  assert (iv' = iv) by congruence. subst iv'.
  exists mask, leafHash, node. repeat split; try assumption.
  apply sigblkAddLeaf_carry_frame in Hc. destruct Hc as (Hll & _).
  cbn in Hll. destruct t' as [t|].
  - destruct Hk' as [_ ->]. cbn. exact Hll.
  - subst k'. cbn. exact Hll.
Qed.

End LeafFacts.

Lemma sigblkAddLeaf_leaf_hash_witness :
  let k := example_ksi 4 0 (Some [7; 7]) in
  exists k',
    @sigblkAddLeaf test_env (Some k) [65; 10] 2 true = Some (0, Some k')
    /\ exists mask leafHash node,
         test_hash
           (take (Z.to_nat (2 + 1)) (lastLeaf k) ++ take (Z.to_nat 2) [7; 7]) = Some mask
         /\ test_hash (take (Z.to_nat 2) [65; 10]) = Some leafHash
         /\ test_hash (leafHash ++ mask ++ [1]) = Some node
         /\ lastLeaf k' = node ++ drop (length node) (lastLeaf k).
Proof.
  intros k.
  destruct (@sigblkAddLeaf test_env (Some k) [65; 10] 2 true)
    as [[r [k'|]]|] eqn:Hrun; try (vm_compute in Hrun; discriminate Hrun).
  assert (Hr : r = 0) by (vm_compute in Hrun; congruence). subst r.
  exists k'. split; [reflexivity|].
  apply (@sigblkAddLeaf_leaf_hash test_env k [7; 7] [65; 10] 2 true k').
  - reflexivity.
  - reflexivity.
  - exact Hrun.
Defined.

(** ** The roots array as a binary counter *)

(** Adding one to a number whose bits below [j] are set and whose bit [j]
    is clear: the low bits clear, bit [j] sets, the rest stays. *)
Lemma testbit_succ_carry (j : nat) :
  forall m : nat,
    (forall i, (i < j)%nat -> Nat.testbit m i = true) ->
    Nat.testbit m j = false ->
    forall i,
      Nat.testbit (S m) i
      = if (i <? j)%nat then false else if (i =? j)%nat then true else Nat.testbit m i.
Proof.
  induction j as [|j IH]; intros m Hlow Hj i.
  - cbn [Nat.testbit] in Hj.
    assert (Hdiv : Nat.div2 (S m) = Nat.div2 m).
    { rewrite (Nat.div2_odd m) at 1. rewrite Hj. cbn [Nat.b2n].
      rewrite Nat.add_0_r. apply Nat.div2_succ_double. }
    destruct i as [|i]; cbn [Nat.testbit Nat.ltb Nat.leb Nat.eqb].
    + rewrite Nat.odd_succ, <- Nat.negb_odd, Hj. reflexivity.
    + rewrite Hdiv. reflexivity.
  - assert (H0 : Nat.odd m = true) by (apply (Hlow 0%nat); lia).
    assert (Hdiv : Nat.div2 (S m) = S (Nat.div2 m)).
    { rewrite (Nat.div2_odd m) at 1. rewrite H0. cbn [Nat.b2n].
      replace (S (2 * Nat.div2 m + 1)) with (2 * S (Nat.div2 m))%nat by lia.
      apply Nat.div2_double. }
    destruct i as [|i].
    + cbn [Nat.testbit]. rewrite Nat.odd_succ, <- Nat.negb_odd, H0. reflexivity.
    + cbn [Nat.testbit]. rewrite Hdiv.
      rewrite (IH (Nat.div2 m)).
      * reflexivity.
      * intros i' Hi'. apply (Hlow (S i')). lia.
      * exact Hj.
Qed.

Section Carry.
Context `{KsiEnv}.

Lemma slot_used_set_root_eq ksi j v :
  (j < length (roots ksi))%nat ->
  slot_used (set_root j v ksi) j = match v with Some _ => true | None => false end.
Proof.
  intros Hj. unfold slot_used, root_at, set_root. cbn.
  rewrite list_lookup_insert_eq by assumption. destruct v; reflexivity.
Qed.

Lemma slot_used_set_root_ne ksi j v i :
  i <> j -> slot_used (set_root j v ksi) i = slot_used ksi i.
Proof.
  intros Hij. unfold slot_used, root_at, set_root. cbn.
  rewrite list_lookup_insert_ne by congruence. reflexivity.
Qed.

Lemma slot_used_set_blockFile ksi f i :
  slot_used (set_blockFile f ksi) i = slot_used ksi i.
Proof. reflexivity. Qed.

(** The carry loop entered at slot [j] with the slots below it emptied: it
    either stores the node, and the slots then spell [m + 1], or runs off
    the end with every slot empty. *)
Lemma sigblkAddLeaf_carry_counter (n : nat) :
  forall j ksi t ksi' t' (m : nat),
    sigblkAddLeaf_carry n j ksi t = Some (0, ksi', t') ->
    (j + n)%nat = nRoots ksi ->
    (nRoots ksi <= length (roots ksi))%nat ->
    (forall i, (i < j)%nat -> slot_used ksi i = false /\ Nat.testbit m i = true) ->
    (forall i, (j <= i)%nat -> slot_used ksi i = Nat.testbit m i) ->
    (forall i, (nRoots ksi <= i)%nat -> slot_used ksi i = false) ->
    match t' with
    | None =>
        (forall i, slot_used ksi' i = Nat.testbit (S m) i)
        /\ (forall i, (nRoots ksi <= i)%nat -> slot_used ksi' i = false)
    | Some _ =>
        (forall i, slot_used ksi' i = false)
        /\ (forall i, (i < nRoots ksi)%nat -> Nat.testbit m i = true)
    end.
Proof.
  induction n as [|n IH]; intros j ksi t ksi' t' m Hc Hn Hlen Hlow Hhigh Htop;
    cbn [sigblkAddLeaf_carry] in Hc.
  - inversion Hc; subst. rewrite Nat.add_0_r in Hn. split.
    + intros i. destruct (Nat.lt_ge_cases i j) as [Hi|Hi].
      * apply Hlow. assumption.
      * apply Htop. lia.
    + intros i Hi. apply Hlow. lia.
  - assert (Hj : (j < length (roots ksi))%nat) by lia.
    destruct (root_at ksi j) as [rj|] eqn:Hrj.
    + destruct (sigblkHashTwoNodes ksi rj t (Z.of_nat j + 2)) as [r0 [t2|]] eqn:Hh.
      * bind_inv Hc. destruct (write_hash_if_frame _ _ _ _ _ E) as [f ->].
        assert (Hbit : Nat.testbit m j = true).
        { rewrite <- Hhigh by lia. unfold slot_used. rewrite Hrj. reflexivity. }
        apply (IH _ _ _ _ _ m) in Hc; cbn; try rewrite length_insert; try lia.
        -- cbn in Hc. exact Hc.
        -- intros i Hi. rewrite slot_used_set_blockFile.
           destruct (Nat.eq_dec i j) as [->|Hne].
           ++ rewrite slot_used_set_root_eq by assumption. split; [reflexivity|assumption].
           ++ rewrite slot_used_set_root_ne by assumption. apply Hlow. lia.
        -- intros i Hi. rewrite slot_used_set_blockFile.
           rewrite slot_used_set_root_ne by lia. apply Hhigh. lia.
        -- intros i Hi. rewrite slot_used_set_blockFile.
           rewrite slot_used_set_root_ne by lia. apply Htop. assumption.
      * inversion Hc; subst. apply sigblkHashTwoNodes_fail in Hh. congruence.
    + inversion Hc; subst.
      assert (Hbit : Nat.testbit m j = false).
      { rewrite <- Hhigh by lia. unfold slot_used. rewrite Hrj. reflexivity. }
      split.
      * intros i. rewrite (testbit_succ_carry j m); [| intros; apply Hlow; lia | assumption].
        destruct (Nat.ltb_spec i j) as [Hi|Hi].
        -- rewrite slot_used_set_root_ne by lia. apply Hlow. assumption.
        -- destruct (Nat.eqb_spec i j) as [->|Hne].
           ++ rewrite slot_used_set_root_eq by assumption. reflexivity.
           ++ rewrite slot_used_set_root_ne by assumption. apply Hhigh. lia.
      * intros i Hi. rewrite slot_used_set_root_ne by lia. apply Htop. assumption.
Qed.

Lemma sigblkInitKSI_roots_count ctx k0 sys k :
  sigblkInitKSI ctx (Some k0) sys = Some k -> roots_count k 0.
Proof.
  intros Hi. inversion Hi; subst. unfold roots_count. cbn.
  rewrite length_replicate. repeat split; try lia.
  - intros i. rewrite Nat.bits_0. unfold slot_used, root_at. cbn.
    destruct (replicate MAX_ROOTS None !! i) as [o|] eqn:Hl; [|reflexivity].
    apply lookup_replicate in Hl. destruct Hl as [-> _]. reflexivity.
  - intros i _. unfold slot_used, root_at. cbn.
    destruct (replicate MAX_ROOTS None !! i) as [o|] eqn:Hl; [|reflexivity].
    apply lookup_replicate in Hl. destruct Hl as [-> _]. reflexivity.
Qed.

Lemma sigblkAddLeaf_roots_count k leafData leafLength metadata k' m :
  disabled k = false ->
  roots_count k m ->
  sigblkAddLeaf (Some k) leafData leafLength metadata = Some (0, Some k') ->
  roots_count k' (S m) /\ disabled k' = false.
Proof.
  intros Hd (Hlen & Hn & Hbits & Htop) Ha.
  destruct (sigblkAddLeaf_inv _ _ _ _ _ Hd Ha)
    as (iv & mask & leafHash & node & f & k6 & t' & _ & _ & _ & _ & Hc & Hk').
  pose proof (sigblkAddLeaf_carry_frame _ _ _ _ _ _ _ Hc)
    as (_ & Hn6 & _ & Hd6 & Hl6 & _).
  cbn in Hn6, Hd6, Hl6.
  apply (sigblkAddLeaf_carry_counter _ _ _ _ _ _ m) in Hc; cbn; try lia.
  - destruct t' as [t|].
    + destruct Hc as [Hempty Hones]. destruct Hk' as [Hlt ->]. cbn in Hones.
      assert (Hbitn : Nat.testbit m (nRoots k) = false).
      { rewrite <- Hbits. apply Htop. lia. }
      split; [|cbn; congruence].
      unfold roots_count. cbn. rewrite length_insert.
      split; [lia|]. split; [lia|]. split.
      * intros i. rewrite (testbit_succ_carry (nRoots k) m) by assumption.
        change (slot_used (set_root (nRoots k6) (Some t) k6) i
                = (if (i <? nRoots k)%nat then false
                   else if (i =? nRoots k)%nat then true else Nat.testbit m i)).
        rewrite Hn6.
        destruct (Nat.ltb_spec i (nRoots k)) as [Hi|Hi].
        -- rewrite slot_used_set_root_ne by lia. apply Hempty.
        -- destruct (Nat.eqb_spec i (nRoots k)) as [->|Hne].
           ++ rewrite slot_used_set_root_eq by lia. reflexivity.
           ++ rewrite slot_used_set_root_ne by lia. rewrite Hempty.
              rewrite <- Hbits. symmetry. apply Htop. lia.
      * intros i Hi.
        change (slot_used (set_root (nRoots k6) (Some t) k6) i = false).
        rewrite slot_used_set_root_ne by lia. apply Hempty.
    + destruct Hc as [Hnew Htop']. subst k'.
      split; [|cbn; congruence].
      unfold roots_count. cbn.
      split; [lia|]. split; [lia|]. split.
      * exact Hnew.
      * intros i Hi. apply Htop'. cbn. lia.
  - intros i _. apply Hbits.
  - exact Htop.
Qed.

Lemma sigblkAddLeaves_roots_count leaves :
  forall k m kn,
    disabled k = false ->
    roots_count k m ->
    sigblkAddLeaves k leaves = Some kn ->
    roots_count kn (m + length leaves).
Proof.
  induction leaves as [|[[d l] md] leaves IH]; intros k m kn Hd Hinv Hrun;
    cbn [sigblkAddLeaves] in Hrun.
  - inversion Hrun; subst. cbn [length]. rewrite Nat.add_0_r. assumption.
  - destruct (sigblkAddLeaf (Some k) d l md) as [[r [k'|]]|] eqn:Ha;
      try discriminate Hrun; try (destruct r; discriminate Hrun).
    destruct r; try discriminate Hrun.
    destruct (sigblkAddLeaf_roots_count _ _ _ _ _ _ Hd Hinv Ha) as [Hinv' Hd'].
    cbn [length]. replace (m + S (length leaves))%nat with (S m + length leaves)%nat by lia.
    eapply IH; eassumption.
Qed.

End Carry.

(** ** Order of the signatures written by the worker *)

Section Order.
Context `{KsiEnv}.

Lemma pending_app q1 q2 : pending (q1 ++ q2) = pending q1 ++ pending q2.
Proof. unfold pending. rewrite List.filter_app, map_app. reflexivity. Qed.

Lemma pending_cons qi q :
  pending (qi :: q) = if is_sign qi then sign_key qi :: pending q else pending q.
Proof. unfold pending. cbn [List.filter]. destruct (is_sign qi); reflexivity. Qed.

Lemma pending_update_item a g q :
  keeps_key g -> pending (update_item a g q) = pending q.
Proof.
  intros Hg. unfold update_item.
  induction q as [|qi q IH]; [reflexivity|].
  cbn [map]. rewrite !pending_cons, IH.
  destruct (Nat.eqb (qaddr qi) a); [|reflexivity].
  destruct (Hg qi) as [Ht Hk]. unfold is_sign. rewrite Ht, Hk. reflexivity.
Qed.

Lemma pending_insert q :
  forall i item item',
    q !! i = Some item ->
    type item' = type item -> sign_key item' = sign_key item ->
    pending (<[i := item']> q) = pending q.
Proof.
  induction q as [|qi q IH]; intros i item item' Hl Ht Hk; [reflexivity|].
  destruct i as [|i]; cbn in Hl.
  - change (<[0%nat := item']> (qi :: q)) with (item' :: q).
    inversion Hl; subst. rewrite !pending_cons. unfold is_sign.
    rewrite Ht, Hk. reflexivity.
  - change (<[S i := item']> (qi :: q)) with (qi :: <[i := item']> q).
    rewrite !pending_cons.
    destruct (is_sign qi); [f_equal|]; exact (IH i item item' Hl Ht Hk).
Qed.

Lemma handle_ksi_config_queue ctx as_ config :
  signer_queue (fst (handle_ksi_config ctx as_ config)) = signer_queue ctx.
Proof.
  unfold handle_ksi_config.
  destruct (KSI_Config_getMaxRequests config), (KSI_Config_getMaxLevel config); simpl;
    repeat match goal with |- context [if ?c then _ else _] => destruct c end;
    reflexivity.
Qed.

Lemma process_responses_pending hs :
  forall ctx as_ ok ctx' as_',
    process_responses hs ctx as_ = Some (ok, ctx', as_') ->
    pending (signer_queue ctx') = pending (signer_queue ctx).
Proof.
  induction hs as [|h hs IH]; intros ctx as_ ok ctx' as_' Hp;
    cbn [process_responses] in Hp.
  - inversion Hp; subst. reflexivity.
  - destruct (KSI_AsyncHandle_getState h) as [e|[| | | |]].
    + inversion Hp; subst. reflexivity.
    + eapply IH; eassumption.
    + eapply IH; eassumption.
    + destruct (KSI_AsyncHandle_getConfig h) as [e|config].
      * eapply IH; eassumption.
      * destruct (handle_ksi_config ctx as_ config) as [ctx1 as1] eqn:Hc.
        apply IH in Hp. rewrite Hp.
        change ctx1 with (fst (ctx1, as1)). rewrite <- Hc.
        f_equal. apply handle_ksi_config_queue.
    + destruct (KSI_AsyncHandle_getRequestCtx h) as [e|[a|]].
      * inversion Hp; subst. reflexivity.
      * apply IH in Hp. rewrite Hp. cbn. apply pending_update_item.
        intros qi. split; reflexivity.
      * discriminate Hp.
    + destruct (KSI_AsyncHandle_getRequestCtx h) as [e|[a|]].
      * inversion Hp; subst. reflexivity.
      * apply IH in Hp. rewrite Hp. cbn. apply pending_update_item.
        intros qi. split; reflexivity.
      * eapply IH; eassumption.
Qed.

Lemma send_requests_pending env n :
  forall i q ok q',
    send_requests env n i q = (ok, q') -> pending q' = pending q.
Proof.
  induction n as [|n IH]; intros i q ok q' Hs; cbn [send_requests] in Hs.
  - inversion Hs; subst. reflexivity.
  - unfold ProtectedQueue_getItem in Hs.
    destruct (q !! i) as [item|] eqn:Hl; [|eapply IH; eassumption].
    destruct (negb (QITEM_type_eqb (type item) QITEM_SIGNATURE_REQUEST));
      [eapply IH; eassumption|].
    destruct (negb (QITEM_status_eqb (status item) QITEM_WAITING));
      [eapply IH; eassumption|].
    destruct (negb (env_build env (qaddr item) =? KSI_OK));
      [inversion Hs; subst; reflexivity|].
    destruct (env_addRequest env (qaddr item) =? KSI_OK).
    + apply IH in Hs. rewrite Hs. eapply pending_insert; [eassumption| |]; reflexivity.
    + inversion Hs; subst. eapply pending_insert; [eassumption| |]; reflexivity.
Qed.

(** The save loop takes items off the front only, each a finished signing
    request, writes them in that order, and leaves the queue from the first
    item that is not one. *)
Lemma save_responses_front q :
  forall outfile q' outfile' saved,
    save_responses q outfile = Some (q', outfile', saved) ->
    q = saved ++ q'
    /\ Forall done_sign saved
    /\ match q' with
       | [] => True
       | qi :: _ => ~ done_sign qi
       end
    /\ match saved with
       | [] => outfile' = outfile
       | _ :: _ =>
           exists f f', outfile = Some f /\ outfile' = Some f'
                        /\ write_saved f saved = Some f'
       end.
Proof.
  induction q as [|item q IH]; intros outfile q' outfile' saved Hs;
    cbn [save_responses] in Hs.
  - inversion Hs; subst. repeat split. constructor.
  - destruct (type item) eqn:Ht; cbn in Hs;
      try (inversion Hs; subst; repeat split;
           [constructor | intros [Hc _]; congruence]).
    destruct (status item) eqn:Hst; cbn in Hs;
      try (inversion Hs; subst; repeat split;
           [constructor | intros [_ Hc]; congruence]).
    destruct outfile as [f|]; [|discriminate Hs].
    bind_inv Hs. destruct p as [b f1]. bind_inv Hs. destruct p as [[q2 o2] s2].
    inversion Hs; subst. apply IH in E0.
    destruct E0 as (Hq & Hall & Hrest & Hfile). subst q.
    split; [reflexivity|]. split; [constructor; [split; assumption | assumption]|].
    split; [assumption|].
    exists f. cbn [write_saved]. rewrite E. cbn [bind].
    destruct s2 as [|s s2].
    + exists f1. repeat split. assumption.
    + destruct Hfile as (fa & fb & Hfa & Hfb & Hw). inversion Hfa; subst fa.
      exists fb. repeat split; assumption.
Qed.

Lemma pending_done_sign saved :
  Forall done_sign saved -> pending saved = map sign_key saved.
Proof.
  induction 1 as [|qi saved [Ht _] _ IH]; [reflexivity|].
  rewrite pending_cons. unfold is_sign. rewrite Ht. cbn. rewrite IH. reflexivity.
Qed.

Lemma process_requests_async_pending ctx as_ outfile env ok ctx' as_' outfile' saved :
  process_requests_async ctx as_ outfile env = Some (ok, ctx', as_', outfile', saved) ->
  pending (signer_queue ctx) = map sign_key saved ++ pending (signer_queue ctx')
  /\ Forall done_sign saved.
Proof.
  unfold process_requests_async. intros Hp.
  bind_inv Hp. destruct p as [[ok1 ctx1] as1].
  apply process_responses_pending in E. rewrite <- E.
  destruct ok1; cbn in Hp; [|inversion Hp; subst; split; [reflexivity|constructor]].
  destruct (send_requests env (ProtectedQueue_count (signer_queue ctx1)) 0
              (signer_queue ctx1)) as [ok2 q2] eqn:Hs.
  apply send_requests_pending in Hs. rewrite <- Hs.
  destruct ok2; cbn in Hp; [|inversion Hp; subst; split; [reflexivity|constructor]].
  bind_inv Hp. destruct p as [[q3 o3] s3]. inversion Hp; subst.
  apply save_responses_front in E0. destruct E0 as (Hq & Hall & _ & _).
  cbn. rewrite Hq, pending_app, (pending_done_sign _ Hall). split; [reflexivity|assumption].
Qed.

Lemma signer_thread_turn_pending w env w' saved :
  signer_thread_turn w env = Some (w', saved) ->
  pending (signer_queue (w_ctx w))
  = map sign_key saved ++ pending (signer_queue (w_ctx w'))
  /\ Forall done_sign saved.
Proof.
  unfold signer_thread_turn. intros Ht.
  destruct (negb (w_running w)); [inversion Ht; subst; split; [reflexivity|constructor]|].
  destruct (ProtectedQueue_count (signer_queue (w_ctx w)) =? 0)%nat.
  - bind_inv Ht. destruct p as [[[[ok ctx1] as1] f1] s1]. inversion Ht; subst.
    eapply process_requests_async_pending; eassumption.
  - bind_inv Ht. destruct p as [[[[ok ctx1] as1] f1] s1].
    assert (Hp : pending (signer_queue (w_ctx w))
                 = map sign_key s1 ++ pending (signer_queue ctx1)
                 /\ Forall done_sign s1).
    { destruct (ksiFile w).
      - eapply process_requests_async_pending; eassumption.
      - inversion E; subst. split; [reflexivity|constructor]. }
    destruct Hp as [Hp Hall]. rewrite Hp. clear E Hp.
    destruct ok; cbn in Ht; [|inversion Ht; subst; split; [reflexivity|assumption]].
    destruct (signer_queue ctx1) as [|item q'] eqn:Hq; cbn in Ht.
    + inversion Ht; subst. cbn. rewrite Hq. split; [reflexivity|assumption].
    + destruct (type item) eqn:Hty; cbn in Ht; inversion Ht; subst; cbn;
        rewrite ?Hq, ?pending_cons; unfold is_sign; rewrite ?Hty; cbn;
        split; try reflexivity; assumption.
Qed.

Lemma run_pending evs :
  forall w w' saved,
    run w evs = Some (w', saved) ->
    pending (signer_queue (w_ctx w)) ++ enqueued evs
    = map sign_key saved ++ pending (signer_queue (w_ctx w'))
    /\ Forall done_sign saved.
Proof.
  induction evs as [|e evs IH]; intros w w' saved Hr; cbn [run] in Hr.
  - inversion Hr; subst. cbn. rewrite app_nil_r. split; [reflexivity|constructor].
  - bind_inv Hr. destruct p as [w1 s1]. bind_inv Hr. destruct p as [w2 s2].
    inversion Hr; subst. apply IH in E0. destruct E0 as [Hrest Hall2].
    destruct e as [sys ty a i1 i2|env]; cbn [step] in E.
    + inversion E; subst. cbn [w_ctx] in Hrest.
      rewrite add_queue_item_queue, pending_app in Hrest.
      cbn [app map]. split; [|assumption].
      rewrite <- Hrest. rewrite <- app_assoc. f_equal.
      destruct ty; cbn [enqueued]; destruct (queued sys);
        try rewrite pending_cons; reflexivity.
    + apply signer_thread_turn_pending in E. destruct E as [Hturn Hall1].
      cbn [enqueued]. rewrite Hturn, map_app, <- !app_assoc. split.
      * f_equal. exact Hrest.
      * apply Forall_app. split; assumption.
Qed.

End Order.

(** ** The signature file of a run that only signs *)

Section SingleFile.
Context `{KsiEnv}.

Lemma all_sign_update_item a g q :
  keeps_key g -> all_sign q -> all_sign (update_item a g q).
Proof.
  intros Hg Hq. unfold update_item, all_sign.
  induction Hq as [|qi q Hqi _ IH]; cbn [map]; constructor; [|assumption].
  destruct (Nat.eqb (qaddr qi) a); [|assumption].
  destruct (Hg qi) as [Ht _]. congruence.
Qed.

Lemma all_sign_insert q :
  forall i item item',
    q !! i = Some item -> type item' = type item ->
    all_sign q -> all_sign (<[i := item']> q).
Proof.
  induction q as [|qi q IH]; intros i item item' Hl Ht Hq; [assumption|].
  inversion Hq; subst. destruct i as [|i]; cbn in Hl.
  - inversion Hl; subst.
    change (<[0%nat := item']> (item :: q)) with (item' :: q).
    constructor; [congruence | assumption].
  - change (<[S i := item']> (qi :: q)) with (qi :: <[i := item']> q).
    constructor; [assumption|]. exact (IH i item item' Hl Ht ltac:(assumption)).
Qed.

Lemma process_responses_all_sign hs :
  forall ctx as_ ok ctx' as_',
    process_responses hs ctx as_ = Some (ok, ctx', as_') ->
    all_sign (signer_queue ctx) -> all_sign (signer_queue ctx').
Proof.
  induction hs as [|h hs IH]; intros ctx as_ ok ctx' as_' Hp Hq;
    cbn [process_responses] in Hp.
  - inversion Hp; subst. assumption.
  - destruct (KSI_AsyncHandle_getState h) as [e|[| | | |]].
    + inversion Hp; subst. assumption.
    + eapply IH; eassumption.
    + eapply IH; eassumption.
    + destruct (KSI_AsyncHandle_getConfig h) as [e|config].
      * eapply IH; eassumption.
      * destruct (handle_ksi_config ctx as_ config) as [ctx1 as1] eqn:Hc.
        eapply IH; [eassumption|].
        change ctx1 with (fst (ctx1, as1)). rewrite <- Hc.
        rewrite handle_ksi_config_queue. assumption.
    + destruct (KSI_AsyncHandle_getRequestCtx h) as [e|[a|]].
      * inversion Hp; subst. assumption.
      * eapply IH; [eassumption|]. cbn. apply all_sign_update_item; [|assumption].
        intros qi. split; reflexivity.
      * discriminate Hp.
    + destruct (KSI_AsyncHandle_getRequestCtx h) as [e|[a|]].
      * inversion Hp; subst. assumption.
      * eapply IH; [eassumption|]. cbn. apply all_sign_update_item; [|assumption].
        intros qi. split; reflexivity.
      * eapply IH; eassumption.
Qed.

Lemma send_requests_all_sign env n :
  forall i q ok q',
    send_requests env n i q = (ok, q') -> all_sign q -> all_sign q'.
Proof.
  induction n as [|n IH]; intros i q ok q' Hs Hq; cbn [send_requests] in Hs.
  - inversion Hs; subst. assumption.
  - unfold ProtectedQueue_getItem in Hs.
    destruct (q !! i) as [item|] eqn:Hl; [|eapply IH; eassumption].
    destruct (negb (QITEM_type_eqb (type item) QITEM_SIGNATURE_REQUEST));
      [eapply IH; eassumption|].
    destruct (negb (QITEM_status_eqb (status item) QITEM_WAITING));
      [eapply IH; eassumption|].
    destruct (negb (env_build env (qaddr item) =? KSI_OK));
      [inversion Hs; subst; assumption|].
    destruct (env_addRequest env (qaddr item) =? KSI_OK).
    + eapply IH; [eassumption|]. eapply all_sign_insert; [eassumption|reflexivity|assumption].
    + inversion Hs; subst. eapply all_sign_insert; [eassumption|reflexivity|assumption].
Qed.

Lemma process_requests_async_file ctx as_ f env ok ctx' as_' outfile' saved :
  process_requests_async ctx as_ (Some f) env = Some (ok, ctx', as_', outfile', saved) ->
  all_sign (signer_queue ctx) ->
  all_sign (signer_queue ctx')
  /\ exists f', outfile' = Some f' /\ write_saved f saved = Some f'.
Proof.
  unfold process_requests_async. intros Hp Hq.
  bind_inv Hp. destruct p as [[ok1 ctx1] as1].
  pose proof (process_responses_all_sign _ _ _ _ _ _ E Hq) as Hq1.
  destruct ok1; cbn in Hp; [|inversion Hp; subst; split; [assumption|eauto]].
  destruct (send_requests env (ProtectedQueue_count (signer_queue ctx1)) 0
              (signer_queue ctx1)) as [ok2 q2] eqn:Hs.
  pose proof (send_requests_all_sign _ _ _ _ _ _ Hs Hq1) as Hq2.
  destruct ok2; cbn in Hp; [|inversion Hp; subst; split; [assumption|eauto]].
  bind_inv Hp. destruct p as [[q3 o3] s3]. inversion Hp; subst.
  apply save_responses_front in E0. destruct E0 as (Hq3 & _ & _ & Hfile).
  split.
  - cbn. rewrite Hq3 in Hq2. apply Forall_app in Hq2. apply Hq2.
  - destruct saved as [|s saved].
    + subst outfile'. eauto.
    + destruct Hfile as (fa & fb & Hfa & Hfb & Hw). inversion Hfa; subst. eauto.
Qed.

Lemma signer_thread_turn_file w env w' saved f :
  signer_thread_turn w env = Some (w', saved) ->
  all_sign (signer_queue (w_ctx w)) -> ksiFile w = Some f ->
  all_sign (signer_queue (w_ctx w'))
  /\ exists f', ksiFile w' = Some f' /\ write_saved f saved = Some f'.
Proof.
  unfold signer_thread_turn. intros Ht Hq Hf. rewrite Hf in Ht.
  destruct (negb (w_running w)); [inversion Ht; subst; split; [assumption|eauto]|].
  destruct (ProtectedQueue_count (signer_queue (w_ctx w)) =? 0)%nat.
  - bind_inv Ht. destruct p as [[[[ok ctx1] as1] f1] s1]. inversion Ht; subst.
    eapply process_requests_async_file; eassumption.
  - bind_inv Ht. destruct p as [[[[ok ctx1] as1] f1] s1].
    destruct (process_requests_async_file _ _ _ _ _ _ _ _ _ E Hq)
      as (Hq1 & f' & -> & Hw).
    destruct ok; cbn in Ht; [|inversion Ht; subst; split; [assumption|eauto]].
    destruct (signer_queue ctx1) as [|item q'] eqn:Hq1'; cbn in Ht.
    + inversion Ht; subst. cbn. rewrite Hq1'. split; [constructor|eauto].
    + inversion Hq1 as [|? ? Hty _]; subst. rewrite Hty in Ht. cbn in Ht.
      inversion Ht; subst. cbn. rewrite Hq1'. split; [assumption|eauto].
Qed.

Lemma write_saved_app s1 :
  forall f f1 s2,
    write_saved f s1 = Some f1 -> write_saved f (s1 ++ s2) = write_saved f1 s2.
Proof.
  induction s1 as [|item s1 IH]; intros f f1 s2 Hw; cbn [write_saved app] in *.
  - inversion Hw; subst. reflexivity.
  - bind_inv Hw. destruct p as [b f']. cbn [bind]. eapply IH. eassumption.
Qed.

Lemma run_file evs :
  forall w w' saved f,
    run w evs = Some (w', saved) ->
    all_sign (signer_queue (w_ctx w)) -> Forall sign_event evs ->
    ksiFile w = Some f ->
    exists f', ksiFile w' = Some f' /\ write_saved f saved = Some f'.
Proof.
  induction evs as [|e evs IH]; intros w w' saved f Hr Hq Hev Hf; cbn [run] in Hr.
  - inversion Hr; subst. eauto.
  - bind_inv Hr. destruct p as [w1 s1]. bind_inv Hr. destruct p as [w2 s2].
    inversion Hr; subst. inversion Hev as [|? ? He Hev']; subst.
    destruct e as [sys ty a i1 i2|env]; cbn [step] in E.
    + inversion E; subst. cbn in He. subst ty.
      eapply IH; [eassumption| |assumption|exact Hf].
      cbn [w_ctx]. rewrite add_queue_item_queue. apply Forall_app.
      split; [assumption|].
      destruct (queued sys); [constructor; [reflexivity|constructor] | constructor].
    + destruct (signer_thread_turn_file _ _ _ _ _ E Hq Hf) as (Hq1 & f1 & Hf1 & Hw1).
      destruct (IH _ _ _ _ E0 Hq1 Hev' Hf1) as (f' & Hf' & Hw').
      exists f'. split; [assumption|].
      rewrite (write_saved_app _ _ _ _ Hw1). assumption.
Qed.

End SingleFile.

(** The run of the example: while the first request waits for its answer
    nothing is written, although the second and the third have theirs; then
    all three are written, first to third. *)
Example signer_thread_holds_back_later_answers :
  match @run test_env example_worker (take 6 example_run),
        @run test_env example_worker example_run with
  | Some (w6, saved6), Some (w7, saved7) =>
      (map (fun qi => (qaddr qi, status qi)) (signer_queue (w_ctx w6)),
       map qaddr saved6, map qaddr saved7,
       map (fun qi => (qaddr qi, status qi)) (signer_queue (w_ctx w7)))
  | _, _ => ([], [], [], [])
  end
  = ([(101%nat, QITEM_SENT); (102%nat, QITEM_DONE); (103%nat, QITEM_DONE)],
     [], [101; 102; 103]%nat, []).
Proof. vm_compute. reflexivity. Qed.

(** ** The writers and the accumulator always return

    With [flags = 0], as every caller passes it, the assertions of the header
    writers hold; with a hasher that does not fail, a leaf is added with
    status 0 as long as the block stays below [2 ^ (MAX_ROOTS - 1)] leaves. *)

Section Totality.
Context `{KsiEnv}.

Lemma u16_range (x : Z) : 0 <= u16 x < 65536.
Proof. unfold u16. apply Z.mod_pos_bound. lia. Qed.

Lemma u16_idem (x : Z) : u16 (u16 x) = u16 x.
Proof. unfold u16. apply Z.mod_mod. lia. Qed.

Lemma tlvWriteHeader_total (f : FILE) (tlvtype len : Z) :
  exists r f', tlvWriteHeader f 0 tlvtype len = Some (r, f').
Proof.
  unfold tlvWriteHeader, tlvGetHeaderSize. rewrite !u16_idem.
  pose proof (u16_range tlvtype) as Ht.
  change (u64 0 <=? 255) with true. change (u64 0 <=? 65535) with true.
  rewrite !andb_true_r.
  destruct (Z.leb_spec (u16 tlvtype) RSGT_TYPE_MASK) as [Hs|Hs].
  - change (2 =? 2) with true. cbv iota. unfold tlvWriteHeader8.
    unfold RSGT_TYPE_MASK in Hs.
    assert (Hu : u8 (u16 tlvtype) = u16 tlvtype) by (unfold u8; apply Z.mod_small; lia).
    rewrite Hu, !land_mask_small by lia. rewrite !Z.eqb_refl. cbn [assert bind ret].
    destruct (tlvWriteOctetString f _ 2) as [r f']. eauto.
  - destruct (Z.leb_spec (Z.shiftr (u16 tlvtype) 8) RSGT_TYPE_MASK) as [Hl|Hl].
    + change (4 =? 2) with false. change (4 =? 4) with true. cbv iota.
      unfold tlvWriteHeader16. rewrite !u16_idem.
      unfold RSGT_TYPE_MASK in Hl.
      assert (Hnn : 0 <= Z.shiftr (u16 tlvtype) 8) by (apply Z.shiftr_nonneg; lia).
      rewrite !land_mask_small by lia. rewrite !Z.eqb_refl. cbn [assert bind ret].
      destruct (tlvWriteOctetString f _ 4) as [r f']. eauto.
    + change (0 =? 2) with false. change (0 =? 4) with false. cbv iota.
      unfold ret. eauto.
Qed.

Lemma tlvWriteOctetStringTLV_total (f : FILE) (tlvtype : Z) (data : list Z) (len : Z) :
  exists r f', tlvWriteOctetStringTLV f 0 tlvtype data len = Some (r, f').
Proof.
  unfold tlvWriteOctetStringTLV.
  destruct (tlvWriteHeader_total f tlvtype (u16 len)) as (r & f1 & ->). cbn [bind].
  destruct (negb (r =? 0)); [unfold ret; eauto|].
  destruct (fwrite data (u16 len) f1) as [n f2].
  destruct (negb (n =? 1)); unfold ret; eauto.
Qed.

Lemma tlvWriteHashKSI_total (ksi : ksifile_s) (tlvtype : Z) (h : KSI_DataHash) :
  exists r k', tlvWriteHashKSI ksi tlvtype h = Some (r, k').
Proof.
  unfold tlvWriteHashKSI.
  destruct (tlvWriteOctetStringTLV_total (blockFile ksi) tlvtype h (Z.of_nat (length h)))
    as (r & f & ->).
  cbn [bind]. unfold ret. eauto.
Qed.

Lemma write_hash_if_total (c : bool) (ksi : ksifile_s) (tlvtype : Z) (h : KSI_DataHash) :
  exists f, write_hash_if c ksi tlvtype h = Some (set_blockFile f ksi).
Proof.
  unfold write_hash_if. destruct c.
  - destruct (tlvWriteHashKSI_total ksi tlvtype h) as (r & k' & Hw). rewrite Hw.
    cbn [bind]. destruct (tlvWriteHashKSI_frame _ _ _ _ _ Hw) as [f ->].
    exists f. reflexivity.
  - exists (blockFile ksi). rewrite set_blockFile_id. reflexivity.
Qed.

Lemma CHKr_total (m : C (Z * FILE)) (k : FILE -> C (Z * FILE)) :
  (exists r f, m = Some (r, f)) ->
  (forall f, exists r f', k f = Some (r, f')) ->
  exists r f, CHKr m k = Some (r, f).
Proof.
  intros (r & f & ->) Hk. unfold CHKr. cbn [bind].
  destruct (negb (r =? 0)); [unfold ret; eauto | apply Hk].
Qed.

Lemma tlvWriteBlockHdrKSI_total (ksi : ksifile_s) :
  exists r f, tlvWriteBlockHdrKSI ksi = Some (r, set_blockFile f ksi).
Proof.
  unfold tlvWriteBlockHdrKSI.
  match goal with
  | |- context [bind ?m _] =>
      assert (Hm : exists r f, m = Some (r, f))
  end.
  { apply CHKr_total; [apply tlvWriteHeader_total|]. intros f1.
    apply CHKr_total; [apply tlvWriteOctetStringTLV_total|]. intros f2.
    apply CHKr_total; [apply tlvWriteOctetStringTLV_total|]. intros f3.
    apply tlvWriteOctetStringTLV_total. }
  destruct Hm as (r & f & ->). cbn [bind]. unfold ret. eauto.
Qed.

Hypothesis hasher_total : forall bs, KSI_DataHasher_run bs <> None.

Lemma sigblkHashTwoNodes_total ksi l r lvl :
  exists t, sigblkHashTwoNodes ksi l r lvl = (0, Some t).
Proof.
  unfold sigblkHashTwoNodes.
  destruct (KSI_DataHasher_run (l ++ r ++ [u8 lvl])) as [t|] eqn:Hh.
  - eauto.
  - destruct (hasher_total _ Hh).
Qed.

Lemma sigblkAddLeaf_carry_total n :
  forall j ksi t, exists ksi' t', sigblkAddLeaf_carry n j ksi t = Some (0, ksi', t').
Proof.
  induction n as [|n IH]; intros j ksi t; cbn [sigblkAddLeaf_carry].
  - unfold ret. eauto.
  - destruct (root_at ksi j) as [rj|]; [|unfold ret; eauto].
    destruct (sigblkHashTwoNodes_total ksi rj t (Z.of_nat j + 2)) as [t2 ->].
    destruct (write_hash_if_total (bKeepTreeHashes (set_root j None ksi))
                (set_root j None ksi) 0x0903 t2) as [f ->].
    cbn [bind]. apply IH.
Qed.

(** A number whose [n] low bits are set is at least [2 ^ n - 1]. *)
Lemma testbit_ones_le (n : nat) :
  forall m : nat,
    (forall i, (i < n)%nat -> Nat.testbit m i = true) -> (2 ^ n - 1 <= m)%nat.
Proof.
  induction n as [|n IH]; intros m Hm.
  - cbn. lia.
  - assert (H0 : Nat.odd m = true) by (apply (Hm 0%nat); lia).
    assert (Hd : (2 ^ n - 1 <= Nat.div2 m)%nat).
    { apply IH. intros i Hi. apply (Hm (S i)). lia. }
    pose proof (Nat.div2_odd m) as Heq. rewrite H0 in Heq. cbn [Nat.b2n] in Heq.
    rewrite Nat.pow_succ_r'. lia.
Qed.

Lemma sigblkAddLeaf_total k leafData leafLength metadata (m : nat) :
  disabled k = false -> IV k <> None ->
  roots_count k m ->
  (S m < 2 ^ (MAX_ROOTS - 1))%nat ->
  exists k', sigblkAddLeaf (Some k) leafData leafLength metadata = Some (0, Some k')
             /\ IV k' = IV k.
Proof.
  intros Hd Hiv (Hlen & Hn & Hbits & Htop) Hcap.
  unfold sigblkAddLeaf. rewrite Hd. unfold sigblkCreateMask, sigblkCreateHash.
  destruct (IV k) as [iv|] eqn:Hiv'; [|congruence].
  destruct (KSI_DataHasher_run _) as [mask|] eqn:Hmask; [|destruct (hasher_total _ Hmask)].
  destruct (KSI_DataHasher_run (take (Z.to_nat leafLength) leafData)) as [leafHash|] eqn:Hleaf;
    [|destruct (hasher_total _ Hleaf)].
  assert (H1 : exists f1,
             (if nRecords k =? 0
              then let* (_, k') := tlvWriteBlockHdrKSI k in ret k'
              else ret k) = Some (set_blockFile f1 k)).
  { destruct (nRecords k =? 0).
    - destruct (tlvWriteBlockHdrKSI_total k) as (r & f & ->). exists f. reflexivity.
    - exists (blockFile k). rewrite set_blockFile_id. reflexivity. }
  destruct H1 as [f1 ->]. cbn [bind].
  set (k2 := if metadata then _ else _).
  assert (Hk2 : exists f2, k2 = set_blockFile f2 k).
  { subst k2. destruct metadata; eexists; reflexivity. }
  destruct Hk2 as [f2 ->].
  destruct (write_hash_if_total (bKeepRecordHashes (set_blockFile f2 k))
              (set_blockFile f2 k) 0x0902 leafHash) as [f3 ->].
  cbn [bind].
  set (tw := if negb metadata then _ else _).
  assert (Htw : exists node, tw = (0, Some node)).
  { subst tw. destruct metadata; apply sigblkHashTwoNodes_total. }
  destruct Htw as [node ->].
  destruct (write_hash_if_total
              (bKeepTreeHashes (set_blockFile f3 (set_blockFile f2 k)))
              (set_blockFile f3 (set_blockFile f2 k)) 0x0903 node) as [f4 ->].
  cbn [bind].
  match goal with
  | |- context [sigblkAddLeaf_carry ?n ?j ?ks ?t] =>
      destruct (sigblkAddLeaf_carry_total n j ks t) as (k6 & t' & Hc)
  end.
  rewrite Hc. cbn [bind]. change (negb (0 =? 0)) with false. cbv iota.
  pose proof (sigblkAddLeaf_carry_frame _ _ _ _ _ _ _ Hc)
    as (_ & Hn6 & _ & _ & _ & Hiv6).
  cbn in Hiv6. rewrite Hiv' in Hiv6.
  apply (sigblkAddLeaf_carry_counter _ _ _ _ _ _ m) in Hc;
    [| cbn; lia | cbn; lia | intros i Hi; inversion Hi | |].
  - destruct t' as [t|].
    + destruct Hc as [_ Hones]. cbn in Hones, Hn6.
      pose proof (testbit_ones_le _ _ Hones) as Hge.
      assert (Hlt : (S (nRoots k6) < MAX_ROOTS)%nat).
      { rewrite Hn6.
        destruct (Nat.lt_ge_cases (S (nRoots k)) MAX_ROOTS) as [Hok|Hbad]; [assumption|].
        exfalso.
        assert (Hpow : (2 ^ (MAX_ROOTS - 1) <= 2 ^ nRoots k)%nat)
          by (apply Nat.pow_le_mono_r; lia).
        lia. }
      unfold assert.
      match goal with
      | |- context [(?x <? MAX_ROOTS)%nat] => change x with (S (nRoots k6))
      end.
      apply Nat.ltb_lt in Hlt. rewrite Hlt. cbn [bind ret].
      eexists. split; [reflexivity|]. cbn. exact Hiv6.
    + cbn [bind ret]. eexists. split; [reflexivity|]. cbn. exact Hiv6.
  - intros i _. apply Hbits.
  - exact Htop.
Qed.

Lemma sigblkAddLeaves_total leaves :
  forall k (m : nat),
    disabled k = false -> IV k <> None ->
    roots_count k m ->
    (m + length leaves < 2 ^ (MAX_ROOTS - 1))%nat ->
    exists kn, sigblkAddLeaves k leaves = Some kn.
Proof.
  induction leaves as [|[[d l] md] leaves IH]; intros k m Hd Hiv Hinv Hcap;
    cbn [sigblkAddLeaves].
  - eauto.
  - cbn [length] in Hcap.
    destruct (sigblkAddLeaf_total k d l md m Hd Hiv Hinv ltac:(lia)) as (k' & Ha & Hiv').
    rewrite Ha.
    destruct (sigblkAddLeaf_roots_count _ _ _ _ _ _ Hd Hinv Ha) as [Hinv' Hd'].
    apply (IH k' (S m)); try assumption; [congruence | lia].
Qed.

End Totality.

Section Counter.
Context `{KsiEnv}.

(** C1. In a block started by [sigblkInitKSI] on an enabled handle, after
    [k] leaves added by [sigblkAddLeaf] with status 0, slot [j] of [roots] is
    occupied exactly when bit [j] of [k] is 1. With a hasher that does not
    fail, every run of fewer than [2 ^ (MAX_ROOTS - 1)] leaves is such a
    run. *)
Theorem sigblkAddLeaf_roots_binary_counter (ctx : rsksictx_s) (k0 : ksifile_s)
    (sys : SysIn) (k : ksifile_s) (leaves : list (list Z * Z * bool)) :
  disabled k0 = false ->
  sigblkInitKSI ctx (Some k0) sys = Some k ->
  (forall kn,
      sigblkAddLeaves k leaves = Some kn ->
      forall j : nat,
        root_at kn j <> None <-> Nat.testbit (length leaves) j = true)
  /\ ((forall bs, KSI_DataHasher_run bs <> None) ->
      (length leaves < 2 ^ (MAX_ROOTS - 1))%nat ->
      exists kn, sigblkAddLeaves k leaves = Some kn).
Proof.
  intros Hd Hi.
  destruct (sigblkInitKSI_fields ctx k0 sys)
    as (k1 & Hi1 & _ & _ & _ & _ & Hiv & _ & _ & Hd1).
  rewrite Hi in Hi1. inversion Hi1; subst k1.
  assert (Hd' : disabled k = false) by congruence.
  pose proof (sigblkInitKSI_roots_count _ _ _ _ Hi) as Hinv.
  split.
  - intros kn Hrun j.
    pose proof (sigblkAddLeaves_roots_count leaves k 0%nat kn Hd' Hinv Hrun)
      as (_ & _ & Hbits & _).
    cbn in Hbits. rewrite <- Hbits. unfold slot_used.
    destruct (root_at kn j); split; intros Hx; congruence.
  - intros Hh Hcap. apply (sigblkAddLeaves_total Hh leaves k 0%nat); try assumption.
    rewrite Hiv. discriminate.
Qed.

End Counter.

Lemma sigblkAddLeaf_roots_binary_counter_witness :
  let ctx := example_ctx 4 4 LOGSIG_ASYNCHRONOUS in
  let k0 := example_ksi 0 0 None in
  let leaves := [([65; 10], 2, false); ([66; 10], 2, false); ([1; 2; 3], 3, true);
                 ([67; 10], 2, false); ([68; 10], 2, false)] in
  exists k kn,
    @sigblkInitKSI test_env ctx (Some k0) example_sys = Some k
    /\ @sigblkAddLeaves test_env k leaves = Some kn
    /\ forall j : nat,
         root_at kn j <> None <-> Nat.testbit (length leaves) j = true.
Proof.
  intros ctx k0 leaves. eexists. eexists.
  split; [reflexivity|]. split; [vm_compute; reflexivity|].
  apply (proj1 (@sigblkAddLeaf_roots_binary_counter test_env ctx k0 example_sys _
                  leaves eq_refl eq_refl)).
  vm_compute. reflexivity.
Defined.

Example sigblkAddLeaves_five_leaves :
  let k := @sigblkInitKSI test_env (example_ctx 4 4 LOGSIG_ASYNCHRONOUS)
             (Some (example_ksi 0 0 None)) example_sys in
  match k with
  | Some k =>
      match @sigblkAddLeaves test_env k
              [([65; 10], 2, false); ([66; 10], 2, false); ([1; 2; 3], 3, true);
               ([67; 10], 2, false); ([68; 10], 2, false)] with
      | Some kn =>
          map (fun j => match root_at kn j with Some _ => true | None => false end)
              [0; 1; 2; 3]%nat
      | None => []
      end
  | None => []
  end = [true; false; true; false].
Proof. vm_compute. reflexivity. Qed.

(** * Further properties of the code *)

(** ** TLV headers and values on the wire *)

Section Wire.
Context `{KsiEnv}.

Lemma u8_small (x : Z) : 0 <= x < 256 -> u8 x = x.
Proof. intros Hx. unfold u8. apply Z.mod_small. assumption. Qed.

Lemma u16_small (x : Z) : 0 <= x < 65536 -> u16 x = x.
Proof. intros Hx. unfold u16. apply Z.mod_small. assumption. Qed.

Lemma u64_small (x : Z) : 0 <= x < 18446744073709551616 -> u64 x = x.
Proof. intros Hx. unfold u64. apply Z.mod_small. assumption. Qed.

Lemma shiftr_8 (x : Z) : Z.shiftr x 8 = x / 256.
Proof. rewrite Z.shiftr_div_pow2 by lia. reflexivity. Qed.

Lemma land_pow2_small (n x : Z) : 0 <= n -> 0 <= x < 2 ^ n -> Z.land (2 ^ n) x = 0.
Proof.
  intros Hn Hx. apply Z.bits_inj'. intros i Hi.
  rewrite Z.land_spec, Z.bits_0, Z.pow2_bits_eqb by lia.
  destruct (Z.eqb_spec n i) as [->|Hne]; [|reflexivity].
  cbn [andb]. destruct (Z.eq_dec x 0) as [->|Hx0]; [apply Z.bits_0|].
  apply Z.bits_above_log2; [lia|]. apply Z.log2_lt_pow2; lia.
Qed.

Lemma lor_pow2_small (n x : Z) : 0 <= n -> 0 <= x < 2 ^ n -> Z.lor (2 ^ n) x = 2 ^ n + x.
Proof.
  intros Hn Hx. pose proof (land_pow2_small n x Hn Hx) as Hl.
  rewrite <- (Z.lxor_lor _ _ Hl). symmetry. apply Z.add_nocarry_lxor. assumption.
Qed.

Lemma tlvGetHeaderSize_flags0 (tag : Z) :
  0 <= tag < 65536 ->
  tlvGetHeaderSize tag 0
  = if tag <=? 31 then 2 else if tag <? 8192 then 4 else 0.
Proof.
  intros Ht. unfold tlvGetHeaderSize, RSGT_TYPE_MASK.
  rewrite u16_small by assumption. change (u64 0 <=? 255) with true.
  change (u64 0 <=? 65535) with true. rewrite !andb_true_r, shiftr_8.
  destruct (Z.leb_spec tag 31); [reflexivity|].
  destruct (Z.leb_spec (tag / 256) 31) as [Hd|Hd];
    destruct (Z.ltb_spec tag 8192) as [Hl|Hl]; try reflexivity; exfalso.
  - assert (32 <= tag / 256) by (apply Z.div_le_lower_bound; lia). lia.
  - assert (tag / 256 < 32) by (apply Z.div_lt_upper_bound; lia). lia.
Qed.

Lemma tlvWriteHeader_long_tag (f : FILE) (tag len : Z) :
  31 < tag < 8192 -> 0 <= len <= 65535 ->
  tlvWriteHeader f 0 tag len
  = Some (tlvWriteOctetString f
            [128 + tag / 256; tag mod 256; len / 256; len mod 256] 4).
Proof.
  intros Ht Hl. unfold tlvWriteHeader.
  rewrite (u16_small tag), (u16_small len) by lia.
  rewrite tlvGetHeaderSize_flags0 by lia.
  replace (tag <=? 31) with false by (symmetry; apply Z.leb_gt; lia).
  replace (tag <? 8192) with true by (symmetry; apply Z.ltb_lt; lia).
  change (4 =? 2) with false. change (4 =? 4) with true. cbv iota.
  unfold tlvWriteHeader16.
  rewrite (u16_small tag), (u16_small len) by lia.
  assert (Hd : 0 <= tag / 256 <= 31).
  { split; [apply Z.div_pos; lia|].
    assert (tag / 256 < 32) by (apply Z.div_lt_upper_bound; lia). lia. }
  rewrite shiftr_8, !land_mask_small by lia.
  rewrite !Z.eqb_refl. cbn [assert bind ret].
  change (Z.shiftl (Z.lor 0 RSGT_FLAG_TLV16) 8) with (2 ^ 15).
  rewrite lor_pow2_small by (change (2 ^ 15) with 32768; lia).
  change (2 ^ 15) with 32768.
  rewrite (u16_small (32768 + tag)) by lia.
  rewrite !shiftr_8, !land_255.
  assert (H1 : (32768 + tag) / 256 = 128 + tag / 256).
  { replace (32768 + tag) with (128 * 256 + tag) by lia.
    rewrite Z.div_add_l by lia. reflexivity. }
  assert (H2 : (32768 + tag) mod 256 = tag mod 256).
  { replace (32768 + tag) with (tag + 128 * 256) by lia.
    apply Z.mod_add. lia. }
  assert (H3 : 0 <= len / 256 < 256).
  { split; [apply Z.div_pos; lia | apply Z.div_lt_upper_bound; lia]. }
  rewrite H1, H2, (u8_small (128 + tag / 256)) by lia.
  rewrite (Z.mod_small (len / 256) 256) by lia.
  reflexivity.
Qed.

Lemma tlvWriteOctetString_ok (bs data : list Z) (len : Z) :
  0 < len < 65536 ->
  tlvWriteOctetString (mkFILE bs false) data len
  = (0, mkFILE (bs ++ take (Z.to_nat len) data) false).
Proof.
  intros Hl. unfold tlvWriteOctetString, fwrite. rewrite u16_small by lia.
  cbn [ferror fbytes]. replace (len =? 0) with false by (symmetry; apply Z.eqb_neq; lia).
  reflexivity.
Qed.

Lemma tlvWriteOctetString_broken (f : FILE) (data : list Z) (len : Z) :
  ferror f = true -> tlvWriteOctetString f data len = (RSGTE_IO, f).
Proof.
  intros Hf. unfold tlvWriteOctetString, fwrite. rewrite Hf, orb_true_r.
  reflexivity.
Qed.

(** The header of a TLV whose tag needs more than 5 bits, on a healthy
    stream. *)
Lemma tlvWriteHeader_long_tag_ok (bs : list Z) (tag len : Z) :
  31 < tag < 8192 -> 0 <= len <= 65535 ->
  tlvWriteHeader (mkFILE bs false) 0 tag len
  = Some (0, mkFILE (bs ++ [128 + tag / 256; tag mod 256; len / 256; len mod 256])
               false).
Proof.
  intros Ht Hl. rewrite tlvWriteHeader_long_tag by assumption.
  rewrite tlvWriteOctetString_ok by lia. reflexivity.
Qed.

Lemma tlvWriteHeader_broken (f : FILE) (tag len : Z) :
  ferror f = true -> 0 <= tag < 8192 -> 0 <= len <= 65535 ->
  tlvWriteHeader f 0 tag len = Some (RSGTE_IO, f).
Proof.
  intros Hf Ht Hl. destruct (Z.le_gt_cases tag 31) as [Hs|Hs].
  - unfold tlvWriteHeader.
    rewrite (u16_small tag), (u16_small len), tlvGetHeaderSize_short by lia.
    change (2 =? 2) with true. cbv iota. unfold tlvWriteHeader8.
    rewrite (u8_small tag), !land_mask_small by lia.
    rewrite !Z.eqb_refl.
    cbn [assert bind ret]. rewrite tlvWriteOctetString_broken by assumption.
    reflexivity.
  - rewrite tlvWriteHeader_long_tag by lia.
    rewrite tlvWriteOctetString_broken by assumption. reflexivity.
Qed.

Lemma tlvWriteHeader_no_form (f : FILE) (tag len : Z) :
  8192 <= tag < 65536 -> tlvWriteHeader f 0 tag len = Some (0, f).
Proof.
  intros Ht. unfold tlvWriteHeader.
  rewrite (u16_small tag), tlvGetHeaderSize_flags0 by lia.
  replace (tag <=? 31) with false by (symmetry; apply Z.leb_gt; lia).
  replace (tag <? 8192) with false by (symmetry; apply Z.ltb_ge; lia).
  reflexivity.
Qed.

Lemma tlvWriteOctetStringTLV_short_ok (bs : list Z) (tag : Z) (data : list Z) (len : Z) :
  0 <= tag <= 31 -> 0 < len <= 65535 ->
  tlvWriteOctetStringTLV (mkFILE bs false) 0 tag data len
  = Some (0, mkFILE (bs ++ [tag; len mod 256] ++ take (Z.to_nat len) data) false).
Proof.
  intros Ht Hl. unfold tlvWriteOctetStringTLV. rewrite (u16_small len) by lia.
  rewrite tlvWriteHeader_short_tag by lia. cbn [bind].
  change (negb (0 =? 0)) with false. cbv iota. unfold fwrite. cbn [ferror fbytes].
  replace (len =? 0) with false by (symmetry; apply Z.eqb_neq; lia).
  cbn. rewrite <- app_assoc. reflexivity.
Qed.

Lemma tlvWriteOctetStringTLV_long_ok (bs : list Z) (tag : Z) (data : list Z) (len : Z) :
  31 < tag < 8192 -> 0 < len <= 65535 ->
  tlvWriteOctetStringTLV (mkFILE bs false) 0 tag data len
  = Some (0, mkFILE (bs ++ [128 + tag / 256; tag mod 256; len / 256; len mod 256]
                        ++ take (Z.to_nat len) data) false).
Proof.
  intros Ht Hl. unfold tlvWriteOctetStringTLV. rewrite (u16_small len) by lia.
  rewrite tlvWriteHeader_long_tag_ok by lia. cbn [bind].
  change (negb (0 =? 0)) with false. cbv iota. unfold fwrite. cbn [ferror fbytes].
  replace (len =? 0) with false by (symmetry; apply Z.eqb_neq; lia).
  cbn. rewrite <- app_assoc. reflexivity.
Qed.

End Wire.

Section WireLayout.
Context `{KsiEnv}.

Lemma CHKr_ok (f : FILE) (m : C (Z * FILE)) (k : FILE -> C (Z * FILE)) :
  m = Some (0, f) -> CHKr m k = k f.
Proof. intros ->. reflexivity. Qed.

Lemma CHKr_fail (r : Z) (f : FILE) (m : C (Z * FILE)) (k : FILE -> C (Z * FILE)) :
  m = Some (r, f) -> r <> 0 -> CHKr m k = Some (r, f).
Proof.
  intros -> Hr. unfold CHKr. cbn [bind].
  destruct (Z.eqb_spec r 0); [contradiction | reflexivity].
Qed.

Lemma tlvWriteHeader_len_u16 (f : FILE) (flags tag len : Z) :
  tlvWriteHeader f flags tag len = tlvWriteHeader f flags tag (u16 len).
Proof. unfold tlvWriteHeader. rewrite u16_idem. reflexivity. Qed.

Lemma tlvGetIntSize_range (val : Z) : 0 <= tlvGetIntSize val <= 8.
Proof.
  unfold tlvGetIntSize.
  destruct (tlvGetIntSize_loop_spec 8 (u64 val) 0) as (c & Hc & Hle & _).
  - unfold u64. change (256 ^ Z.of_nat 8) with 18446744073709551616.
    apply Z.mod_pos_bound. lia.
  - lia.
  - simpl. lia.
  - rewrite Hc. lia.
Qed.

Lemma tlvWriteOctetStringTLV_broken (f : FILE) (tag : Z) (data : list Z) (len : Z) :
  ferror f = true -> 0 <= tag < 8192 ->
  tlvWriteOctetStringTLV f 0 tag data len = Some (RSGTE_IO, f).
Proof.
  intros Hf Ht. unfold tlvWriteOctetStringTLV.
  pose proof (u16_range len) as Hl.
  rewrite tlvWriteHeader_broken by (assumption || lia). cbn [bind].
  destruct (Z.eqb_spec RSGTE_IO 0) as [He|_];
    [destruct (RSGTE_IO_nonzero He) | reflexivity].
Qed.

Lemma tlvWriteInt64TLV_broken (f : FILE) (tag val : Z) :
  ferror f = true -> 0 <= tag < 8192 ->
  tlvWriteInt64TLV f 0 tag val = Some (RSGTE_IO, f).
Proof.
  intros Hf Ht. unfold tlvWriteInt64TLV.
  pose proof (tlvGetIntSize_range (u64 val)) as Hc.
  rewrite tlvWriteHeader_broken by (assumption || lia). cbn [bind].
  destruct (Z.eqb_spec RSGTE_IO 0) as [He|_];
    [destruct (RSGTE_IO_nonzero He) | reflexivity].
Qed.

Lemma tlvWriteInt64TLV_ok (bs : list Z) (tlvtype val : Z) :
  0 <= tlvtype <= 31 -> 0 < val < 18446744073709551616 ->
  let count := tlvInt64_fill (Z.to_nat (tlvGetIntSize val)) val [] in
  tlvWriteInt64TLV (mkFILE bs false) 0 tlvtype val
  = Some (0, mkFILE (bs ++ [tlvtype; tlvGetIntSize val] ++ count) false)
  /\ 1 <= tlvGetIntSize val <= 8
  /\ Z.of_nat (length count) = tlvGetIntSize val
  /\ be_value count = val.
Proof.
  intros Ht Hv count.
  assert (Hu : u64 val = val) by (apply u64_small; lia).
  destruct (tlvGetIntSize_loop_spec 8 val 0) as (n & Hn & Hle & Hup & Hlo).
  { change (256 ^ Z.of_nat 8) with 18446744073709551616. lia. }
  { lia. }
  { simpl. lia. }
  rewrite Z.add_0_l in Hn.
  assert (Hn0 : n <> 0%nat).
  { intros ->. change (256 ^ Z.of_nat 0) with 1 in Hup. lia. }
  assert (Hsz : tlvGetIntSize val = Z.of_nat n).
  { unfold tlvGetIntSize. rewrite Hu. exact Hn. }
  destruct (tlvInt64_fill_spec n val []) as (pre & Hf & Hlen & Hval); [lia|].
  rewrite app_nil_r in Hf.
  assert (Hc : count = pre) by (subst count; rewrite Hsz, Nat2Z.id; exact Hf).
  rewrite Hc, Hsz. split; [|split; [lia|split; [lia|]]].
  - unfold tlvWriteInt64TLV. rewrite Hu, Hsz.
    rewrite tlvWriteHeader_short_tag by lia. cbn [bind].
    rewrite (Z.mod_small (Z.of_nat n) 256) by lia.
    change (negb (0 =? 0)) with false. cbv iota.
    rewrite Nat2Z.id, Hf. unfold fwrite. cbn [ferror fbytes].
    replace (Z.of_nat n =? 0) with false by (symmetry; apply Z.eqb_neq; lia).
    cbn [orb]. rewrite Nat2Z.id, <- Hlen, firstn_all.
    cbn. rewrite <- app_assoc. reflexivity.
  - rewrite Hval. apply Z.mod_small. lia.
Qed.

(** X1. A non-zero integer is written successfully as a TLV whose length
    byte is the least number of bytes that hold the value and whose payload is
    the value most significant byte first. *)
Theorem tlvWriteInt64TLV_minimal_big_endian (bs : list Z) (tlvtype val : Z) :
  0 <= tlvtype <= 31 -> 0 < val < 18446744073709551616 ->
  exists (n : nat) (payload : list Z),
    tlvGetIntSize val = Z.of_nat n
    /\ tlvWriteInt64TLV (mkFILE bs false) 0 tlvtype val
       = Some (0, mkFILE (bs ++ [tlvtype; Z.of_nat n] ++ payload) false)
    /\ length payload = n
    /\ be_value payload = val
    /\ 256 ^ (Z.of_nat n - 1) <= val < 256 ^ Z.of_nat n.
Proof.
  intros Ht Hv.
  destruct (tlvWriteInt64TLV_ok bs tlvtype val Ht Hv) as (Hw & Hr & Hlen & Hval).
  destruct (tlvGetIntSize_loop_spec 8 val 0) as (n & Hn & Hle & Hup & Hlo).
  { change (256 ^ Z.of_nat 8) with 18446744073709551616. lia. }
  { lia. }
  { simpl. lia. }
  assert (Hsz : tlvGetIntSize val = Z.of_nat n).
  { unfold tlvGetIntSize. rewrite u64_small by lia. rewrite Hn. lia. }
  assert (Hn0 : n <> 0%nat) by lia.
  exists n, (tlvInt64_fill (Z.to_nat (tlvGetIntSize val)) val []).
  rewrite <- Hsz. repeat split; try assumption; try lia.
  - rewrite Hsz. apply Hlo. exact Hn0.
  - rewrite Hsz. exact Hup.
Qed.

(** X2. With [flags = 0], a tag between 0x20 and 0x1fff gets the 4-byte
    header: the first byte has the high bit set and carries the high bits of
    the tag, and tag and length can be read back from the four bytes. *)
Theorem tlvWriteHeader_long_form (bs : list Z) (tag len : Z) :
  31 < tag < 8192 -> 0 <= len <= 65535 ->
  exists b0 b1 b2 b3,
    tlvWriteHeader (mkFILE bs false) 0 tag len
    = Some (0, mkFILE (bs ++ [b0; b1; b2; b3]) false)
    /\ 128 <= b0 < 160 /\ 0 <= b1 < 256 /\ 0 <= b2 < 256 /\ 0 <= b3 < 256
    /\ tag = (b0 - 128) * 256 + b1
    /\ len = b2 * 256 + b3.
Proof.
  intros Ht Hl.
  exists (128 + tag / 256), (tag mod 256), (len / 256), (len mod 256).
  split; [apply tlvWriteHeader_long_tag_ok; assumption|].
  pose proof (Z.div_mod tag 256 ltac:(lia)) as Hdt.
  pose proof (Z.mod_pos_bound tag 256 ltac:(lia)) as Hmt.
  pose proof (Z.div_mod len 256 ltac:(lia)) as Hdl.
  pose proof (Z.mod_pos_bound len 256 ltac:(lia)) as Hml.
  repeat split; lia.
Qed.

(** X3. A tag of 0x2000 or more has no header form: [tlvWriteHeader] writes
    nothing and still returns 0, so [tlvWriteOctetStringTLV] emits the bare
    value and reports success. *)
Theorem tlvWriteHeader_unencodable_tag_silent (f : FILE) (bs : list Z)
    (tag len : Z) (data : list Z) :
  8192 <= tag < 65536 -> 0 < len <= 65535 ->
  tlvWriteHeader f 0 tag len = Some (0, f)
  /\ tlvWriteOctetStringTLV (mkFILE bs false) 0 tag data len
     = Some (0, mkFILE (bs ++ take (Z.to_nat len) data) false).
Proof.
  intros Ht Hl. split; [apply tlvWriteHeader_no_form; assumption|].
  unfold tlvWriteOctetStringTLV. rewrite tlvWriteHeader_no_form by assumption.
  cbn [bind]. change (negb (0 =? 0)) with false. cbv iota.
  rewrite (u16_small len) by lia. unfold fwrite. cbn [ferror fbytes].
  replace (len =? 0) with false by (symmetry; apply Z.eqb_neq; lia).
  reflexivity.
Qed.

(** X4. On a stream whose error indicator is set, the header, octet-string
    and integer writers and the two signature-record writers return
    [RSGTE_IO] (not 0) and leave the stream as it was. *)
Theorem tlv_writers_on_broken_stream (f : FILE) (tag len val : Z)
    (data : list Z) (hash : option KSI_DataHash) (errorText : option (list Z)) :
  ferror f = true -> 0 <= tag < 8192 ->
  RSGTE_IO <> 0
  /\ tlvWriteHeader f 0 tag len = Some (RSGTE_IO, f)
  /\ tlvWriteOctetStringTLV f 0 tag data len = Some (RSGTE_IO, f)
  /\ tlvWriteInt64TLV f 0 tag val = Some (RSGTE_IO, f)
  /\ tlvWriteKSISigLS12 f val data len = Some (RSGTE_IO, f)
  /\ tlvWriteNoSigLS12 f val hash errorText = Some (RSGTE_IO, f).
Proof.
  intros Hf Ht. pose proof RSGTE_IO_nonzero as Hnz.
  assert (Hh : forall t l, 0 <= t < 8192 -> tlvWriteHeader f 0 t l = Some (RSGTE_IO, f)).
  { intros t l Ht'. rewrite tlvWriteHeader_len_u16.
    pose proof (u16_range l). apply tlvWriteHeader_broken; (assumption || lia). }
  split; [assumption|]. split; [apply Hh; assumption|].
  split; [apply tlvWriteOctetStringTLV_broken; assumption|].
  split; [apply tlvWriteInt64TLV_broken; assumption|].
  split.
  - unfold tlvWriteKSISigLS12. apply CHKr_fail; [apply Hh; lia | assumption].
  - unfold tlvWriteNoSigLS12. apply CHKr_fail; [apply Hh; lia | assumption].
Qed.

(** X5. An octet string of length 0: the header is written, the empty
    [fwrite] that follows counts 0 items, and the call reports [RSGTE_IO]. *)
Theorem tlvWriteOctetStringTLV_empty_value (bs : list Z) (tag : Z) (data : list Z) :
  0 <= tag <= 31 ->
  tlvWriteOctetStringTLV (mkFILE bs false) 0 tag data 0
  = Some (RSGTE_IO, mkFILE (bs ++ [tag; 0]) false)
  /\ RSGTE_IO <> 0.
Proof.
  intros Ht. split; [|apply RSGTE_IO_nonzero].
  unfold tlvWriteOctetStringTLV. change (u16 0) with 0.
  rewrite tlvWriteHeader_short_tag by lia. reflexivity.
Qed.

(** X6. The signature record: for a non-zero record count and a non-empty
    DER signature that fits, [tlvWriteKSISigLS12] writes the 4-byte header of
    tag 0x0904, the count as integer TLV 0x01 and the signature as TLV
    0x0905, and the length in the outer header is the number of bytes that
    follow it. *)
Theorem tlvWriteKSISigLS12_layout (bs : list Z) (record_count : Z) (der : list Z) :
  0 < record_count < 18446744073709551616 ->
  (0 < length der)%nat -> Z.of_nat (length der) <= 65000 ->
  exists count : list Z,
    let n := Z.of_nat (length count) in
    let lenDer := Z.of_nat (length der) in
    let body := [0x01; n] ++ count
                ++ [0x89; 0x05; lenDer / 256; lenDer mod 256] ++ der in
    let total := Z.of_nat (length body) in
    tlvWriteKSISigLS12 (mkFILE bs false) record_count der lenDer
    = Some (0, mkFILE (bs ++ [0x89; 0x04; total / 256; total mod 256] ++ body) false)
    /\ n = tlvGetIntSize record_count /\ be_value count = record_count
    /\ total = 2 + n + 4 + lenDer.
Proof.
  intros Hrc Hd0 Hd.
  exists (tlvInt64_fill (Z.to_nat (tlvGetIntSize record_count)) record_count []).
  cbv zeta.
  set (count := tlvInt64_fill _ _ _).
  set (lenDer := Z.of_nat (length der)).
  destruct (tlvWriteInt64TLV_ok [] 0x01 record_count ltac:(lia) Hrc)
    as (_ & Hr & Hlen & Hval).
  fold count in Hlen, Hval.
  assert (Htot : Z.of_nat (length ([1; Z.of_nat (length count)] ++ count
                   ++ [137; 5; lenDer / 256; lenDer mod 256] ++ der))
                 = 2 + Z.of_nat (length count) + 4 + lenDer).
  { rewrite !length_app. cbn [length]. subst lenDer. lia. }
  rewrite Htot. split; [|repeat split; assumption].
  unfold tlvWriteKSISigLS12. rewrite (u16_small lenDer) by (subst lenDer; lia).
  rewrite <- Hlen, s32_small by (subst lenDer; lia).
  rewrite (CHKr_ok (mkFILE (bs ++ [137; 4;
                                    (2 + Z.of_nat (length count) + 4 + lenDer) / 256;
                                    (2 + Z.of_nat (length count) + 4 + lenDer) mod 256])
                           false)).
  2: { rewrite tlvWriteHeader_long_tag_ok by (subst lenDer; lia). reflexivity. }
  destruct (tlvWriteInt64TLV_ok
              (bs ++ [137; 4; (2 + Z.of_nat (length count) + 4 + lenDer) / 256;
                      (2 + Z.of_nat (length count) + 4 + lenDer) mod 256])
              0x01 record_count ltac:(lia) Hrc) as (Hw & _).
  fold count in Hw. rewrite <- Hlen in Hw.
  rewrite (CHKr_ok _ _ _ Hw).
  rewrite tlvWriteOctetStringTLV_long_ok by (subst lenDer; lia).
  subst lenDer. rewrite Nat2Z.id, firstn_all.
  change (128 + 2309 / 256) with 137. change (2309 mod 256) with 5.
  rewrite <- !app_assoc. reflexivity.
Qed.

End WireLayout.

Section WireRecords.
Context `{KsiEnv}.

(** X7. The no-signature record: for a non-zero record count, a non-empty
    root imprint and an optional error text that together stay below 256
    bytes, [tlvWriteNoSigLS12] writes the header of tag 0x0904, the count as
    TLV 0x01, and a TLV 0x02 that nests the imprint (TLV 0x01) and the text
    with its terminating NUL (TLV 0x02); every length byte is the size of
    what it covers. *)
Theorem tlvWriteNoSigLS12_layout (bs : list Z) (record_count : Z)
    (imprint : KSI_DataHash) (errorText : option (list Z)) :
  0 < record_count < 18446744073709551616 ->
  (0 < length imprint)%nat ->
  let text :=
    match errorText with
    | Some t => [0x02; Z.of_nat (length t) + 1] ++ t ++ [0]
    | None => []
    end in
  let nosig := [0x01; Z.of_nat (length imprint)] ++ imprint ++ text in
  Z.of_nat (length nosig) <= 255 ->
  exists count : list Z,
    let n := Z.of_nat (length count) in
    let body := [0x01; n] ++ count ++ [0x02; Z.of_nat (length nosig)] ++ nosig in
    let total := Z.of_nat (length body) in
    tlvWriteNoSigLS12 (mkFILE bs false) record_count (Some imprint) errorText
    = Some (0, mkFILE (bs ++ [0x89; 0x04; total / 256; total mod 256] ++ body) false)
    /\ n = tlvGetIntSize record_count /\ be_value count = record_count.
Proof.
  intros Hrc Hi text nosig HS.
  exists (tlvInt64_fill (Z.to_nat (tlvGetIntSize record_count)) record_count []).
  cbv zeta. set (count := tlvInt64_fill _ _ _).
  destruct (tlvWriteInt64TLV_ok [] 0x01 record_count ltac:(lia) Hrc)
    as (_ & Hr & Hlen & Hval).
  fold count in Hlen, Hval.
  split; [|split; assumption].
  set (L := Z.of_nat (length imprint)).
  set (e := match errorText with
            | Some t => 2 + Z.of_nat (length t) + 1
            | None => 0
            end).
  assert (Htext : Z.of_nat (length text) = e).
  { subst text e. destruct errorText as [t|]; [|reflexivity].
    cbn [app length]. rewrite !length_app. cbn [length]. lia. }
  assert (HSeq : Z.of_nat (length nosig) = 2 + L + e).
  { subst nosig. rewrite !length_app. cbn [length]. subst L. lia. }
  assert (He0 : 0 <= e) by lia.
  assert (Htot : Z.of_nat (length ([1; Z.of_nat (length count)] ++ count
                   ++ [2; Z.of_nat (length nosig)] ++ nosig))
                 = 2 + Z.of_nat (length count) + 2 + (2 + L + e)).
  { rewrite !length_app. cbn [length]. lia. }
  rewrite Htot.
  unfold tlvWriteNoSigLS12. change (default [] (Some imprint)) with imprint.
  cbv zeta. fold L. fold e.
  rewrite <- Hlen.
  rewrite (s32_small (2 + L + e)) by lia.
  rewrite (s32_small (2 + Z.of_nat (length count) + 2 + (2 + L + e))) by lia.
  set (T := 2 + Z.of_nat (length count) + 2 + (2 + L + e)).
  rewrite (CHKr_ok (mkFILE (bs ++ [137; 4; T / 256; T mod 256]) false)).
  2: { rewrite tlvWriteHeader_long_tag_ok by (subst T; lia). reflexivity. }
  destruct (tlvWriteInt64TLV_ok (bs ++ [137; 4; T / 256; T mod 256])
              0x01 record_count ltac:(lia) Hrc) as (Hw & _).
  fold count in Hw. rewrite <- Hlen in Hw.
  rewrite (CHKr_ok _ _ _ Hw).
  erewrite CHKr_ok by (apply tlvWriteHeader_short_tag; lia).
  erewrite CHKr_ok by (apply tlvWriteOctetStringTLV_short_ok; subst L; lia).
  rewrite (Z.mod_small (2 + L + e) 256) by lia.
  rewrite (Z.mod_small L 256) by lia.
  subst L. rewrite Nat2Z.id, firstn_all.
  rewrite HSeq. subst nosig text.
  destruct errorText as [t|].
  - rewrite tlvWriteOctetStringTLV_short_ok by (subst e; lia).
    rewrite (Z.mod_small (Z.of_nat (length t) + 1) 256) by (subst e; lia).
    replace (Z.to_nat (Z.of_nat (length t) + 1)) with (length (t ++ [0]))
      by (rewrite length_app; cbn [length]; lia).
    rewrite firstn_all. rewrite <- !app_assoc. reflexivity.
  - unfold ret. rewrite <- !app_assoc. rewrite !app_nil_r. reflexivity.
Qed.

(** X8. The block header: with a hash length between 1 and 250 for the
    block's algorithm and for the algorithm of [lastLeaf], a seeded IV of that
    many bytes and a full imprint in [lastLeaf], [tlvWriteBlockHdrKSI] writes
    the header of tag 0x0901 and the three TLVs 0x01 (algorithm id), 0x02
    (IV) and 0x03 (last leaf imprint), the outer length being the size of
    the three. *)
Theorem tlvWriteBlockHdrKSI_layout (ksi : ksifile_s) (bs iv : list Z) :
  blockFile ksi = mkFILE bs false ->
  IV ksi = Some iv ->
  let h := KSI_getHashLength (hashAlg ksi) in
  let h' := KSI_getHashLength (hd 0 (lastLeaf ksi)) in
  1 <= h <= 250 -> 0 <= h' <= 250 ->
  Z.of_nat (length iv) = h ->
  h' + 1 <= Z.of_nat (length (lastLeaf ksi)) ->
  let last := take (Z.to_nat (h' + 1)) (lastLeaf ksi) in
  let body := [0x01; 0x01; u8 (hashAlg ksi)] ++ [0x02; h] ++ iv
              ++ [0x03; h' + 1] ++ last in
  let total := Z.of_nat (length body) in
  tlvWriteBlockHdrKSI ksi
  = Some (0, set_blockFile
               (mkFILE (bs ++ [0x89; 0x01; total / 256; total mod 256] ++ body) false)
               ksi)
  /\ total = 3 + (2 + h) + (2 + h' + 1).
Proof.
  intros Hf Hiv h h' Hh Hh' Hlen Hll last body total.
  assert (Hlast : Z.of_nat (length last) = h' + 1).
  { subst last. rewrite length_take. lia. }
  assert (Htot : total = 3 + (2 + h) + (2 + h' + 1)).
  { subst total body. rewrite !length_app. cbn [length]. lia. }
  split; [|exact Htot].
  unfold tlvWriteBlockHdrKSI. rewrite Hf, Hiv. cbn [default].
  fold h. fold h'.
  rewrite (u32_small (2 + 1 + 2 + h + 2 + h' + 1)) by lia.
  erewrite CHKr_ok by (apply tlvWriteHeader_long_tag_ok; lia).
  erewrite CHKr_ok by (apply tlvWriteOctetStringTLV_short_ok; lia).
  erewrite CHKr_ok by (apply tlvWriteOctetStringTLV_short_ok; lia).
  rewrite tlvWriteOctetStringTLV_short_ok by lia. cbn [bind ret].
  rewrite (Z.mod_small h 256), (Z.mod_small (h' + 1) 256) by lia.
  replace (Z.to_nat h) with (length iv) by lia. rewrite firstn_all.
  fold last. rewrite Htot.
  replace (2 + 1 + 2 + h + 2 + h' + 1) with (3 + (2 + h) + (2 + h' + 1)) by lia.
  change (128 + 2305 / 256) with 137. change (2305 mod 256) with 1.
  change (1 mod 256) with 1. change (Z.to_nat 1) with 1%nat.
  subst body. cbn [take]. rewrite <- !app_assoc. reflexivity.
Qed.

End WireRecords.

Lemma tlvWriteInt64TLV_minimal_big_endian_witness :
  exists (n : nat) (payload : list Z),
    tlvGetIntSize 0x012345 = Z.of_nat n
    /\ @tlvWriteInt64TLV test_env (mkFILE [7] false) 0 0x01 0x012345
       = Some (0, mkFILE ([7] ++ [0x01; Z.of_nat n] ++ payload) false)
    /\ length payload = n
    /\ be_value payload = 0x012345
    /\ 256 ^ (Z.of_nat n - 1) <= 0x012345 < 256 ^ Z.of_nat n.
Proof.
  apply (@tlvWriteInt64TLV_minimal_big_endian test_env [7] 0x01 0x012345); lia.
Defined.

Lemma tlvWriteHeader_long_form_witness :
  exists b0 b1 b2 b3,
    @tlvWriteHeader test_env (mkFILE [] false) 0 0x0904 300
    = Some (0, mkFILE ([] ++ [b0; b1; b2; b3]) false)
    /\ 128 <= b0 < 160 /\ 0 <= b1 < 256 /\ 0 <= b2 < 256 /\ 0 <= b3 < 256
    /\ 0x0904 = (b0 - 128) * 256 + b1
    /\ 300 = b2 * 256 + b3.
Proof.
  apply (@tlvWriteHeader_long_form test_env [] 0x0904 300); lia.
Defined.

Lemma tlvWriteHeader_unencodable_tag_silent_witness :
  @tlvWriteHeader test_env (mkFILE [7] false) 0 0x2000 2 = Some (0, mkFILE [7] false)
  /\ @tlvWriteOctetStringTLV test_env (mkFILE [7] false) 0 0x2000 [5; 6] 2
     = Some (0, mkFILE [7; 5; 6] false).
Proof.
  apply (@tlvWriteHeader_unencodable_tag_silent test_env (mkFILE [7] false) [7]
           0x2000 2 [5; 6]); lia.
Defined.

Lemma tlv_writers_on_broken_stream_witness :
  let f := mkFILE [7] true in
  @RSGTE_IO test_env <> 0
  /\ @tlvWriteHeader test_env f 0 0x0904 2 = Some (@RSGTE_IO test_env, f)
  /\ @tlvWriteOctetStringTLV test_env f 0 0x0904 [5; 6] 2 = Some (@RSGTE_IO test_env, f)
  /\ @tlvWriteInt64TLV test_env f 0 0x0904 3 = Some (@RSGTE_IO test_env, f)
  /\ @tlvWriteKSISigLS12 test_env f 3 [5; 6] 2 = Some (@RSGTE_IO test_env, f)
  /\ @tlvWriteNoSigLS12 test_env f 3 (Some [1; 7; 7]) None = Some (@RSGTE_IO test_env, f).
Proof.
  apply (@tlv_writers_on_broken_stream test_env (mkFILE [7] true) 0x0904 2 3
           [5; 6] (Some [1; 7; 7]) None); [reflexivity | lia].
Defined.

Lemma tlvWriteOctetStringTLV_empty_value_witness :
  @tlvWriteOctetStringTLV test_env (mkFILE [7] false) 0 0x02 [] 0
  = Some (@RSGTE_IO test_env, mkFILE [7; 0x02; 0] false)
  /\ @RSGTE_IO test_env <> 0.
Proof.
  apply (@tlvWriteOctetStringTLV_empty_value test_env [7] 0x02 []); lia.
Defined.

Lemma tlvWriteKSISigLS12_layout_witness :
  exists count : list Z,
    let n := Z.of_nat (length count) in
    let body := [0x01; n] ++ count ++ [0x89; 0x05; 0; 3] ++ [0x30; 5; 6] in
    let total := Z.of_nat (length body) in
    @tlvWriteKSISigLS12 test_env (mkFILE [] false) 515 [0x30; 5; 6] 3
    = Some (0, mkFILE ([] ++ [0x89; 0x04; total / 256; total mod 256] ++ body) false)
    /\ n = tlvGetIntSize 515 /\ be_value count = 515
    /\ total = 2 + n + 4 + 3.
Proof.
  apply (@tlvWriteKSISigLS12_layout test_env [] 515 [0x30; 5; 6]);
    cbn [length]; lia.
Defined.

Lemma tlvWriteNoSigLS12_layout_witness :
  exists count : list Z,
    let n := Z.of_nat (length count) in
    let nosig := [0x01; 3; 1; 7; 7; 0x02; 2; 69; 0] in
    let body := [0x01; n] ++ count ++ [0x02; 9] ++ nosig in
    let total := Z.of_nat (length body) in
    @tlvWriteNoSigLS12 test_env (mkFILE [] false) 3 (Some [1; 7; 7]) (Some [69])
    = Some (0, mkFILE ([] ++ [0x89; 0x04; total / 256; total mod 256] ++ body) false)
    /\ n = tlvGetIntSize 3 /\ be_value count = 3.
Proof.
  apply (@tlvWriteNoSigLS12_layout test_env [] 3 [1; 7; 7] (Some [69]));
    cbn [length app]; lia.
Defined.

Lemma tlvWriteBlockHdrKSI_layout_witness :
  let ksi := example_ksi 8 0 (Some [9; 9]) in
  @tlvWriteBlockHdrKSI test_env ksi
  = Some (0, set_blockFile
               (mkFILE [0x89; 0x01; 0; 12; 0x01; 0x01; 1; 0x02; 2; 9; 9;
                        0x03; 3; 1; 0; 0] false) ksi)
  /\ 12 = 3 + (2 + 2) + (2 + 2 + 1).
Proof.
  apply (@tlvWriteBlockHdrKSI_layout test_env (example_ksi 8 0 (Some [9; 9]))
           [] [9; 9]); try reflexivity; cbn; lia.
Defined.

(** ** Merkle accumulator: failures, what a leaf changes, the block file *)

Section Accumulator.
Context `{KsiEnv}.

Lemma sigblkAddLeaf_carry_settings n :
  forall j ksi t r ksi' t',
    sigblkAddLeaf_carry n j ksi t = Some (r, ksi', t') ->
    block_settings ksi' = block_settings ksi /\ bInBlk ksi' = bInBlk ksi
    /\ blockSizeLimit ksi' = blockSizeLimit ksi
    /\ blockStarted ksi' = blockStarted ksi.
Proof.
  induction n as [|n IH]; intros j ksi t r ksi' t' Hc; cbn [sigblkAddLeaf_carry] in Hc.
  - inversion Hc; subst. repeat split.
  - destruct (root_at ksi j) as [rj|].
    + destruct (sigblkHashTwoNodes ksi rj t (Z.of_nat j + 2)) as [r0 [t2|]].
      * bind_inv Hc. destruct (write_hash_if_frame _ _ _ _ _ E) as [f ->].
        apply IH in Hc. exact Hc.
      * inversion Hc; subst. repeat split.
    + inversion Hc; subst. repeat split.
Qed.

Lemma sigblkAddLeaf_carry_quiet n :
  forall j ksi t r ksi' t',
    bKeepTreeHashes ksi = false ->
    sigblkAddLeaf_carry n j ksi t = Some (r, ksi', t') ->
    blockFile ksi' = blockFile ksi.
Proof.
  induction n as [|n IH]; intros j ksi t r ksi' t' Hk Hc; cbn [sigblkAddLeaf_carry] in Hc.
  - inversion Hc; subst. reflexivity.
  - destruct (root_at ksi j) as [rj|].
    + destruct (sigblkHashTwoNodes ksi rj t (Z.of_nat j + 2)) as [r0 [t2|]].
      * change (bKeepTreeHashes (set_root j None ksi)) with (bKeepTreeHashes ksi) in Hc.
        rewrite Hk in Hc. cbn [write_hash_if bind ret] in Hc.
        apply IH in Hc; [exact Hc | exact Hk].
      * inversion Hc; subst. reflexivity.
    + inversion Hc; subst. reflexivity.
Qed.

Lemma sigblkAddLeaf_hasher_fails (k : ksifile_s) (iv leafData : list Z)
    (leafLength : Z) (metadata : bool) :
  disabled k = false ->
  IV k = Some iv ->
  KSI_DataHasher_run (mask_input k iv) = None
  \/ KSI_DataHasher_run (take (Z.to_nat leafLength) leafData) = None ->
  sigblkAddLeaf (Some k) leafData leafLength metadata
  = Some (RSGTE_HASH_CREATE, Some k).
Proof.
  intros Hd Hiv Hfail. unfold sigblkAddLeaf. rewrite Hd.
  unfold sigblkCreateMask. rewrite Hiv. fold (mask_input k iv).
  destruct (KSI_DataHasher_run (mask_input k iv)) as [mask|] eqn:Hm; [|reflexivity].
  destruct Hfail as [Hf|Hf]; [discriminate Hf|].
  unfold sigblkCreateHash. rewrite Hf. reflexivity.
Qed.

(** X9. When the hasher fails on the mask or on the record, [sigblkAddLeaf]
    returns [RSGTE_HASH_CREATE] (not 0) and the handle is as before: nothing
    is counted, stored or written; [sigblkAddRecordKSI] hands the status on
    and neither closes the block nor queues a request. *)
Theorem sigblkAddLeaf_hash_failure (ctx : rsksictx_s) (k : ksifile_s) (iv : list Z)
    (leafData : list Z) (leafLength : Z) (metadata : bool) (sys : SysIn) :
  disabled k = false ->
  IV k = Some iv ->
  KSI_DataHasher_run (mask_input k iv) = None
  \/ KSI_DataHasher_run (take (Z.to_nat leafLength) leafData) = None ->
  RSGTE_HASH_CREATE <> 0
  /\ sigblkAddLeaf (Some k) leafData leafLength metadata
     = Some (RSGTE_HASH_CREATE, Some k)
  /\ sigblkAddRecordKSI ctx (Some k) leafData leafLength sys
     = Some (RSGTE_HASH_CREATE, ctx, Some k).
Proof.
  intros Hd Hiv Hfail. pose proof RSGTE_HASH_CREATE_nonzero as Hnz.
  assert (Hl : forall md, sigblkAddLeaf (Some k) leafData leafLength md
                          = Some (RSGTE_HASH_CREATE, Some k)).
  { intros md. apply (sigblkAddLeaf_hasher_fails k iv); assumption. }
  split; [exact Hnz|]. split; [apply Hl|].
  unfold sigblkAddRecordKSI. rewrite Hd, Hl. cbn [bind].
  replace (RSGTE_HASH_CREATE =? 0) with false
    by (symmetry; apply Z.eqb_neq; exact Hnz).
  reflexivity.
Qed.

Lemma sigblkAddLeaf_settings (k : ksifile_s) (leafData : list Z)
    (leafLength : Z) (metadata : bool) (k' : ksifile_s) :
  disabled k = false ->
  sigblkAddLeaf (Some k) leafData leafLength metadata = Some (0, Some k') ->
  block_settings k' = block_settings k.
Proof.
  intros Hd Ha.
  destruct (sigblkAddLeaf_inv _ _ _ _ _ Hd Ha)
    as (iv & mask & leafHash & node & f & k6 & t' & _ & _ & _ & _ & Hc & Hk').
  pose proof (sigblkAddLeaf_carry_settings _ _ _ _ _ _ _ Hc) as (Hs & _).
  destruct t' as [t|]; [destruct Hk' as [_ ->] | subst k']; exact Hs.
Qed.

(** X10. A leaf added with status 0 counts as one record (modulo 2^64),
    leaves the settings of the handle, the IV, the block size limit and the
    in-block flag as they were, keeps the size of the roots array, and uses
    at most one more root slot. *)
Theorem sigblkAddLeaf_one_more_record (k : ksifile_s) (leafData : list Z)
    (leafLength : Z) (metadata : bool) (k' : ksifile_s) :
  disabled k = false ->
  sigblkAddLeaf (Some k) leafData leafLength metadata = Some (0, Some k') ->
  nRecords k' = u64 (nRecords k + 1)
  /\ block_settings k' = block_settings k
  /\ IV k' = IV k /\ blockSizeLimit k' = blockSizeLimit k /\ bInBlk k' = bInBlk k
  /\ length (roots k') = length (roots k)
  /\ (nRoots k' = nRoots k \/ nRoots k' = S (nRoots k)).
Proof.
  intros Hd Ha.
  destruct (sigblkAddLeaf_inv _ _ _ _ _ Hd Ha)
    as (iv & mask & leafHash & node & f & k6 & t' & _ & _ & _ & _ & Hc & Hk').
  pose proof (sigblkAddLeaf_carry_frame _ _ _ _ _ _ _ Hc)
    as (_ & Hnr & Hrec & _ & Hlen & Hiv).
  pose proof (sigblkAddLeaf_carry_settings _ _ _ _ _ _ _ Hc) as (Hs & Hb & Hl & _).
  cbn in Hnr, Hrec, Hlen, Hiv, Hs, Hb, Hl.
  destruct t' as [t|].
  - destruct Hk' as [_ ->]. cbn. rewrite length_insert.
    repeat split;
      first [assumption | congruence | exact Hs | right; congruence].
  - subst k'. cbn.
    repeat split;
      first [assumption | congruence | exact Hs | left; congruence].
Qed.

(** X11. With both keep options off, a record that is not the first of its
    block leaves the block file as it was, whatever the status. *)
Theorem sigblkAddLeaf_quiet (k : ksifile_s) (leafData : list Z) (leafLength r : Z)
    (k' : ksifile_s) :
  disabled k = false ->
  bKeepRecordHashes k = false -> bKeepTreeHashes k = false ->
  nRecords k <> 0 ->
  sigblkAddLeaf (Some k) leafData leafLength false = Some (r, Some k') ->
  blockFile k' = blockFile k.
Proof.
  intros Hd Hr Ht Hn Ha. unfold sigblkAddLeaf in Ha. rewrite Hd in Ha.
  destruct (sigblkCreateMask k) as [rm [mask|]]; [|inversion Ha; reflexivity].
  destruct (sigblkCreateHash k leafData leafLength) as [rh [leafHash|]];
    [|inversion Ha; reflexivity].
  replace (nRecords k =? 0) with false in Ha by (symmetry; apply Z.eqb_neq; exact Hn).
  cbn [bind ret] in Ha. rewrite Hr in Ha. cbn [write_hash_if bind ret negb] in Ha.
  destruct (sigblkHashTwoNodes k mask leafHash 1) as [r2 [node|]];
    [|inversion Ha; reflexivity].
  rewrite Ht in Ha. cbn [write_hash_if bind ret] in Ha.
  bind_inv Ha. destruct p as [[rc k6] t'].
  apply sigblkAddLeaf_carry_quiet in E; [|exact Ht]. cbn in E.
  destruct (negb (rc =? 0)); [inversion Ha; subst; exact E|].
  destruct t' as [t|].
  - bind_inv Ha. bind_inv E0. inversion E0; subst. inversion Ha; subst. exact E.
  - inversion Ha; subst. exact E.
Qed.

End Accumulator.

(** ** Closing a block *)

Section Finish.
Context `{KsiEnv}.

Lemma slot_used_clear ksi j : slot_used (set_root j None ksi) j = false.
Proof.
  unfold slot_used, root_at, set_root. cbn.
  destruct (decide (j < length (roots ksi))%nat) as [Hlt|Hge].
  - rewrite list_lookup_insert_eq by exact Hlt. reflexivity.
  - rewrite (lookup_ge_None_2 (<[j:=None]> (roots ksi)) j)
      by (rewrite length_insert; lia).
    reflexivity.
Qed.

Lemma sigblkSign_frame ksi hash level r k' :
  sigblkSign ksi hash level = Some (r, k') -> exists f, k' = set_blockFile f ksi.
Proof.
  unfold sigblkSign. intros Hs.
  destruct (KSI_sign (default [] hash) (s32 level)) as [e|der].
  - bind_inv Hs. destruct p as [r0 f]. inversion Hs; subst. eauto.
  - bind_inv Hs. destruct p as [r0 f]. inversion Hs; subst. eauto.
Qed.

Lemma sigblkFinishKSI_fold_frame n :
  forall j ksi root r ksi' root',
    sigblkFinishKSI_fold n j ksi root = Some (r, ksi', root') ->
    lastLeaf ksi' = lastLeaf ksi /\ nRoots ksi' = nRoots ksi
    /\ block_settings ksi' = block_settings ksi
    /\ blockSizeLimit ksi' = blockSizeLimit ksi
    /\ blockStarted ksi' = blockStarted ksi
    /\ length (roots ksi') = length (roots ksi).
Proof.
  induction n as [|n IH]; intros j ksi root r ksi' root' Hf;
    cbn [sigblkFinishKSI_fold] in Hf.
  - inversion Hf; subst. repeat split.
  - destruct root as [rootDel|].
    + destruct (root_at ksi j) as [rj|]; [|eapply IH; eassumption].
      destruct (sigblkHashTwoNodes ksi rj rootDel (Z.of_nat j + 2)) as [r0 [t|]].
      * bind_inv Hf. destruct (write_hash_if_frame _ _ _ _ _ E) as [f ->].
        apply IH in Hf. cbn in Hf. rewrite length_insert in Hf. exact Hf.
      * destruct (bKeepTreeHashes (set_root j None ksi)); [discriminate Hf|].
        inversion Hf; subst. cbn. rewrite length_insert. repeat split.
    + apply IH in Hf. cbn in Hf. rewrite length_insert in Hf. exact Hf.
Qed.

Lemma sigblkFinishKSI_fold_clears n :
  forall j ksi root ksi' root',
    sigblkFinishKSI_fold n j ksi root = Some (0, ksi', root') ->
    (forall i, (i < j)%nat -> slot_used ksi i = false) ->
    (forall i, (j + n <= i)%nat -> slot_used ksi i = false) ->
    forall i, slot_used ksi' i = false.
Proof.
  induction n as [|n IH]; intros j ksi root ksi' root' Hf Hlo Hhi;
    cbn [sigblkFinishKSI_fold] in Hf.
  - inversion Hf; subst. intros i.
    destruct (decide (i < j)%nat); [apply Hlo | apply Hhi]; lia.
  - assert (Hclr : forall f i, (i < S j)%nat ->
               slot_used (set_blockFile f (set_root j None ksi)) i = false).
    { intros f i Hi. rewrite slot_used_set_blockFile.
      destruct (decide (i = j)) as [->|Hne]; [apply slot_used_clear|].
      rewrite slot_used_set_root_ne by exact Hne. apply Hlo. lia. }
    assert (Hup : forall f i, (S j + n <= i)%nat ->
               slot_used (set_blockFile f (set_root j None ksi)) i = false).
    { intros f i Hi. rewrite slot_used_set_blockFile.
      rewrite slot_used_set_root_ne by lia. apply Hhi. lia. }
    destruct root as [rootDel|].
    + destruct (root_at ksi j) as [rj|] eqn:Hrj.
      * destruct (sigblkHashTwoNodes ksi rj rootDel (Z.of_nat j + 2))
          as [r0 [t|]] eqn:Htw.
        -- bind_inv Hf. destruct (write_hash_if_frame _ _ _ _ _ E) as [f ->].
           eapply IH; [exact Hf | apply Hclr | apply Hup].
        -- destruct (bKeepTreeHashes (set_root j None ksi)); [discriminate Hf|].
           inversion Hf; subst. apply sigblkHashTwoNodes_fail in Htw. congruence.
      * eapply IH; [exact Hf | |].
        -- intros i Hi. destruct (decide (i = j)) as [->|Hne].
           ++ unfold slot_used. rewrite Hrj. reflexivity.
           ++ apply Hlo. lia.
        -- intros i Hi. apply Hhi. lia.
    + eapply IH; [exact Hf | |].
      * intros i Hi. rewrite <- (slot_used_set_blockFile _ (blockFile ksi)).
        apply Hclr. exact Hi.
      * intros i Hi. rewrite <- (slot_used_set_blockFile _ (blockFile ksi)).
        apply Hup. exact Hi.
Qed.

Lemma sigblkFinishKSI_fold_status n :
  (forall bs, KSI_DataHasher_run bs <> None) ->
  forall j ksi root r ksi' root',
    sigblkFinishKSI_fold n j ksi root = Some (r, ksi', root') -> r = 0.
Proof.
  intros Hh. induction n as [|n IH]; intros j ksi root r ksi' root' Hf;
    cbn [sigblkFinishKSI_fold] in Hf.
  - inversion Hf; subst. reflexivity.
  - destruct root as [rootDel|]; [|eapply IH; eassumption].
    destruct (root_at ksi j) as [rj|]; [|eapply IH; eassumption].
    destruct (sigblkHashTwoNodes_total Hh ksi rj rootDel (Z.of_nat j + 2)) as [t Ht].
    rewrite Ht in Hf. bind_inv Hf. eapply IH; eassumption.
Qed.

Lemma sigblkFinishKSI_fold_broken n :
  forall j ksi root r ksi' root',
    ferror (blockFile ksi) = true ->
    sigblkFinishKSI_fold n j ksi root = Some (r, ksi', root') ->
    blockFile ksi' = blockFile ksi.
Proof.
  induction n as [|n IH]; intros j ksi root r ksi' root' Hb Hf;
    cbn [sigblkFinishKSI_fold] in Hf.
  - inversion Hf; subst. reflexivity.
  - destruct root as [rootDel|].
    + destruct (root_at ksi j) as [rj|]; [|eapply IH; eassumption].
      destruct (sigblkHashTwoNodes ksi rj rootDel (Z.of_nat j + 2)) as [r0 [t|]].
      * assert (Hw : write_hash_if (bKeepTreeHashes (set_root j None ksi))
                       (set_root j None ksi) 0x0903 t = Some (set_root j None ksi)).
        { unfold write_hash_if. destruct (bKeepTreeHashes _); [|reflexivity].
          unfold tlvWriteHashKSI.
          rewrite tlvWriteOctetStringTLV_broken by (cbn; (assumption || lia)).
          cbn. reflexivity. }
        rewrite Hw in Hf. cbn [bind] in Hf. apply IH in Hf; [exact Hf | exact Hb].
      * destruct (bKeepTreeHashes (set_root j None ksi)); [discriminate Hf|].
        inversion Hf; subst. reflexivity.
    + apply IH in Hf; [exact Hf | exact Hb].
Qed.

Lemma tlvWriteNoSigLS12_broken (f : FILE) (val : Z) (hash : option KSI_DataHash)
    (errorText : option (list Z)) :
  ferror f = true -> tlvWriteNoSigLS12 f val hash errorText = Some (RSGTE_IO, f).
Proof.
  intros Hf. unfold tlvWriteNoSigLS12.
  apply CHKr_fail; [|apply RSGTE_IO_nonzero].
  rewrite tlvWriteHeader_len_u16. pose proof (u16_range (s32 (2 + tlvGetIntSize val + 2
    + s32 (2 + Z.of_nat (length (default [] hash))
           + match errorText with
             | Some t => 2 + Z.of_nat (length t) + 1
             | None => 0
             end)))).
  apply tlvWriteHeader_broken; (assumption || lia).
Qed.

Lemma sigblkFinishKSI_settings ctx ksi sys r ctx' ksi' :
  sigblkFinishKSI ctx ksi sys = Some (r, ctx', ksi') ->
  lastLeaf ksi' = lastLeaf ksi /\ block_settings ksi' = block_settings ksi.
Proof.
  unfold sigblkFinishKSI. intros Hf.
  destruct (nRecords ksi =? 0); [inversion Hf; subst; split; reflexivity|].
  bind_inv Hf. destruct p as [[r0 k0] root].
  pose proof (sigblkFinishKSI_fold_frame _ _ _ _ _ _ _ E) as (Hll & _ & Hs & _).
  destruct (negb (r0 =? 0)); [inversion Hf; subst; split; assumption|].
  destruct (syncMode ctx).
  - bind_inv Hf. destruct p as [r1 f]. inversion Hf; subst. split; assumption.
  - bind_inv Hf. destruct p as [r1 k1]. inversion Hf; subst.
    destruct (sigblkSign_frame _ _ _ _ _ E0) as [f ->]. split; assumption.
Qed.

Lemma sigblkFinishKSI_clears (ctx : rsksictx_s) (ksi : ksifile_s)
    (sys : SysIn) (m : nat) (r : Z) (ctx' : rsksictx_s) (ksi' : ksifile_s) :
  (forall bs, KSI_DataHasher_run bs <> None) ->
  roots_count ksi m ->
  nRecords ksi <> 0 ->
  sigblkFinishKSI ctx ksi sys = Some (r, ctx', ksi') ->
  (forall i, root_at ksi' i = None)
  /\ IV ksi' = None /\ bInBlk ksi' = 0
  /\ lastLeaf ksi' = lastLeaf ksi /\ nRecords ksi' = nRecords ksi
  /\ block_settings ksi' = block_settings ksi.
Proof.
  intros Hh (Hlen & Hle & Hbits & Hhi) Hn Hf. unfold sigblkFinishKSI in Hf.
  replace (nRecords ksi =? 0) with false in Hf by (symmetry; apply Z.eqb_neq; exact Hn).
  bind_inv Hf. destruct p as [[r0 k0] root].
  pose proof (sigblkFinishKSI_fold_status _ Hh _ _ _ _ _ _ E) as ->.
  pose proof (sigblkFinishKSI_fold_nRecords _ _ _ _ _ _ _ E) as Hrec.
  pose proof (sigblkFinishKSI_fold_frame _ _ _ _ _ _ _ E) as (Hll & _ & Hs & _).
  assert (Hclr : forall i, slot_used k0 i = false).
  { eapply sigblkFinishKSI_fold_clears; [exact E | intros i Hi; lia |].
    intros i Hi. apply Hhi. lia. }
  assert (Hroot : forall f i, root_at (sigblkFinishKSI_done (set_blockFile f k0)) i = None).
  { intros f i. specialize (Hclr i). unfold slot_used in Hclr.
    change (root_at (sigblkFinishKSI_done (set_blockFile f k0)) i) with (root_at k0 i).
    destruct (root_at k0 i); [discriminate Hclr | reflexivity]. }
  change (negb (0 =? 0)) with false in Hf. cbv iota in Hf.
  destruct (syncMode ctx).
  - bind_inv Hf. destruct p as [r1 f]. inversion Hf; subst.
    repeat split; first [apply Hroot | assumption | exact Hs].
  - bind_inv Hf. destruct p as [r1 k1]. inversion Hf; subst.
    destruct (sigblkSign_frame _ _ _ _ _ E0) as [f ->].
    repeat split; first [apply Hroot | assumption | exact Hs].
Qed.

(** X12. Closing a block that [sigblkInitKSI] opened and that received
    leaves, the hasher working: every root slot is empty afterwards, the IV
    is released and the block is no longer open, while the last leaf, the
    record count and the settings stay as they were. *)
Theorem sigblkFinishKSI_resets_tree (ctx0 ctx : rsksictx_s) (k0 k kn : ksifile_s)
    (sys0 sys : SysIn) (leaves : list (list Z * Z * bool))
    (r : Z) (ctx' : rsksictx_s) (ksi' : ksifile_s) :
  (forall bs, KSI_DataHasher_run bs <> None) ->
  disabled k0 = false ->
  sigblkInitKSI ctx0 (Some k0) sys0 = Some k ->
  sigblkAddLeaves k leaves = Some kn ->
  nRecords kn <> 0 ->
  sigblkFinishKSI ctx kn sys = Some (r, ctx', ksi') ->
  (forall i, root_at ksi' i = None)
  /\ IV ksi' = None /\ bInBlk ksi' = 0
  /\ lastLeaf ksi' = lastLeaf kn /\ nRecords ksi' = nRecords kn
  /\ block_settings ksi' = block_settings kn.
Proof.
  intros Hh Hd Hi Hl Hn Hf.
  assert (Hdk : disabled k = false).
  { destruct (sigblkInitKSI_fields ctx0 k0 sys0)
      as (k1 & Hi1 & _ & _ & _ & _ & _ & _ & _ & Hd1).
    congruence. }
  eapply sigblkFinishKSI_clears; [exact Hh | | exact Hn | exact Hf].
  replace (length leaves) with (0 + length leaves)%nat by reflexivity.
  eapply sigblkAddLeaves_roots_count; [exact Hdk | | exact Hl].
  eapply sigblkInitKSI_roots_count. exact Hi.
Qed.

(** X13. The hash chain runs across blocks: when [sigblkAddRecordKSI]
    returns 0, the handle holds in [lastLeaf] what the leaf step left there,
    also when the record filled the block and a new block was opened; the
    settings of the handle are those it had. *)
Theorem sigblkAddRecordKSI_keeps_chain (ctx : rsksictx_s) (k : ksifile_s)
    (rec : list Z) (len : Z) (sys : SysIn) (ctx' : rsksictx_s)
    (ksi' : option ksifile_s) :
  disabled k = false ->
  sigblkAddRecordKSI ctx (Some k) rec len sys = Some (0, ctx', ksi') ->
  exists k1 k',
    sigblkAddLeaf (Some k) rec len false = Some (0, Some k1)
    /\ ksi' = Some k'
    /\ lastLeaf k' = lastLeaf k1
    /\ block_settings k' = block_settings k.
Proof.
  intros Hd Hr. unfold sigblkAddRecordKSI in Hr. rewrite Hd in Hr.
  bind_inv Hr. destruct p as [r1 o].
  destruct (Z.eqb_spec r1 0) as [->|Hne]; cbn [negb] in Hr.
  2: { inversion Hr; subst. congruence. }
  destruct (sigblkAddLeaf_some _ _ _ _ _ _ E) as [k1 ->].
  pose proof (sigblkAddLeaf_settings _ _ _ _ _ Hd E) as Hs1.
  exists k1.
  destruct (nRecords k1 =? blockSizeLimit k1).
  - bind_inv Hr. destruct p as [[r2 ctx2] k2]. inversion Hr; subst.
    destruct (sigblkInitKSI_fields ctx' k2 sys)
      as (k3 & Hi & _ & _ & _ & _ & _ & _ & Hll3 & Hd3).
    exists k3. split; [reflexivity|]. split; [exact Hi|].
    pose proof (sigblkFinishKSI_settings _ _ _ _ _ _ E0) as (Hll2 & Hs2).
    split; [congruence|].
    rewrite <- Hs1, <- Hs2.
    unfold sigblkInitKSI in Hi. inversion Hi; subst. reflexivity.
  - inversion Hr; subst. exists k1. repeat split. exact Hs1.
Qed.

End Finish.

Section FinishModes.
Context `{KsiEnv}.

Lemma sigblkFinishKSI_fold_total :
  (forall bs, KSI_DataHasher_run bs <> None) ->
  forall n j ksi root,
    exists r ksi' root', sigblkFinishKSI_fold n j ksi root = Some (r, ksi', root').
Proof.
  intros Hh. induction n as [|n IH]; intros j ksi root; cbn [sigblkFinishKSI_fold].
  - unfold ret. eauto.
  - destruct root as [rootDel|]; [|apply IH].
    destruct (root_at ksi j) as [rj|]; [|apply IH].
    destruct (sigblkHashTwoNodes_total Hh ksi rj rootDel (Z.of_nat j + 2)) as [t ->].
    destruct (write_hash_if_total (bKeepTreeHashes (set_root j None ksi))
                (set_root j None ksi) 0x0903 t) as [f ->].
    cbn [bind]. apply IH.
Qed.

(** X14. In synchronous mode, the hasher working, [sigblkFinishKSI] returns
    0 whatever the signer and the block file did: the status of
    [sigblkSign] is dropped; the context and its queue are not touched. *)
Theorem sigblkFinishKSI_sync_status (ctx : rsksictx_s) (ksi : ksifile_s)
    (sys : SysIn) (r : Z) (ctx' : rsksictx_s) (ksi' : ksifile_s) :
  (forall bs, KSI_DataHasher_run bs <> None) ->
  syncMode ctx = LOGSIG_SYNCHRONOUS ->
  sigblkFinishKSI ctx ksi sys = Some (r, ctx', ksi') ->
  r = 0 /\ ctx' = ctx.
Proof.
  intros Hh Hm Hf. unfold sigblkFinishKSI in Hf.
  destruct (nRecords ksi =? 0); [inversion Hf; subst; split; reflexivity|].
  bind_inv Hf. destruct p as [[r0 k0] root].
  pose proof (sigblkFinishKSI_fold_status _ Hh _ _ _ _ _ _ E) as ->.
  change (negb (0 =? 0)) with false in Hf. cbv iota in Hf. rewrite Hm in Hf.
  bind_inv Hf. destruct p as [r1 k1]. inversion Hf; subst. split; reflexivity.
Qed.

(** X15. In asynchronous mode a block with records whose file has its error
    indicator set is still sent for signing: [sigblkFinishKSI] returns 1 and
    the block file is as it was. When [malloc] and the push succeed, one
    waiting signing request with the record count is appended to the queue;
    when either fails, nothing is queued and the context is disabled. *)
Theorem sigblkFinishKSI_async_broken_file (ctx : rsksictx_s) (ksi : ksifile_s)
    (sys : SysIn) :
  (forall bs, KSI_DataHasher_run bs <> None) ->
  syncMode ctx = LOGSIG_ASYNCHRONOUS ->
  nRecords ksi <> 0 ->
  ferror (blockFile ksi) = true ->
  exists ctx' ksi',
    sigblkFinishKSI ctx ksi sys = Some (1, ctx', ksi')
    /\ blockFile ksi' = blockFile ksi
    /\ (queued sys = true ->
        ctx_disabled ctx' = ctx_disabled ctx
        /\ exists item,
             signer_queue ctx' = signer_queue ctx ++ [item]
             /\ type item = QITEM_SIGNATURE_REQUEST /\ status item = QITEM_WAITING
             /\ intarg1 item = u64 (nRecords ksi))
    /\ (queued sys = false ->
        ctx_disabled ctx' = true /\ signer_queue ctx' = signer_queue ctx).
Proof.
  intros Hh Hm Hn Hb. unfold sigblkFinishKSI.
  replace (nRecords ksi =? 0) with false by (symmetry; apply Z.eqb_neq; exact Hn).
  destruct (sigblkFinishKSI_fold (nRoots ksi) 0 ksi None) as [[[r0 k0] root]|] eqn:E.
  2: { destruct (sigblkFinishKSI_fold_total Hh (nRoots ksi) 0 ksi None)
         as (r0 & k0 & root & Ht). congruence. }
  cbn [bind].
  pose proof (sigblkFinishKSI_fold_status _ Hh _ _ _ _ _ _ E) as ->.
  pose proof (sigblkFinishKSI_fold_nRecords _ _ _ _ _ _ _ E) as Hrec.
  pose proof (sigblkFinishKSI_fold_broken _ _ _ _ _ _ _ Hb E) as Hfile.
  change (negb (0 =? 0)) with false. cbv iota. rewrite Hm.
  rewrite tlvWriteNoSigLS12_broken by (rewrite Hfile; exact Hb). cbn [bind].
  replace (negb (RSGTE_IO =? KSI_OK)) with true
    by (symmetry; apply negb_true_iff, Z.eqb_neq, RSGTE_IO_nonzero).
  eexists _, _. split; [reflexivity|]. split; [exact Hfile|].
  split; intros Hq.
  - rewrite add_queue_item_ok by assumption. cbn [snd]. split; [reflexivity|].
    eexists. split; [reflexivity|]. rewrite Hrec. repeat split.
  - rewrite add_queue_item_refused by assumption. split; reflexivity.
Qed.

End FinishModes.

Lemma sigblkAddLeaf_hash_failure_witness :
  let ctx := example_ctx 3 3 LOGSIG_ASYNCHRONOUS in
  let k := example_ksi 4 1 (Some [7; 7]) in
  @RSGTE_HASH_CREATE test_env_min <> 0
  /\ @sigblkAddLeaf test_env_min (Some k) [65] 1 false
     = Some (@RSGTE_HASH_CREATE test_env_min, Some k)
  /\ @sigblkAddRecordKSI test_env_min ctx (Some k) [65] 1 example_sys
     = Some (@RSGTE_HASH_CREATE test_env_min, ctx, Some k).
Proof.
  apply (@sigblkAddLeaf_hash_failure test_env_min
           (example_ctx 3 3 LOGSIG_ASYNCHRONOUS) (example_ksi 4 1 (Some [7; 7]))
           [7; 7] [65] 1 false example_sys).
  - reflexivity.
  - reflexivity.
  - right. reflexivity.
Defined.

Lemma sigblkAddLeaf_one_more_record_witness :
  let k := example_ksi 4 0 (Some [7; 7]) in
  exists k',
    @sigblkAddLeaf test_env (Some k) [65; 10] 2 false = Some (0, Some k')
    /\ nRecords k' = u64 (nRecords k + 1)
    /\ block_settings k' = block_settings k
    /\ IV k' = IV k /\ blockSizeLimit k' = blockSizeLimit k /\ bInBlk k' = bInBlk k
    /\ length (roots k') = length (roots k)
    /\ (nRoots k' = nRoots k \/ nRoots k' = S (nRoots k)).
Proof.
  intros k. eexists. split; [vm_compute; reflexivity|].
  eapply (@sigblkAddLeaf_one_more_record test_env k [65; 10] 2 false).
  - reflexivity.
  - vm_compute. reflexivity.
Defined.

Lemma sigblkAddLeaf_quiet_witness :
  let k := mkKsi 1 false false 4 0 false (Some [7; 7]) [1; 0; 0] 1 1 0 0
                 (replicate 64 None) (mkFILE [1; 2; 3] false) in
  exists r k',
    @sigblkAddLeaf test_env (Some k) [65; 10] 2 false = Some (r, Some k')
    /\ blockFile k' = blockFile k.
Proof.
  intros k. eexists. eexists. split; [vm_compute; reflexivity|].
  eapply (@sigblkAddLeaf_quiet test_env k [65; 10] 2).
  - reflexivity.
  - reflexivity.
  - reflexivity.
  - simpl. lia.
  - vm_compute. reflexivity.
Defined.

Lemma sigblkFinishKSI_resets_tree_witness :
  let ctx := example_ctx 4 4 LOGSIG_ASYNCHRONOUS in
  exists k kn r ctx' ksi',
    @sigblkInitKSI test_env ctx (Some (example_ksi 0 0 None)) example_sys = Some k
    /\ @sigblkAddLeaves test_env k example_leaves = Some kn
    /\ @sigblkFinishKSI test_env ctx kn example_sys = Some (r, ctx', ksi')
    /\ (forall i, root_at ksi' i = None)
    /\ IV ksi' = None /\ bInBlk ksi' = 0
    /\ lastLeaf ksi' = lastLeaf kn /\ nRecords ksi' = nRecords kn
    /\ block_settings ksi' = block_settings kn.
Proof.
  intros ctx. eexists. eexists. eexists. eexists. eexists.
  split; [vm_compute; reflexivity|].
  split; [vm_compute; reflexivity|].
  split; [vm_compute; reflexivity|].
  eapply (@sigblkFinishKSI_resets_tree test_env ctx ctx (example_ksi 0 0 None)
            _ _ example_sys example_sys example_leaves).
  - intros bs. discriminate.
  - reflexivity.
  - vm_compute. reflexivity.
  - vm_compute. reflexivity.
  - simpl. lia.
  - vm_compute. reflexivity.
Defined.

Lemma sigblkAddRecordKSI_keeps_chain_witness :
  let ctx := example_ctx 2 2 LOGSIG_ASYNCHRONOUS in
  exists k ctx' ksi',
    example_block = Some k
    /\ @sigblkAddRecordKSI test_env ctx (Some k) [66; 10] 2 example_sys
       = Some (0, ctx', ksi')
    /\ exists k1 k',
         @sigblkAddLeaf test_env (Some k) [66; 10] 2 false = Some (0, Some k1)
         /\ ksi' = Some k'
         /\ lastLeaf k' = lastLeaf k1
         /\ block_settings k' = block_settings k.
Proof.
  intros ctx. eexists. eexists. eexists.
  split; [vm_compute; reflexivity|].
  split; [vm_compute; reflexivity|].
  eapply (@sigblkAddRecordKSI_keeps_chain test_env ctx _ [66; 10] 2 example_sys).
  - reflexivity.
  - vm_compute. reflexivity.
Defined.

Lemma sigblkFinishKSI_sync_status_witness :
  let ctx := example_ctx 4 4 LOGSIG_SYNCHRONOUS in
  exists r ctx' ksi',
    nRecords example_block3 = 3
    /\ @sigblkFinishKSI test_env ctx example_block3 example_sys = Some (r, ctx', ksi')
    /\ r = 0 /\ ctx' = ctx.
Proof.
  intros ctx. eexists. eexists. eexists.
  split; [vm_compute; reflexivity|].
  split; [vm_compute; reflexivity|].
  eapply (@sigblkFinishKSI_sync_status test_env ctx example_block3 example_sys).
  - intros bs. discriminate.
  - reflexivity.
  - vm_compute. reflexivity.
Defined.

Lemma sigblkFinishKSI_async_broken_file_witness :
  let ctx := example_ctx 4 4 LOGSIG_ASYNCHRONOUS in
  let ksi := mkKsi 1 true true 8 0 false (Some [7; 7]) [1; 5; 5] 1 1 0 1
                   (<[0%nat := Some [1; 5; 5]]> (replicate 64 None))
                   (mkFILE [1; 2; 3] true) in
  exists ctx' ksi',
    @sigblkFinishKSI test_env ctx ksi example_sys = Some (1, ctx', ksi')
    /\ blockFile ksi' = blockFile ksi
    /\ (queued example_sys = true ->
        ctx_disabled ctx' = ctx_disabled ctx
        /\ exists item,
             signer_queue ctx' = signer_queue ctx ++ [item]
             /\ type item = QITEM_SIGNATURE_REQUEST /\ status item = QITEM_WAITING
             /\ intarg1 item = u64 (nRecords ksi))
    /\ (queued example_sys = false ->
        ctx_disabled ctx' = true /\ signer_queue ctx' = signer_queue ctx).
Proof.
  intros ctx ksi.
  apply (@sigblkFinishKSI_async_broken_file test_env ctx ksi example_sys).
  - intros bs. discriminate.
  - reflexivity.
  - simpl. lia.
  - reflexivity.
Defined.

(** ** Block time-out and the close of a file *)

Section TimeOut.
Context `{KsiEnv} `{HostEnv}.

Lemma tlvWriteInt64TLV_total (f : FILE) (tlvtype val : Z) :
  exists r f', tlvWriteInt64TLV f 0 tlvtype val = Some (r, f').
Proof.
  unfold tlvWriteInt64TLV.
  destruct (tlvWriteHeader_total f tlvtype (tlvGetIntSize (u64 val))) as (r & f1 & ->).
  cbn [bind]. destruct (negb (r =? 0)); [unfold ret; eauto|].
  destruct (fwrite _ (tlvGetIntSize (u64 val)) f1) as [n f2].
  destruct (negb (n =? 1)); unfold ret; eauto.
Qed.

Lemma tlvWriteNoSigLS12_total (f : FILE) (val : Z) (hash : option KSI_DataHash)
    (errorText : option (list Z)) :
  exists r f', tlvWriteNoSigLS12 f val hash errorText = Some (r, f').
Proof.
  unfold tlvWriteNoSigLS12.
  apply CHKr_total; [apply tlvWriteHeader_total|]. intros f1.
  apply CHKr_total; [apply tlvWriteInt64TLV_total|]. intros f2.
  apply CHKr_total; [apply tlvWriteHeader_total|]. intros f3.
  apply CHKr_total; [apply tlvWriteOctetStringTLV_total|]. intros f4.
  destruct errorText; [apply tlvWriteOctetStringTLV_total | unfold ret; eauto].
Qed.

Lemma tlvWriteKSISigLS12_total (f : FILE) (val : Z) (der : list Z) (lenDer : Z) :
  exists r f', tlvWriteKSISigLS12 f val der lenDer = Some (r, f').
Proof.
  unfold tlvWriteKSISigLS12.
  apply CHKr_total; [apply tlvWriteHeader_total|]. intros f1.
  apply CHKr_total; [apply tlvWriteInt64TLV_total|]. intros f2.
  apply tlvWriteOctetStringTLV_total.
Qed.

Lemma sigblkSign_total ksi hash level :
  exists r k', sigblkSign ksi hash level = Some (r, k').
Proof.
  unfold sigblkSign. destruct (KSI_sign (default [] hash) (s32 level)) as [e|der].
  - destruct (tlvWriteNoSigLS12_total (blockFile ksi) (nRecords ksi) hash
                (Some (KSI_getErrorString e))) as (r & f & ->).
    cbn [bind]. unfold ret. eauto.
  - destruct (tlvWriteKSISigLS12_total (blockFile ksi) (nRecords ksi) der
                (Z.of_nat (length der))) as (r & f & ->).
    cbn [bind]. unfold ret. eauto.
Qed.

(** What closing a block with records does, the hasher working: it
    returns, keeps the last leaf, and in asynchronous mode queues one signing
    request for the records of the block, or, when the enqueue fails,
    disables the context. *)
Lemma sigblkFinishKSI_closes ctx ksi sys :
  (forall bs, KSI_DataHasher_run bs <> None) ->
  nRecords ksi <> 0 ->
  exists r ctx' ksi',
    sigblkFinishKSI ctx ksi sys = Some (r, ctx', ksi')
    /\ lastLeaf ksi' = lastLeaf ksi
    /\ block_settings ksi' = block_settings ksi
    /\ syncMode ctx' = syncMode ctx
    /\ match syncMode ctx with
       | LOGSIG_ASYNCHRONOUS =>
           exists item,
             signer_queue ctx'
             = signer_queue ctx ++ (if queued sys then [item] else [])
             /\ ctx_disabled ctx' = ctx_disabled ctx || negb (queued sys)
             /\ qaddr item = sys_malloc sys
             /\ type item = QITEM_SIGNATURE_REQUEST
             /\ status item = QITEM_WAITING
             /\ intarg1 item = u64 (nRecords ksi)
       | LOGSIG_SYNCHRONOUS => ctx' = ctx
       end.
Proof.
  intros Hh Hn.
  destruct (sigblkFinishKSI ctx ksi sys) as [[[r ctx'] ksi']|] eqn:Hf.
  - exists r, ctx', ksi'. split; [reflexivity|].
    destruct (sigblkFinishKSI_settings _ _ _ _ _ _ Hf) as (Hll & Hs).
    split; [exact Hll|]. split; [exact Hs|].
    unfold sigblkFinishKSI in Hf.
    replace (nRecords ksi =? 0) with false in Hf
      by (symmetry; apply Z.eqb_neq; exact Hn).
    bind_inv Hf. destruct p as [[r0 k0] root].
    pose proof (sigblkFinishKSI_fold_status _ Hh _ _ _ _ _ _ E) as ->.
    pose proof (sigblkFinishKSI_fold_nRecords _ _ _ _ _ _ _ E) as Hrec.
    change (negb (0 =? 0)) with false in Hf. cbv iota in Hf.
    destruct (syncMode ctx) eqn:Hmode.
    + bind_inv Hf. destruct p as [r1 f]. inversion Hf; subst.
      split; [rewrite add_queue_item_mode; exact Hmode|].
      eexists. rewrite add_queue_item_queue, add_queue_item_disabled, Hrec.
      repeat split.
    + bind_inv Hf. destruct p as [r1 k1]. inversion Hf; subst.
      split; [exact Hmode | reflexivity].
  - exfalso. unfold sigblkFinishKSI in Hf.
    replace (nRecords ksi =? 0) with false in Hf
      by (symmetry; apply Z.eqb_neq; exact Hn).
    destruct (sigblkFinishKSI_fold_total Hh (nRoots ksi) 0 ksi None)
      as (r0 & k0 & root & Ht).
    rewrite Ht in Hf. cbn [bind] in Hf.
    destruct (negb (r0 =? 0)); [discriminate Hf|].
    destruct (syncMode ctx).
    + destruct (tlvWriteNoSigLS12_total (blockFile k0) (nRecords k0) root None)
        as (r1 & f & Hw).
      rewrite Hw in Hf. discriminate Hf.
    + destruct (sigblkSign_total k0 root (sigblkCalcLevel (u64 (2 * nRecords k0))))
        as (r1 & k1 & Hw).
      rewrite Hw in Hf. discriminate Hf.
Qed.

(** X16. The time-out check leaves everything as it is and returns 0 when
    there is no handle, when the context is disabled, when no time limit is
    set, when no block is open, or when the limit is not yet reached. *)
Theorem sigblkCheckTimeOut_not_due (ctx : rsksictx_s) (ksi : option ksifile_s)
    (now : Z) (sys : SysIn) :
  ksi = None \/ ctx_disabled ctx = true \/ ctx_blockTimeLimit ctx = 0
  \/ (exists k, ksi = Some k
                /\ (bInBlk k = 0 \/ now < blockStarted k + ctx_blockTimeLimit ctx)) ->
  sigblkCheckTimeOut ctx ksi now sys = Some (0, ctx, ksi).
Proof.
  intros Hc. unfold sigblkCheckTimeOut. destruct ksi as [k|]; [|reflexivity].
  destruct Hc as [Hc|[Hc|[Hc|(k' & Hk & Hc)]]].
  - discriminate Hc.
  - rewrite Hc. reflexivity.
  - rewrite Hc. rewrite orb_true_r. reflexivity.
  - inversion Hk; subst k'. destruct Hc as [Hc|Hc].
    + rewrite Hc. rewrite orb_true_r. reflexivity.
    + destruct (ctx_disabled ctx || (ctx_blockTimeLimit ctx =? 0) || (bInBlk k =? 0));
        [reflexivity|].
      replace (now <? blockStarted k + ctx_blockTimeLimit ctx) with true
        by (symmetry; apply Z.ltb_lt; exact Hc).
      reflexivity.
Qed.

(** X17. When the time limit of an open block is reached
    ([blockStarted + blockTimeLimit <= now]) and the close-reason metadata
    leaf is accepted, the time-out check closes the block with that leaf
    counted and opens a new one: the handle has no records, a fresh IV and
    start time and the last leaf of the closed block. In asynchronous mode one
    signing request for [nRecords + 1] records is queued when [malloc] and
    the push succeed; when either fails nothing is queued and the context
    is disabled. *)
Theorem sigblkCheckTimeOut_closes_block (ctx : rsksictx_s) (k k1 : ksifile_s)
    (now : Z) (sys : SysIn) :
  (forall bs, KSI_DataHasher_run bs <> None) ->
  ctx_disabled ctx = false -> ctx_blockTimeLimit ctx <> 0 -> bInBlk k <> 0 ->
  blockStarted k + ctx_blockTimeLimit ctx <= now ->
  disabled k = false ->
  0 <= nRecords k < 18446744073709551615 ->
  (let text := take (Z.to_nat (KSI_BUF_SIZE - 1))
                 (cstr "Block closed due to reaching time limit "%string
                  ++ printf_d (ctx_blockTimeLimit ctx)) in
   let '(buffer, size) := tlvCreateMetadata k (nRecords k) blockCloseReason text in
   sigblkAddLeaf (Some k) buffer size true = Some (0, Some k1)) ->
  exists ctx' k3,
    sigblkCheckTimeOut ctx (Some k) now sys = Some (0, ctx', Some k3)
    /\ nRecords k3 = 0 /\ bInBlk k3 = 1
    /\ IV k3 = Some (sys_random sys) /\ blockStarted k3 = sys_time_init sys
    /\ lastLeaf k3 = lastLeaf k1
    /\ match syncMode ctx with
       | LOGSIG_ASYNCHRONOUS =>
           (queued sys = true ->
            ctx_disabled ctx' = false
            /\ exists item,
                 signer_queue ctx' = signer_queue ctx ++ [item]
                 /\ type item = QITEM_SIGNATURE_REQUEST
                 /\ intarg1 item = nRecords k + 1)
           /\ (queued sys = false ->
               ctx_disabled ctx' = true /\ signer_queue ctx' = signer_queue ctx)
       | LOGSIG_SYNCHRONOUS => ctx' = ctx
       end.
Proof.
  intros Hh Hcd HT Hb Hdue Hd Hn Hleaf. cbv zeta in Hleaf.
  unfold sigblkCheckTimeOut. rewrite Hcd.
  replace (ctx_blockTimeLimit ctx =? 0) with false by (symmetry; apply Z.eqb_neq; exact HT).
  replace (bInBlk k =? 0) with false by (symmetry; apply Z.eqb_neq; exact Hb).
  cbn [orb].
  replace (now <? blockStarted k + ctx_blockTimeLimit ctx) with false
    by (symmetry; apply Z.ltb_ge; exact Hdue).
  unfold sigblkAddMetadata.
  destruct (tlvCreateMetadata k (nRecords k) blockCloseReason _) as [buffer size].
  rewrite Hleaf. cbn [bind ret].
  destruct (sigblkAddLeaf_inv _ _ _ _ _ Hd Hleaf)
    as (iv & mask & leafHash & node & f & k6 & t' & _ & _ & _ & _ & Hc & Hk').
  assert (Hrec : nRecords k1 = nRecords k + 1).
  { pose proof (sigblkAddLeaf_carry_frame _ _ _ _ _ _ _ Hc) as (_ & _ & Hr & _).
    cbn in Hr.
    destruct t' as [t|]; [destruct Hk' as [_ ->] | subst k1]; cbn; rewrite Hr;
      apply u64_small; lia. }
  destruct (sigblkFinishKSI_closes ctx k1 sys Hh ltac:(lia))
    as (r & ctx' & k2 & Hf & Hll & _ & _ & Hq).
  rewrite Hf. cbn [bind ret].
  destruct (sigblkInitKSI_fields ctx' k2 sys)
    as (k3 & Hi & _ & Hn3 & _ & Hb3 & Hiv3 & _ & Hll3 & _).
  exists ctx', k3. rewrite Hi. split; [reflexivity|].
  split; [exact Hn3|]. split; [exact Hb3|]. split; [exact Hiv3|].
  split; [unfold sigblkInitKSI in Hi; inversion Hi; reflexivity|].
  split; [congruence|].
  destruct (syncMode ctx); [|exact Hq].
  destruct Hq as (item & Hq & Hdis & _ & Hty & _ & Hi1).
  rewrite Hcd in Hdis. split; intros Hqd; rewrite Hqd in Hq, Hdis.
  - split; [exact Hdis|].
    exists item. split; [exact Hq|]. split; [exact Hty|].
    rewrite Hi1, Hrec. apply u64_small. lia.
  - split; [exact Hdis|]. rewrite Hq. apply app_nil_r.
Qed.

End TimeOut.

Section CloseFile.
Context `{KsiEnv} `{HostEnv}.

(** X18. Closing the file of an open block in asynchronous mode, the hasher
    working and the close-reason metadata leaf accepted: [rsksifileDestruct]
    returns 0 and hands back the block file. Of the signing request for the
    [nRecords + 1] records of the last block and the close marker behind it,
    each is appended to the queue when its [malloc] and its push succeed;
    the one for which either fails is not queued and the context is then
    disabled. The state file written holds the algorithm id of the handle and
    the digest of the metadata leaf. *)
Theorem rsksifileDestruct_async_close (ctx : rsksictx_s) (k k1 : ksifile_s)
    (sys sys_close : SysIn) (statefile : option (list Z)) :
  (forall bs, KSI_DataHasher_run bs <> None) ->
  syncMode ctx = LOGSIG_ASYNCHRONOUS ->
  disabled k = false -> bInBlk k <> 0 ->
  0 <= nRecords k < 18446744073709551615 ->
  (let '(buffer, size) :=
     tlvCreateMetadata k (nRecords k) blockCloseReason
       (cstr "Block closed due to file closure."%string) in
   sigblkAddLeaf (Some k) buffer size true = Some (0, Some k1)) ->
  exists c f req close,
    rsksifileDestruct ctx (Some k) sys sys_close statefile true = Some c
    /\ cl_status c = 0
    /\ cl_blockFile c = Some f
    /\ signer_queue (cl_ctx c)
       = signer_queue ctx ++ (if queued sys then [req] else [])
                          ++ (if queued sys_close then [close] else [])
    /\ ctx_disabled (cl_ctx c)
       = ctx_disabled ctx || negb (queued sys) || negb (queued sys_close)
    /\ type req = QITEM_SIGNATURE_REQUEST /\ intarg1 req = nRecords k + 1
    /\ type close = QITEM_CLOSE_FILE
    /\ let lenHash := u8 (KSI_getHashLength (hd 0 (lastLeaf k1))) in
       cl_statefile c
       = Some (cstr "KSISTAT10"%string ++ [u8 (hashAlg k); lenHash]
               ++ take (Z.to_nat lenHash) (drop 1 (lastLeaf k1))).
Proof.
  intros Hh Hm Hd Hb Hn Hleaf.
  unfold rsksifileDestruct. rewrite Hd.
  replace (bInBlk k =? 0) with false by (symmetry; apply Z.eqb_neq; exact Hb).
  cbn [negb andb]. unfold sigblkAddMetadata.
  destruct (tlvCreateMetadata k (nRecords k) blockCloseReason _) as [buffer size].
  rewrite Hleaf. cbn [bind ret].
  pose proof (sigblkAddLeaf_settings _ _ _ _ _ Hd Hleaf) as Hs1.
  destruct (sigblkAddLeaf_inv _ _ _ _ _ Hd Hleaf)
    as (iv & mask & leafHash & node & f & k6 & t' & _ & _ & _ & _ & Hc & Hk').
  assert (Hrec : nRecords k1 = nRecords k + 1).
  { pose proof (sigblkAddLeaf_carry_frame _ _ _ _ _ _ _ Hc) as (_ & _ & Hr & _).
    cbn in Hr.
    destruct t' as [t|]; [destruct Hk' as [_ ->] | subst k1]; cbn; rewrite Hr;
      apply u64_small; lia. }
  destruct (sigblkFinishKSI_closes ctx k1 sys Hh ltac:(lia))
    as (r & ctx' & k2 & Hf & Hll & Hs2 & Hm' & Hq).
  rewrite Hf. cbn [bind ret].
  rewrite Hm in Hq. destruct Hq as (req & Hq & Hdis & _ & Hty & _ & Hi1).
  assert (Hset : block_settings k2 = block_settings k) by congruence.
  unfold block_settings in Hset.
  assert (Ha : hashAlg k2 = hashAlg k) by congruence.
  assert (Hd2 : disabled k2 = false) by congruence.
  rewrite Hd2. cbn [negb].
  unfold ksiCloseSigFile. rewrite Hm', Hm.
  eexists _, _, req,
    (mkItem (sys_malloc sys_close) QITEM_CLOSE_FILE QITEM_WAITING ArgNULL (u64 0)
            (u64 0) None KSI_UNKNOWN_ERROR (sys_time_enqueue sys_close)).
  split; [reflexivity|].
  cbn [cl_status cl_ctx cl_blockFile cl_statefile].
  rewrite add_queue_item_queue, add_queue_item_disabled, Hq, Hdis, <- app_assoc.
  split; [reflexivity|]. split; [reflexivity|].
  split; [reflexivity|]. split; [reflexivity|]. split; [exact Hty|].
  split; [rewrite Hi1, Hrec; apply u64_small; lia|].
  split; [reflexivity|].
  unfold ksiWwriteStateFile. cbn [negb]. rewrite Hll, Ha. reflexivity.
Qed.

End CloseFile.

(** ** State file *)

Section StateFile.
Context `{KsiEnv} `{HostEnv}.

(** Reading a file that starts with a well-formed 11-byte header: the
    outcome depends on whether the digest is there in full. *)
Lemma ksiReadStateFile_header (k0 : ksifile_s) (a h : Z) (rest : list Z) :
  KSI_getHashLength a = h -> 0 <= h <= KSI_MAX_IMPRINT_LEN - 1 ->
  ksiReadStateFile k0 (Some (cstr "KSISTAT10"%string ++ [a; h] ++ rest))
  = if (Z.to_nat h <=? length rest)%nat
    then (true, set_lastLeaf (memcpy (lastLeaf k0) (a :: take (Z.to_nat h) rest)) k0)
    else (false,
          set_lastLeaf (<[0%nat := u8 (hashAlg k0)]> (replicate (length (lastLeaf k0)) 0))
            k0).
Proof.
  intros Ha Hh. unfold ksiReadStateFile, sizeof_rsksistatefile.
  set (content := cstr "KSISTAT10"%string ++ [a; h] ++ rest).
  change (take 11 content) with (cstr "KSISTAT10"%string ++ [a; h]).
  change (drop 11 content) with rest.
  cbv zeta.
  change (length (cstr "KSISTAT10"%string ++ [a; h]) =? 11)%nat with true.
  change (take 9 (cstr "KSISTAT10"%string ++ [a; h])) with (cstr "KSISTAT10"%string).
  rewrite bool_decide_eq_true_2 by reflexivity.
  change (nth 9 (cstr "KSISTAT10"%string ++ [a; h]) 0) with a.
  change (nth 10 (cstr "KSISTAT10"%string ++ [a; h]) 0) with h.
  cbn [negb].
  rewrite Ha, Z.eqb_refl. cbn [negb orb].
  replace (KSI_MAX_IMPRINT_LEN - 1 <? h) with false by (symmetry; apply Z.ltb_ge; lia).
  rewrite length_take.
  destruct (Nat.leb_spec (Z.to_nat h) (length rest)) as [Hle|Hgt].
  - replace (Z.of_nat (Z.to_nat h `min` length rest) =? h) with true
      by (symmetry; apply Z.eqb_eq; lia).
    reflexivity.
  - replace (Z.of_nat (Z.to_nat h `min` length rest) =? h) with false
      by (symmetry; apply Z.eqb_neq; lia).
    reflexivity.
Qed.

(** X19. Round trip of the state file: when [lastLeaf] holds an imprint of
    the handle's own algorithm, what [ksiWwriteStateFile] writes is 11 bytes
    of header and the digest, and [ksiReadStateFile] accepts it and puts the
    imprint (algorithm id and digest) at the start of the [lastLeaf] of the
    handle that reads it, leaving the bytes behind it alone. *)
Theorem ksiReadStateFile_after_write (k k0 : ksifile_s) (statefile : option (list Z)) :
  let h := KSI_getHashLength (u8 (hashAlg k)) in
  hd 0 (lastLeaf k) = u8 (hashAlg k) ->
  0 <= h <= KSI_MAX_IMPRINT_LEN - 1 -> h < 256 ->
  h + 1 <= Z.of_nat (length (lastLeaf k)) ->
  exists content,
    ksiWwriteStateFile k statefile true = Some content
    /\ Z.of_nat (length content) = 11 + h
    /\ ksiReadStateFile k0 (Some content)
       = (true,
          set_lastLeaf (take (Z.to_nat (h + 1)) (lastLeaf k)
                        ++ drop (Z.to_nat (h + 1)) (lastLeaf k0)) k0).
Proof.
  intros h Halg Hh Hb Hlen.
  unfold ksiWwriteStateFile. cbn [negb]. rewrite Halg. fold h.
  rewrite (u8_small h) by lia.
  eexists. split; [reflexivity|].
  assert (Hd : length (take (Z.to_nat h) (drop 1 (lastLeaf k))) = Z.to_nat h).
  { rewrite length_take, length_drop. lia. }
  split.
  - rewrite !length_app, Hd. cbn [length].
    change (length (cstr "KSISTAT10"%string)) with 9%nat. lia.
  - rewrite (ksiReadStateFile_header k0 (u8 (hashAlg k)) h) by (reflexivity || lia).
    rewrite Hd, Nat.leb_refl. rewrite firstn_all2 by lia.
    unfold memcpy. cbn [length]. rewrite Hd.
    destruct (lastLeaf k) as [|b l] eqn:Hl; [cbn [length] in Hlen; lia|].
    cbn [hd] in Halg. subst b. cbn [drop].
    replace (Z.to_nat (h + 1)) with (S (Z.to_nat h)) by lia.
    cbn [take app]. reflexivity.
Qed.

(** X20. A missing state file, and a state file that was cut short
    anywhere, start a new chain: [ksiReadStateFile] returns false and
    [lastLeaf] is the handle's algorithm id followed by zeros. No part of a
    digest that is incomplete is used. *)
Theorem ksiReadStateFile_truncated (k k0 : ksifile_s) (statefile : option (list Z))
    (content : list Z) (n : nat) :
  let h := KSI_getHashLength (u8 (hashAlg k)) in
  hd 0 (lastLeaf k) = u8 (hashAlg k) ->
  0 <= h <= KSI_MAX_IMPRINT_LEN - 1 -> h < 256 ->
  h + 1 <= Z.of_nat (length (lastLeaf k)) ->
  ksiWwriteStateFile k statefile true = Some content ->
  (n < length content)%nat ->
  let fresh :=
    set_lastLeaf (<[0%nat := u8 (hashAlg k0)]> (replicate (length (lastLeaf k0)) 0)) k0 in
  ksiReadStateFile k0 (Some (take n content)) = (false, fresh)
  /\ ksiReadStateFile k0 None = (false, fresh).
Proof.
  intros h Halg Hh Hb Hlen Hw Hn fresh. split; [|reflexivity].
  unfold ksiWwriteStateFile in Hw. cbn [negb] in Hw. rewrite Halg in Hw. fold h in Hw.
  rewrite (u8_small h) in Hw by lia.
  set (d := take (Z.to_nat h) (drop 1 (lastLeaf k))) in *.
  assert (Hc : content = cstr "KSISTAT10"%string ++ [u8 (hashAlg k); h] ++ d)
    by congruence.
  clear Hw.
  assert (Hd : length d = Z.to_nat h).
  { subst d. rewrite length_take, length_drop. lia. }
  assert (Hlc : length content = (11 + Z.to_nat h)%nat).
  { subst content. rewrite !length_app, Hd. reflexivity. }
  destruct (decide (n < 11)%nat) as [Hshort|Hlong].
  - unfold ksiReadStateFile, sizeof_rsksistatefile.
    replace (length (take 11 (take n content)) =? 11)%nat with false; [reflexivity|].
    symmetry. apply Nat.eqb_neq. rewrite !length_take. lia.
  - assert (Hsplit : take n content
                     = cstr "KSISTAT10"%string ++ [u8 (hashAlg k); h]
                       ++ take (n - 11) d).
    { subst content.
      change (cstr "KSISTAT10"%string ++ [u8 (hashAlg k); h] ++ d)
        with ((cstr "KSISTAT10"%string ++ [u8 (hashAlg k); h]) ++ d).
      rewrite take_app.
      change (length (cstr "KSISTAT10"%string ++ [u8 (hashAlg k); h])) with 11%nat.
      rewrite firstn_all2 by (cbn; lia). rewrite <- app_assoc. reflexivity. }
    rewrite Hsplit.
    rewrite (ksiReadStateFile_header k0 (u8 (hashAlg k)) h) by (reflexivity || lia).
    replace (Z.to_nat h <=? length (take (n - 11) d))%nat with false; [reflexivity|].
    symmetry. apply Nat.leb_gt. rewrite length_take. lia.
Qed.

End StateFile.

Section LeafFile.
Context `{KsiEnv}.

(** X21. What a leaf puts into the block file when record hashes are kept
    and tree hashes are not, for a record that is not the first of its block:
    for a metadata record the encoded metadata bytes as they are, then for
    every record the TLV 0x0902 with the hash of the record. *)
Theorem sigblkAddLeaf_block_file (k : ksifile_s) (bs leafData : list Z)
    (leafLength : Z) (metadata : bool) (k' : ksifile_s) :
  disabled k = false -> nRecords k <> 0 ->
  bKeepRecordHashes k = true -> bKeepTreeHashes k = false ->
  blockFile k = mkFILE bs false ->
  0 < leafLength < 65536 ->
  sigblkAddLeaf (Some k) leafData leafLength metadata = Some (0, Some k') ->
  exists leafHash,
    KSI_DataHasher_run (take (Z.to_nat leafLength) leafData) = Some leafHash
    /\ let L := Z.of_nat (length leafHash) in
       (0 < L <= 65535 ->
        blockFile k'
        = mkFILE (bs ++ (if metadata then take (Z.to_nat leafLength) leafData else [])
                     ++ [0x89; 0x02; L / 256; L mod 256] ++ leafHash) false).
Proof.
  intros Hd Hn Hr Ht Hf Hlen Ha. unfold sigblkAddLeaf in Ha. rewrite Hd in Ha.
  unfold sigblkCreateMask in Ha. destruct (IV k) as [iv|].
  2: { inversion Ha. destruct RSGTE_HASH_CREATE_nonzero. assumption. }
  destruct (KSI_DataHasher_run (_ ++ _)) as [mask|].
  2: { inversion Ha. destruct RSGTE_HASH_CREATE_nonzero. assumption. }
  unfold sigblkCreateHash in Ha.
  destruct (KSI_DataHasher_run (take (Z.to_nat leafLength) leafData))
    as [leafHash|] eqn:Hleaf.
  2: { inversion Ha. destruct RSGTE_HASH_CREATE_nonzero. assumption. }
  exists leafHash. split; [reflexivity|]. intros L HL.
  replace (nRecords k =? 0) with false in Ha by (symmetry; apply Z.eqb_neq; exact Hn).
  cbn [bind ret] in Ha.
  set (k2 := if metadata then _ else k) in Ha.
  assert (Hk2 : k2 = set_blockFile
                       (mkFILE (bs ++ (if metadata
                                       then take (Z.to_nat leafLength) leafData
                                       else [])) false) k).
  { subst k2. destruct metadata.
    - rewrite Hf, tlvWriteOctetString_ok by lia. reflexivity.
    - rewrite app_nil_r, <- Hf. symmetry. apply set_blockFile_id. }
  rewrite Hk2 in Ha. clear k2 Hk2.
  change (bKeepRecordHashes (set_blockFile ?f k)) with (bKeepRecordHashes k) in Ha.
  rewrite Hr in Ha. unfold write_hash_if at 1 in Ha. unfold tlvWriteHashKSI in Ha.
  cbn [blockFile set_blockFile] in Ha.
  rewrite tlvWriteOctetStringTLV_long_ok in Ha by (fold L; lia).
  cbn [bind ret] in Ha. rewrite Nat2Z.id, firstn_all in Ha.
  change (128 + 2306 / 256) with 137 in Ha. change (2306 mod 256) with 2 in Ha.
  set (fw := mkFILE _ false) in Ha.
  set (tw := if negb metadata then _ else _) in Ha.
  destruct tw as [r2 [node|]].
  2: { inversion Ha; subst. cbn. subst fw. rewrite <- !app_assoc. reflexivity. }
  cbn [set_blockFile bKeepTreeHashes] in Ha. rewrite Ht in Ha.
  cbn [write_hash_if bind ret] in Ha.
  bind_inv Ha. destruct p as [[rc k6] t'].
  apply sigblkAddLeaf_carry_quiet in E; [|exact Ht]. cbn in E.
  assert (Hgoal : blockFile k6 = mkFILE
            (bs ++ (if metadata then take (Z.to_nat leafLength) leafData else [])
                ++ [137; 2; L / 256; L mod 256] ++ leafHash) false).
  { rewrite E. subst fw. rewrite <- !app_assoc. reflexivity. }
  destruct (negb (rc =? 0)); [inversion Ha; subst; exact Hgoal|].
  destruct t' as [t|].
  - bind_inv Ha. bind_inv E0. inversion E0; subst. inversion Ha; subst. exact Hgoal.
  - inversion Ha; subst. exact Hgoal.
Qed.

End LeafFile.

Lemma sigblkCheckTimeOut_not_due_witness :
  let ctx := example_ctx_timed LOGSIG_ASYNCHRONOUS in
  @sigblkCheckTimeOut test_env test_host ctx (Some example_block3) 1010 example_sys
  = Some (0, ctx, Some example_block3).
Proof.
  apply (@sigblkCheckTimeOut_not_due test_env test_host
           (example_ctx_timed LOGSIG_ASYNCHRONOUS) (Some example_block3) 1010
           example_sys).
  right. right. right. exists example_block3. split; [reflexivity|].
  right. vm_compute. reflexivity.
Defined.

Lemma sigblkCheckTimeOut_closes_block_witness :
  let ctx := example_ctx_timed LOGSIG_ASYNCHRONOUS in
  exists ctx' k3,
    @sigblkCheckTimeOut test_env test_host ctx (Some example_block3) 1011 example_sys
    = Some (0, ctx', Some k3)
    /\ nRecords k3 = 0 /\ bInBlk k3 = 1
    /\ IV k3 = Some (sys_random example_sys)
    /\ blockStarted k3 = sys_time_init example_sys
    /\ ctx_disabled ctx' = false
    /\ exists item,
         signer_queue ctx' = signer_queue ctx ++ [item]
         /\ type item = QITEM_SIGNATURE_REQUEST
         /\ intarg1 item = 4.
Proof.
  intros ctx.
  assert (Hleaf : exists k1,
             let text := take (Z.to_nat (KSI_BUF_SIZE - 1))
                           (cstr "Block closed due to reaching time limit "%string
                            ++ @printf_d test_host (ctx_blockTimeLimit ctx)) in
             let '(buffer, size) :=
               @tlvCreateMetadata test_host example_block3 (nRecords example_block3)
                 blockCloseReason text in
             @sigblkAddLeaf test_env (Some example_block3) buffer size true
             = Some (0, Some k1)).
  { eexists. vm_compute. reflexivity. }
  destruct Hleaf as [k1 Hleaf].
  destruct (@sigblkCheckTimeOut_closes_block test_env test_host ctx example_block3 k1
              1011 example_sys)
    as (ctx' & k3 & Hrun & Hn & Hb & Hiv & Hst & _ & Hq).
  - intros bs. discriminate.
  - reflexivity.
  - vm_compute. discriminate.
  - vm_compute. discriminate.
  - vm_compute. discriminate.
  - reflexivity.
  - vm_compute. split; [discriminate | reflexivity].
  - exact Hleaf.
  - destruct Hq as [Hq _]. destruct (Hq eq_refl) as [Hdis Hitem].
    exists ctx', k3. repeat split; assumption.
Defined.

Lemma rsksifileDestruct_async_close_witness :
  let ctx := example_ctx 4 4 LOGSIG_ASYNCHRONOUS in
  let sys_close := mkSys 4097 1002 1002 [] true in
  exists k1 c f req close,
    @rsksifileDestruct test_env test_host ctx (Some example_block3) example_sys
      sys_close None true = Some c
    /\ cl_status c = 0
    /\ cl_blockFile c = Some f
    /\ signer_queue (cl_ctx c) = signer_queue ctx ++ [req] ++ [close]
    /\ ctx_disabled (cl_ctx c) = ctx_disabled ctx || false || false
    /\ type req = QITEM_SIGNATURE_REQUEST /\ intarg1 req = 3 + 1
    /\ type close = QITEM_CLOSE_FILE
    /\ cl_statefile c
       = Some (cstr "KSISTAT10"%string ++ [1; 2] ++ take 2 (drop 1 (lastLeaf k1))).
Proof.
  intros ctx sys_close.
  assert (Hleaf : exists k1,
             let '(buffer, size) :=
               @tlvCreateMetadata test_host example_block3 (nRecords example_block3)
                 blockCloseReason (cstr "Block closed due to file closure."%string) in
             @sigblkAddLeaf test_env (Some example_block3) buffer size true
             = Some (0, Some k1)).
  { eexists. vm_compute. reflexivity. }
  destruct Hleaf as [k1 Hleaf].
  exists k1.
  apply (@rsksifileDestruct_async_close test_env test_host ctx example_block3 k1
           example_sys sys_close None).
  - intros bs. discriminate.
  - reflexivity.
  - reflexivity.
  - vm_compute. discriminate.
  - vm_compute. split; [discriminate | reflexivity].
  - exact Hleaf.
Defined.

Lemma ksiReadStateFile_after_write_witness :
  let k := mkKsi 1 true false 4 0 false None [1; 5; 6] 0 0 0 0
                 (replicate 64 None) (mkFILE [] false) in
  let k0 := example_ksi 4 0 None in
  exists content,
    @ksiWwriteStateFile test_env k None true = Some content
    /\ Z.of_nat (length content) = 11 + 2
    /\ @ksiReadStateFile test_env test_host k0 (Some content)
       = (true, set_lastLeaf ([1; 5; 6] ++ []) k0).
Proof.
  intros k k0.
  apply (@ksiReadStateFile_after_write test_env test_host k k0 None).
  - reflexivity.
  - simpl. lia.
  - simpl. lia.
  - simpl. lia.
Defined.

Lemma ksiReadStateFile_truncated_witness :
  let k := mkKsi 1 true false 4 0 false None [1; 5; 6] 0 0 0 0
                 (replicate 64 None) (mkFILE [] false) in
  let k0 := mkKsi 1 true false 4 0 false None [9; 9; 9] 0 0 0 0
                  (replicate 64 None) (mkFILE [] false) in
  let content := [75; 83; 73; 83; 84; 65; 84; 49; 48; 1; 2; 5; 6] in
  @ksiReadStateFile test_env test_host k0 (Some (take 12 content))
  = (false, set_lastLeaf [1; 0; 0] k0)
  /\ @ksiReadStateFile test_env test_host k0 None = (false, set_lastLeaf [1; 0; 0] k0).
Proof.
  intros k k0 content.
  apply (@ksiReadStateFile_truncated test_env test_host k k0 None content 12).
  - reflexivity.
  - simpl. lia.
  - simpl. lia.
  - simpl. lia.
  - reflexivity.
  - simpl. lia.
Defined.

Lemma sigblkAddLeaf_block_file_witness :
  let k := example_ksi 4 1 (Some [7; 7]) in
  exists k' leafHash,
    @sigblkAddLeaf test_env (Some k) [1; 2; 3] 3 true = Some (0, Some k')
    /\ test_hash (take (Z.to_nat 3) [1; 2; 3]) = Some leafHash
    /\ blockFile k' = mkFILE ([] ++ [1; 2; 3] ++ [0x89; 0x02; 0; 3] ++ leafHash) false.
Proof.
  intros k.
  destruct (@sigblkAddLeaf test_env (Some k) [1; 2; 3] 3 true)
    as [[r [k'|]]|] eqn:Hrun; try (vm_compute in Hrun; discriminate Hrun).
  assert (Hr : r = 0) by (vm_compute in Hrun; congruence). subst r.
  exists k'.
  destruct (@sigblkAddLeaf_block_file test_env k [] [1; 2; 3] 3 true k')
    as (leafHash & Hh & Hfile).
  - reflexivity.
  - simpl. lia.
  - reflexivity.
  - reflexivity.
  - reflexivity.
  - lia.
  - exact Hrun.
  - exists leafHash. split; [reflexivity|]. split; [exact Hh|].
    assert (HL : leafHash = [1; 6; 3]) by (vm_compute in Hh; congruence).
    subst leafHash. apply Hfile. simpl. lia.
Defined.

(** ** Signer worker: sending, refusals, and the signature file *)

Section WorkerFacts.
Context `{KsiEnv}.

Lemma send_requests_all_accepted_from (env : AsyncEnv) (n : nat) :
  (forall a, env_build env a = KSI_OK /\ env_addRequest env a = KSI_OK) ->
  forall i q,
    (i + n)%nat = length q ->
    send_requests env n i q = (true, take i q ++ map mark_sent (drop i q)).
Proof.
  intros Hacc. induction n as [|n IH]; intros i q Hlen; cbn [send_requests].
  - rewrite take_ge, drop_ge by lia. rewrite app_nil_r. reflexivity.
  - destruct (lookup_lt_is_Some_2 q i ltac:(lia)) as [item Hit].
    assert (Hget : ProtectedQueue_getItem q i = Some item) by exact Hit.
    rewrite Hget.
    assert (Hskip : waiting_sign item = false ->
              send_requests env n (S i) q
              = (true, take i q ++ map mark_sent (drop i q))).
    { intros Hw. rewrite IH by lia.
      rewrite (take_S_r q i item Hit), (drop_S q item i Hit).
      cbn [map]. unfold mark_sent at 2. rewrite Hw.
      rewrite <- app_assoc. reflexivity. }
    destruct (QITEM_type_eqb (type item) QITEM_SIGNATURE_REQUEST) eqn:Ht; cbn [negb].
    2: { apply Hskip. unfold waiting_sign, is_sign. rewrite Ht. reflexivity. }
    destruct (QITEM_status_eqb (status item) QITEM_WAITING) eqn:Hs; cbn [negb].
    2: { apply Hskip. unfold waiting_sign, is_sign. rewrite Ht, Hs. reflexivity. }
    destruct (Hacc (qaddr item)) as [Hb Ha]. rewrite Hb, Ha.
    change (KSI_OK =? KSI_OK) with true. cbn [negb].
    assert (Hl2 : (S i + n)%nat = length (<[i := set_status QITEM_SENT item]> q)).
    { etransitivity; [|symmetry; apply length_insert]. lia. }
    etransitivity; [apply (IH _ _ Hl2)|]. f_equal.
    assert (Hins : <[i := set_status QITEM_SENT item]> q
                   = take i q ++ set_status QITEM_SENT item :: drop (S i) q)
      by (apply insert_take_drop; lia).
    rewrite Hins.
    assert (Hti : length (take i q) = i) by (rewrite length_take; lia).
    rewrite take_app, drop_app, Hti.
    rewrite (take_ge (take i q)) by lia. rewrite (drop_ge (take i q)) by lia.
    replace (S i - i)%nat with 1%nat by lia. cbn [take drop app].
    rewrite (drop_S q item i Hit). cbn [map].
    unfold mark_sent at 2. unfold waiting_sign, is_sign. rewrite Ht, Hs. cbn [andb].
    rewrite <- app_assoc. reflexivity.
Qed.

(** X22. When every request can be built and the service takes every
    request, one pass of the sending loop marks every waiting signing request
    as sent and changes nothing else: no item is added, dropped, moved or
    skipped. *)
Theorem send_requests_all_accepted (env : AsyncEnv) (q : ProtectedQueue) :
  (forall a, env_build env a = KSI_OK /\ env_addRequest env a = KSI_OK) ->
  send_requests env (ProtectedQueue_count q) 0 q = (true, map mark_sent q)
  /\ Forall (fun qi => waiting_sign qi = false) (map mark_sent q).
Proof.
  intros Hacc. split.
  - rewrite (send_requests_all_accepted_from env _ Hacc 0 q) by reflexivity.
    reflexivity.
  - induction q as [|qi0 q IH]; cbn [map]; constructor; [|exact IH].
    unfold mark_sent.
    destruct (waiting_sign qi0) eqn:Hw; [|exact Hw].
    unfold waiting_sign in *. apply andb_true_iff in Hw. destruct Hw as [Hsg _].
    unfold is_sign in *. cbn. rewrite Hsg. reflexivity.
Qed.

Lemma save_responses_stop (q : ProtectedQueue) (outfile : option FILE) :
  match q with
  | [] => True
  | qi :: _ => ~ done_sign qi
  end ->
  save_responses q outfile = Some (q, outfile, []).
Proof.
  destruct q as [|qi q]; intros Hq; cbn [save_responses]; [reflexivity|].
  destruct (type qi) eqn:Ht; cbn; try reflexivity.
  destruct (status qi) eqn:Hs; cbn; try reflexivity.
  destruct Hq. split; assumption.
Qed.

(** X23. A request the service refuses is not sent again: in the call that
    meets the refusal, the item at the front is marked done with the status
    of the refusal, the items behind it are left as they are, and the item is
    written to the signature file as a no-signature record with the error
    text of that status and taken off the queue. *)
Theorem process_requests_async_refusal (ctx : rsksictx_s)
    (as_ : option KSI_AsyncService) (f : FILE) (env : AsyncEnv)
    (item : QueueItem) (post : ProtectedQueue) (res : Z) :
  env_responses env = [] ->
  signer_queue ctx = item :: post ->
  type item = QITEM_SIGNATURE_REQUEST -> status item = QITEM_WAITING ->
  env_build env (qaddr item) = KSI_OK ->
  env_addRequest env (qaddr item) = res -> res <> KSI_OK ->
  match post with
  | [] => True
  | qi :: _ => ~ done_sign qi
  end ->
  exists r f',
    tlvWriteNoSigLS12 f (intarg1 item) (item_hash item) (Some (KSI_getErrorString res))
    = Some (r, f')
    /\ process_requests_async ctx as_ (Some f) env
       = Some (true, set_signer_queue post ctx, as_, Some f',
               [set_ksi_status res (set_status QITEM_DONE item)]).
Proof.
  intros Hresp Hq Ht Hs Hb Ha Hres Hpost.
  destruct (tlvWriteNoSigLS12_total f (intarg1 item) (item_hash item)
              (Some (KSI_getErrorString res))) as (r & f' & Hw).
  exists r, f'. split; [exact Hw|].
  unfold process_requests_async. rewrite Hresp. cbn [process_responses bind ret negb].
  rewrite Hq. cbn [ProtectedQueue_count length send_requests].
  change (ProtectedQueue_getItem (item :: post) 0) with (Some item).
  cbv beta iota. rewrite Ht, Hs, Hb, Ha. cbn [QITEM_type_eqb QITEM_status_eqb negb].
  change (KSI_OK =? KSI_OK) with true. cbn [negb].
  replace (res =? KSI_OK) with false by (symmetry; apply Z.eqb_neq; exact Hres).
  cbn [negb]. change (<[0%nat := ?x]> (item :: post)) with (x :: post).
  cbn [signer_queue set_signer_queue save_responses type status set_ksi_status set_status
       QITEM_type_eqb QITEM_status_eqb negb].
  rewrite Ht. cbn [QITEM_type_eqb negb].
  assert (Hsave : save_response f (set_ksi_status res (set_status QITEM_DONE item))
                  = Some (true, f')).
  { unfold save_response. cbn [arg respHandle ksi_status intarg1 set_ksi_status set_status].
    fold (item_hash item).
    replace (res =? KSI_OK) with false by (symmetry; apply Z.eqb_neq; exact Hres).
    destruct (respHandle item); rewrite Hw; reflexivity. }
  rewrite Hsave. cbn [bind].
  rewrite (save_responses_stop post (Some f') Hpost). cbn [bind ret].
  reflexivity.
Qed.

(** X24. Without an open signature file a signing request at the front of
    the queue is neither sent, nor saved, nor dropped: every turn of the
    worker, whatever the service has received, leaves the worker as it is
    and writes nothing. *)
Theorem signer_thread_waits_for_file (w : Worker) (item : QueueItem)
    (envs : list AsyncEnv) :
  w_running w = true -> ksiFile w = None ->
  ProtectedQueue_peekFront (signer_queue (w_ctx w)) = Some item ->
  type item = QITEM_SIGNATURE_REQUEST ->
  run w (map EvTurn envs) = Some (w, []).
Proof.
  intros Hrun Hfile Hfront Ht.
  assert (Hturn : forall env, signer_thread_turn w env = Some (w, [])).
  { intros env. unfold signer_thread_turn. rewrite Hrun, Hfile. cbn [negb].
    destruct (signer_queue (w_ctx w)) as [|qi q] eqn:Hq; [discriminate Hfront|].
    cbn [ProtectedQueue_count length Nat.eqb bind ret negb].
    cbn [ProtectedQueue_peekFront head] in Hfront. inversion Hfront; subst qi.
    rewrite Hq. cbn [ProtectedQueue_peekFront head]. rewrite Ht.
    cbn [QITEM_type_eqb]. destruct w; cbn in *; subst. reflexivity. }
  induction envs as [|env envs IH]; cbn [map run]; [reflexivity|].
  cbn [step]. rewrite Hturn. cbn [bind]. rewrite IH. reflexivity.
Qed.

End WorkerFacts.

Lemma send_requests_all_accepted_witness :
  send_requests (example_env []) 3 0 example_queue
  = (true, [example_item 201 QITEM_SIGNATURE_REQUEST QITEM_SENT;
            example_item 202 QITEM_CLOSE_FILE QITEM_WAITING;
            example_item 203 QITEM_SIGNATURE_REQUEST QITEM_DONE])
  /\ Forall (fun qi => waiting_sign qi = false) (map mark_sent example_queue).
Proof.
  apply (send_requests_all_accepted (example_env []) example_queue).
  intros a. split; reflexivity.
Defined.

Lemma process_requests_async_refusal_witness :
  let item := example_item 201 QITEM_SIGNATURE_REQUEST QITEM_WAITING in
  let post := [example_item 202 QITEM_CLOSE_FILE QITEM_WAITING] in
  let ctx := set_signer_queue (item :: post) (example_ctx 3 3 LOGSIG_ASYNCHRONOUS) in
  exists r f',
    @tlvWriteNoSigLS12 test_env (mkFILE [] false) 2 (Some [1; 33; 7])
      (Some (@KSI_getErrorString test_env 0x20a)) = Some (r, f')
    /\ @process_requests_async test_env ctx None (Some (mkFILE [] false))
         example_env_refusing
       = Some (true, set_signer_queue post ctx, None, Some f',
               [set_ksi_status 0x20a (set_status QITEM_DONE item)]).
Proof.
  intros item post ctx.
  apply (@process_requests_async_refusal test_env ctx None (mkFILE [] false)
           example_env_refusing item post 0x20a).
  - reflexivity.
  - reflexivity.
  - reflexivity.
  - reflexivity.
  - reflexivity.
  - reflexivity.
  - discriminate.
  - intros [Hty _]. discriminate Hty.
Defined.

Lemma signer_thread_waits_for_file_witness :
  let w := mkWorker (set_signer_queue example_queue (example_ctx 3 3 LOGSIG_ASYNCHRONOUS))
                    None None [] true in
  @run test_env w (map EvTurn [example_env []; example_env [example_response 201 [48; 1]]])
  = Some (w, []).
Proof.
  intros w.
  apply (@signer_thread_waits_for_file test_env w
           (example_item 201 QITEM_SIGNATURE_REQUEST QITEM_WAITING)).
  - reflexivity.
  - reflexivity.
  - reflexivity.
  - reflexivity.
Defined.

Section WorkerAnswers.
Context `{KsiEnv}.

Lemma update_item_other (a : nat) (g : QueueItem -> QueueItem) (q : ProtectedQueue) :
  Forall (fun qi => qaddr qi <> a) q -> update_item a g q = q.
Proof.
  unfold update_item. induction 1 as [|qi q Hne _ IH]; cbn [map]; [reflexivity|].
  rewrite IH. destruct (Nat.eqb_spec (qaddr qi) a); [contradiction | reflexivity].
Qed.

Lemma send_requests_none_waiting (env : AsyncEnv) (n : nat) :
  forall i q,
    Forall (fun qi => waiting_sign qi = false) q ->
    send_requests env n i q = (true, q).
Proof.
  induction n as [|n IH]; intros i q Hq; cbn [send_requests]; [reflexivity|].
  destruct (ProtectedQueue_getItem q i) as [item|] eqn:Hit; [|apply IH; exact Hq].
  assert (Hw : waiting_sign item = false).
  { rewrite Forall_forall in Hq. apply Hq. eapply list_elem_of_lookup_2. exact Hit. }
  unfold waiting_sign, is_sign in Hw.
  destruct (QITEM_type_eqb (type item) QITEM_SIGNATURE_REQUEST); cbn [negb];
    [|apply IH; exact Hq].
  cbn [andb] in Hw. rewrite Hw. cbn [negb]. apply IH. exact Hq.
Qed.

(** The three loops on a queue whose front item has just been marked done
    and whose other items are neither waiting nor, at the front, done: the
    front item is saved and taken off. *)
Lemma process_requests_async_front (ctx : rsksictx_s) (as_ : option KSI_AsyncService)
    (f f' : FILE) (env : AsyncEnv) (item' : QueueItem) (post : ProtectedQueue) (b : bool) :
  type item' = QITEM_SIGNATURE_REQUEST -> status item' = QITEM_DONE ->
  Forall (fun qi => waiting_sign qi = false) post ->
  match post with
  | [] => True
  | qi :: _ => ~ done_sign qi
  end ->
  save_response f item' = Some (b, f') ->
  (let '(ok, q) := send_requests env (ProtectedQueue_count (item' :: post)) 0
                     (item' :: post) in
   let ctx := set_signer_queue q ctx in
   if negb ok then ret (false, ctx, as_, Some f, []) else
   let* (q, outfile, saved) := save_responses (signer_queue ctx) (Some f) in
   ret (true, set_signer_queue q ctx, as_, outfile, saved))
  = Some (true, set_signer_queue post ctx, as_, Some f', [item']).
Proof.
  intros Ht Hs Hpost Hhead Hsave.
  rewrite send_requests_none_waiting.
  2: { constructor; [|exact Hpost]. unfold waiting_sign. rewrite Hs.
       apply andb_false_r. }
  cbn [negb signer_queue set_signer_queue save_responses].
  rewrite Ht, Hs. cbn [QITEM_type_eqb QITEM_status_eqb negb].
  rewrite Hsave. cbn [bind].
  rewrite (save_responses_stop post (Some f') Hhead). cbn [bind ret].
  reflexivity.
Qed.

(** X25. An answer of the service for the request at the front of the
    queue: the item is marked done, its signature is written to the signature
    file as a signature record with the record count of the item, and the
    item is taken off the queue; the items behind it, none of them waiting,
    stay as they are. *)
Theorem process_requests_async_answer (ctx : rsksictx_s)
    (as_ : option KSI_AsyncService) (f : FILE) (env : AsyncEnv)
    (h : KSI_AsyncHandle) (item : QueueItem) (post : ProtectedQueue) (raw : list Z) :
  env_responses env = [h] ->
  KSI_AsyncHandle_getState h = inr KSI_ASYNC_STATE_RESPONSE_RECEIVED ->
  KSI_AsyncHandle_getRequestCtx h = inr (Some (qaddr item)) ->
  KSI_AsyncHandle_getSignature h = inr raw ->
  signer_queue ctx = item :: post ->
  type item = QITEM_SIGNATURE_REQUEST ->
  Forall (fun qi => qaddr qi <> qaddr item) post ->
  Forall (fun qi => waiting_sign qi = false) post ->
  match post with
  | [] => True
  | qi :: _ => ~ done_sign qi
  end ->
  exists r f',
    tlvWriteKSISigLS12 f (intarg1 item) raw (Z.of_nat (length raw)) = Some (r, f')
    /\ process_requests_async ctx as_ (Some f) env
       = Some (true, set_signer_queue post ctx, as_, Some f',
               [set_status QITEM_DONE
                  (set_ksi_status KSI_OK (set_respHandle (Some h) item))]).
Proof.
  intros Hresp Hst Hctx Hsig Hq Ht Haddr Hwait Hhead.
  destruct (tlvWriteKSISigLS12_total f (intarg1 item) raw (Z.of_nat (length raw)))
    as (r & f' & Hw).
  exists r, f'. split; [exact Hw|].
  unfold process_requests_async. rewrite Hresp. cbn [process_responses].
  rewrite Hst, Hctx, Hq. cbn [update_item map]. fold (update_item (qaddr item)
    (fun qi => set_status QITEM_DONE (set_ksi_status KSI_OK (set_respHandle (Some h) qi)))
    post).
  rewrite Nat.eqb_refl, (update_item_other _ _ _ Haddr).
  cbn [bind ret negb signer_queue set_signer_queue].
  etransitivity;
    [apply (process_requests_async_front _ as_ f f' env _ post true);
     try assumption; try reflexivity|].
  - unfold save_response.
    cbn [respHandle ksi_status intarg1 set_status set_ksi_status set_respHandle].
    change (KSI_OK =? KSI_OK) with true. cbv iota. rewrite Hsig, Hw. reflexivity.
  - destruct ctx; reflexivity.
Qed.

(** X26. An error reported by the service for the request at the front of
    the queue: the item is marked done with the error code, written to the
    signature file as a no-signature record with the text of that code, and
    taken off the queue. *)
Theorem process_requests_async_error (ctx : rsksictx_s)
    (as_ : option KSI_AsyncService) (f : FILE) (env : AsyncEnv)
    (h : KSI_AsyncHandle) (item : QueueItem) (post : ProtectedQueue) :
  env_responses env = [h] ->
  KSI_AsyncHandle_getState h = inr KSI_ASYNC_STATE_ERROR ->
  KSI_AsyncHandle_getRequestCtx h = inr (Some (qaddr item)) ->
  KSI_AsyncHandle_getError h <> KSI_OK ->
  signer_queue ctx = item :: post ->
  type item = QITEM_SIGNATURE_REQUEST ->
  Forall (fun qi => qaddr qi <> qaddr item) post ->
  Forall (fun qi => waiting_sign qi = false) post ->
  match post with
  | [] => True
  | qi :: _ => ~ done_sign qi
  end ->
  exists r f',
    tlvWriteNoSigLS12 f (intarg1 item) (item_hash item)
      (Some (KSI_getErrorString (KSI_AsyncHandle_getError h))) = Some (r, f')
    /\ process_requests_async ctx as_ (Some f) env
       = Some (true, set_signer_queue post ctx, as_, Some f',
               [set_status QITEM_DONE
                  (set_ksi_status (KSI_AsyncHandle_getError h) item)]).
Proof.
  intros Hresp Hst Hctx Herr Hq Ht Haddr Hwait Hhead.
  destruct (tlvWriteNoSigLS12_total f (intarg1 item) (item_hash item)
              (Some (KSI_getErrorString (KSI_AsyncHandle_getError h))))
    as (r & f' & Hw).
  exists r, f'. split; [exact Hw|].
  unfold process_requests_async. rewrite Hresp. cbn [process_responses].
  rewrite Hst, Hctx, Hq. cbn [update_item map]. fold (update_item (qaddr item)
    (fun qi => set_status QITEM_DONE (set_ksi_status (KSI_AsyncHandle_getError h) qi))
    post).
  rewrite Nat.eqb_refl, (update_item_other _ _ _ Haddr).
  cbn [bind ret negb signer_queue set_signer_queue].
  etransitivity;
    [apply (process_requests_async_front _ as_ f f' env _ post true);
     try assumption; try reflexivity|].
  - unfold save_response.
    cbn [arg respHandle ksi_status intarg1 set_status set_ksi_status].
    fold (item_hash item).
    replace (KSI_AsyncHandle_getError h =? KSI_OK) with false
      by (symmetry; apply Z.eqb_neq; exact Herr).
    destruct (respHandle item); rewrite Hw; reflexivity.
  - destruct ctx; reflexivity.
Qed.

End WorkerAnswers.

Lemma process_requests_async_answer_witness :
  let item := example_item 201 QITEM_SIGNATURE_REQUEST QITEM_SENT in
  let post := [example_item 202 QITEM_CLOSE_FILE QITEM_WAITING] in
  let ctx := set_signer_queue (item :: post) (example_ctx 3 3 LOGSIG_ASYNCHRONOUS) in
  let h := example_response 201 [48; 1] in
  exists r f',
    @tlvWriteKSISigLS12 test_env (mkFILE [] false) 2 [48; 1] 2 = Some (r, f')
    /\ @process_requests_async test_env ctx None (Some (mkFILE [] false))
         (example_env [h])
       = Some (true, set_signer_queue post ctx, None, Some f',
               [set_status QITEM_DONE
                  (set_ksi_status KSI_OK (set_respHandle (Some h) item))]).
Proof.
  intros item post ctx h.
  apply (@process_requests_async_answer test_env ctx None (mkFILE [] false)
           (example_env [h]) h item post [48; 1]).
  - reflexivity.
  - reflexivity.
  - reflexivity.
  - reflexivity.
  - reflexivity.
  - reflexivity.
  - repeat constructor. simpl. lia.
  - repeat constructor.
  - intros [Hty _]. discriminate Hty.
Defined.

Lemma process_requests_async_error_witness :
  let item := example_item 201 QITEM_SIGNATURE_REQUEST QITEM_SENT in
  let post := [example_item 202 QITEM_CLOSE_FILE QITEM_WAITING] in
  let ctx := set_signer_queue (item :: post) (example_ctx 3 3 LOGSIG_ASYNCHRONOUS) in
  let h := example_error 201 0x20a in
  exists r f',
    @tlvWriteNoSigLS12 test_env (mkFILE [] false) 2 (Some [1; 33; 7])
      (Some (@KSI_getErrorString test_env 0x20a)) = Some (r, f')
    /\ @process_requests_async test_env ctx None (Some (mkFILE [] false))
         (example_env [h])
       = Some (true, set_signer_queue post ctx, None, Some f',
               [set_status QITEM_DONE (set_ksi_status 0x20a item)]).
Proof.
  intros item post ctx h.
  apply (@process_requests_async_error test_env ctx None (mkFILE [] false)
           (example_env [h]) h item post).
  - reflexivity.
  - reflexivity.
  - reflexivity.
  - discriminate.
  - reflexivity.
  - reflexivity.
  - repeat constructor. simpl. lia.
  - repeat constructor.
  - intros [Hty _]. discriminate Hty.
Defined.

(** ** Aggregator endpoints *)

Section AggregatorFacts.
Context `{AggrEnv}.

Lemma split_bar_nonempty (s : list Z) : split_bar s <> [].
Proof.
  destruct s as [|c s]; cbn [split_bar]; [discriminate|].
  destruct (c =? 124); [discriminate|]. destruct (split_bar s); discriminate.
Qed.

Lemma join_bar_cons (t : list Z) (ts : list (list Z)) :
  ts <> [] -> join_bar (t :: ts) = t ++ 124 :: join_bar ts.
Proof. destruct ts; [congruence | reflexivity]. Qed.

Lemma split_bar_join (s : list Z) : join_bar (split_bar s) = s.
Proof.
  induction s as [|c s IH]; cbn [split_bar]; [reflexivity|].
  destruct (Z.eqb_spec c 124) as [->|Hc].
  - rewrite join_bar_cons by apply split_bar_nonempty. rewrite IH. reflexivity.
  - pose proof (split_bar_nonempty s) as Hn.
    destruct (split_bar s) as [|t ts]; [congruence|].
    destruct ts as [|t' ts].
    + cbn [join_bar] in *. congruence.
    + rewrite join_bar_cons by discriminate. rewrite join_bar_cons in IH by discriminate.
      cbn [app]. congruence.
Qed.

Lemma split_bar_no_bar (s : list Z) : Forall (fun t => ~ In 124 t) (split_bar s).
Proof.
  induction s as [|c s IH]; cbn [split_bar].
  - constructor; [intros []|constructor].
  - destruct (Z.eqb_spec c 124) as [->|Hc].
    + constructor; [intros []|exact IH].
    + destruct (split_bar s) as [|t ts].
      * constructor; [|constructor]. intros [Hin|[]]. congruence.
      * inversion IH as [|? ? Ht Hts]; subst. constructor; [|exact Hts].
        intros [Hin|Hin]; [congruence | exact (Ht Hin)].
Qed.

Lemma strsep_split (s : list Z) :
  match strsep s with
  | (t, None) => split_bar s = [t]
  | (t, Some s') => split_bar s = t :: split_bar s' /\ (length s' < length s)%nat
  end.
Proof.
  induction s as [|c s IH]; cbn [strsep split_bar]; [reflexivity|].
  destruct (c =? 124); [split; [reflexivity | cbn [length]; lia]|].
  destruct (strsep s) as [t [s'|]].
  - destruct IH as [-> Hlt]. split; [reflexivity | cbn [length]; lia].
  - rewrite IH. reflexivity.
Qed.

Lemma rsksiSetAggregator_loop_split (fuel : nat) :
  forall s endpoints,
    (length s < fuel)%nat ->
    rsksiSetAggregator_loop fuel (Some s) endpoints
    = fold_left (fun e t => if (KSI_CTX_HA_MAX_SUBSERVICES <=? length e)%nat
                            then e else e ++ [t])
                (split_bar s) endpoints.
Proof.
  induction fuel as [|fuel IH]; intros s endpoints Hlt; [lia|].
  cbn [rsksiSetAggregator_loop]. pose proof (strsep_split s) as Hs.
  destruct (strsep s) as [t [s'|]].
  - destruct Hs as [-> Hlen]. cbn [fold_left]. apply IH. lia.
  - rewrite Hs. cbn [fold_left]. destruct fuel; reflexivity.
Qed.

Lemma fold_left_capped (tokens : list (list Z)) :
  forall endpoints,
    (length endpoints <= KSI_CTX_HA_MAX_SUBSERVICES)%nat ->
    fold_left (fun e t => if (KSI_CTX_HA_MAX_SUBSERVICES <=? length e)%nat
                          then e else e ++ [t])
              tokens endpoints
    = endpoints ++ take (KSI_CTX_HA_MAX_SUBSERVICES - length endpoints) tokens.
Proof.
  induction tokens as [|t tokens IH]; intros endpoints Hle; cbn [fold_left].
  - rewrite take_nil, app_nil_r. reflexivity.
  - destruct (Nat.leb_spec KSI_CTX_HA_MAX_SUBSERVICES (length endpoints)) as [Hfull|Hroom].
    + rewrite IH by exact Hle.
      replace (KSI_CTX_HA_MAX_SUBSERVICES - length endpoints)%nat with 0%nat by lia.
      reflexivity.
    + rewrite IH by (rewrite length_app; cbn [length]; lia).
      rewrite length_app. cbn [length].
      replace (KSI_CTX_HA_MAX_SUBSERVICES - length endpoints)%nat
        with (S (KSI_CTX_HA_MAX_SUBSERVICES - (length endpoints + 1))) by lia.
      cbn [take]. rewrite <- app_assoc. reflexivity.
Qed.

(** X27. [rsksiSetAggregator] on a non-empty URI string, no endpoint stored
    before: the string is cut at every ['|'] into tokens (empty ones
    included) that, joined with ['|'], give the string back; the first
    [KSI_CTX_HA_MAX_SUBSERVICES] tokens become the endpoints and the others
    are ignored; [KSI_CTX_setAggregator] is given the first token alone, and
    when it fails the context is disabled and [KSI_INVALID_ARGUMENT]
    returned. *)
Theorem rsksiSetAggregator_splits_uri (ctx : rsksictx_aggr) (uri : list Z)
    (loginid key : option (list Z)) :
  uri <> [] -> aggregatorEndpoints ctx = [] ->
  exists tokens,
    join_bar tokens = uri /\ Forall (fun t => ~ In 124 t) tokens /\ tokens <> []
    /\ let st := KSI_CTX_setAggregator (Some (hd [] tokens)) (strdup_nonempty loginid)
                   (strdup_nonempty key) in
       rsksiSetAggregator ctx (Some uri) loginid key
       = (if st =? KSI_OK then KSI_OK else KSI_INVALID_ARGUMENT,
          mkAggr (Some (hd [] tokens)) (strdup_nonempty loginid) (strdup_nonempty key)
                 (take KSI_CTX_HA_MAX_SUBSERVICES tokens)
                 (aggr_disabled ctx || negb (st =? KSI_OK))).
Proof.
  intros Hne Heps. exists (split_bar uri).
  split; [apply split_bar_join|]. split; [apply split_bar_no_bar|].
  split; [apply split_bar_nonempty|].
  assert (Hfirst : fst (strsep uri) = hd [] (split_bar uri)).
  { pose proof (strsep_split uri) as Hs. destruct (strsep uri) as [t [s'|]].
    - destruct Hs as [-> _]. reflexivity.
    - rewrite Hs. reflexivity. }
  unfold rsksiSetAggregator.
  destruct uri as [|c uri]; [congruence|].
  cbn [strdup_nonempty option_map].
  change (default [] (Some (c :: uri))) with (c :: uri).
  rewrite rsksiSetAggregator_loop_split by lia.
  rewrite Heps, fold_left_capped by (cbn [length]; lia).
  cbn [length app]. rewrite Nat.sub_0_r, Hfirst.
  cbv zeta.
  destruct (Z.eqb_spec (KSI_CTX_setAggregator (Some (hd [] (split_bar (c :: uri))))
                          (strdup_nonempty loginid) (strdup_nonempty key)) KSI_OK)
    as [Hok|Hfail]; cbn [negb].
  - rewrite Hok, orb_false_r. reflexivity.
  - rewrite orb_true_r. reflexivity.
Qed.

End AggregatorFacts.

Lemma rsksiSetAggregator_splits_uri_witness :
  let ctx := mkAggr None None None [] false in
  let uri := cstr "a:1|b:2||c:3|d:4"%string in
  exists tokens,
    join_bar tokens = uri /\ Forall (fun t => ~ In 124 t) tokens /\ tokens <> []
    /\ @rsksiSetAggregator test_aggr ctx (Some uri) (Some (cstr "id"%string)) (Some [])
       = (KSI_OK,
          mkAggr (Some (hd [] tokens)) (Some (cstr "id"%string)) None
                 (take 3 tokens) false).
Proof.
  intros ctx uri.
  apply (@rsksiSetAggregator_splits_uri test_aggr ctx uri (Some (cstr "id"%string))
           (Some [])).
  - discriminate.
  - reflexivity.
Defined.

Example rsksiSetAggregator_five_tokens :
  aggregatorEndpoints
    (snd (@rsksiSetAggregator test_aggr (mkAggr None None None [] false)
            (Some (cstr "a:1|b:2||c:3|d:4"%string)) None None))
  = [cstr "a:1"%string; cstr "b:2"%string; []].
Proof. reflexivity. Qed.

(** ** Signer worker: the statuses of the requests *)

Section WorkerStatus.
Context `{KsiEnv}.

Lemma item_advances_refl (qi : QueueItem) : item_advances qi qi.
Proof. split; [reflexivity|]. split; [reflexivity | apply Nat.le_refl]. Qed.

Lemma item_advances_trans (a b c : QueueItem) :
  item_advances a b -> item_advances b c -> item_advances a c.
Proof.
  intros (Ht1 & Hk1 & Hs1) (Ht2 & Hk2 & Hs2).
  repeat split; [congruence | congruence | lia].
Qed.

Lemma Forall2_advances_refl (q : ProtectedQueue) : Forall2 item_advances q q.
Proof. induction q; constructor; [apply item_advances_refl | assumption]. Qed.

Lemma Forall2_advances_trans (q1 : ProtectedQueue) :
  forall q2 q3,
    Forall2 item_advances q1 q2 -> Forall2 item_advances q2 q3 ->
    Forall2 item_advances q1 q3.
Proof.
  induction q1 as [|a q1 IH]; intros q2 q3 H12 H23.
  - inversion H12; subst. inversion H23; subst. constructor.
  - inversion H12 as [|? b ? q2' Hab H12']; subst.
    inversion H23 as [|? c ? q3' Hbc H23']; subst.
    constructor; [eapply item_advances_trans; eassumption | eapply IH; eassumption].
Qed.

Lemma update_item_advances (a : nat) (g : QueueItem -> QueueItem) (q : ProtectedQueue) :
  (forall qi, item_advances qi (g qi)) ->
  Forall2 item_advances q (update_item a g q).
Proof.
  intros Hg. unfold update_item. induction q as [|qi q IH]; cbn [map]; constructor.
  - destruct (Nat.eqb (qaddr qi) a); [apply Hg | apply item_advances_refl].
  - exact IH.
Qed.

Lemma insert_advances (q : ProtectedQueue) :
  forall i item item',
    q !! i = Some item -> item_advances item item' ->
    Forall2 item_advances q (<[i := item']> q).
Proof.
  induction q as [|qi q IH]; intros i item item' Hit Hadv; [discriminate Hit|].
  destruct i as [|i].
  - inversion Hit; subst. constructor; [exact Hadv | apply Forall2_advances_refl].
  - constructor; [apply item_advances_refl|]. eapply (IH i); eassumption.
Qed.

Lemma process_responses_advances hs :
  forall ctx as_ ok ctx' as_',
    process_responses hs ctx as_ = Some (ok, ctx', as_') ->
    Forall2 item_advances (signer_queue ctx) (signer_queue ctx').
Proof.
  assert (Hdone : forall qi g,
            type (g qi) = type qi -> sign_key (g qi) = sign_key qi ->
            status (g qi) = QITEM_DONE -> item_advances qi (g qi)).
  { intros qi g Ht Hk Hs. repeat split; [exact Ht | exact Hk |].
    rewrite Hs. destruct (status qi); cbn; lia. }
  induction hs as [|h hs IH]; intros ctx as_ ok ctx' as_' Hp;
    cbn [process_responses] in Hp.
  - inversion Hp; subst. apply Forall2_advances_refl.
  - destruct (KSI_AsyncHandle_getState h) as [e|st].
    { inversion Hp; subst. apply Forall2_advances_refl. }
    destruct st; try (eapply IH; eassumption).
    + destruct (KSI_AsyncHandle_getConfig h) as [e|config]; [eapply IH; eassumption|].
      destruct (handle_ksi_config ctx as_ config) as [ctx1 as1] eqn:Hc.
      apply IH in Hp.
      pose proof (handle_ksi_config_queue ctx as_ config) as Hq.
      rewrite Hc in Hq. cbn [fst] in Hq. rewrite <- Hq. exact Hp.
    + destruct (KSI_AsyncHandle_getRequestCtx h) as [e|[a|]].
      * inversion Hp; subst. apply Forall2_advances_refl.
      * apply IH in Hp. cbn [signer_queue set_signer_queue] in Hp.
        eapply Forall2_advances_trans; [|exact Hp].
        apply update_item_advances. intros qi.
        apply (Hdone qi (fun qi => set_status QITEM_DONE
                                     (set_ksi_status KSI_OK
                                        (set_respHandle (Some h) qi)))); reflexivity.
      * discriminate Hp.
    + destruct (KSI_AsyncHandle_getRequestCtx h) as [e|[a|]].
      * inversion Hp; subst. apply Forall2_advances_refl.
      * apply IH in Hp. cbn [signer_queue set_signer_queue] in Hp.
        eapply Forall2_advances_trans; [|exact Hp].
        apply update_item_advances. intros qi.
        apply (Hdone qi (fun qi => set_status QITEM_DONE
                                     (set_ksi_status (KSI_AsyncHandle_getError h) qi)));
          reflexivity.
      * eapply IH; eassumption.
Qed.

Lemma send_requests_advances env n :
  forall i q ok q',
    send_requests env n i q = (ok, q') -> Forall2 item_advances q q'.
Proof.
  induction n as [|n IH]; intros i q ok q' Hs; cbn [send_requests] in Hs.
  - inversion Hs; subst. apply Forall2_advances_refl.
  - destruct (ProtectedQueue_getItem q i) as [item|] eqn:Hit; [|eapply IH; eassumption].
    destruct (negb (QITEM_type_eqb (type item) QITEM_SIGNATURE_REQUEST));
      [eapply IH; eassumption|].
    destruct (status item) eqn:Hst; cbn [QITEM_status_eqb negb] in Hs;
      try (eapply IH; eassumption).
    destruct (negb (env_build env (qaddr item) =? KSI_OK)).
    { inversion Hs; subst. apply Forall2_advances_refl. }
    assert (Hadv : forall item', type item' = type item ->
                     sign_key item' = sign_key item ->
                     Forall2 item_advances q (<[i := item']> q)).
    { intros item' Ht Hk. eapply insert_advances; [exact Hit|].
      repeat split; [exact Ht | exact Hk |]. rewrite Hst. cbn. lia. }
    destruct (env_addRequest env (qaddr item) =? KSI_OK).
    + apply IH in Hs. eapply Forall2_advances_trans; [|exact Hs].
      apply Hadv; reflexivity.
    + inversion Hs; subst. apply Hadv; reflexivity.
Qed.

(** X28. One call of [process_requests_async] neither loses, nor
    duplicates, nor reorders queue items, and no status goes back: the items
    it saved followed by the items it left are, position by position, the
    items of the queue before, each with its status as before or further on
    (waiting, sent, done); the items saved are done. So a request that was
    sent is never sent again. *)
Theorem process_requests_async_advances (ctx : rsksictx_s)
    (as_ : option KSI_AsyncService) (outfile : option FILE) (env : AsyncEnv)
    (ok : bool) (ctx' : rsksictx_s) (as_' : option KSI_AsyncService)
    (outfile' : option FILE) (saved : list QueueItem) :
  process_requests_async ctx as_ outfile env = Some (ok, ctx', as_', outfile', saved) ->
  Forall2 item_advances (signer_queue ctx) (saved ++ signer_queue ctx')
  /\ Forall (fun qi => status qi = QITEM_DONE) saved.
Proof.
  unfold process_requests_async. intros Hp.
  bind_inv Hp. destruct p as [[ok1 ctx1] as1].
  apply process_responses_advances in E.
  destruct (negb ok1).
  { inversion Hp; subst. split; [exact E | constructor]. }
  destruct (send_requests env (ProtectedQueue_count (signer_queue ctx1)) 0
              (signer_queue ctx1)) as [ok2 q2] eqn:Hs.
  apply send_requests_advances in Hs.
  pose proof (Forall2_advances_trans _ _ _ E Hs) as H12.
  destruct (negb ok2).
  { inversion Hp; subst. split; [exact H12 | constructor]. }
  bind_inv Hp. destruct p as [[q3 o3] saved3]. inversion Hp; subst.
  cbn [signer_queue set_signer_queue] in *.
  destruct (save_responses_front _ _ _ _ _ E0) as (Hq & Hdone & _).
  rewrite <- Hq. split; [exact H12|].
  eapply Forall_impl; [exact Hdone|]. intros qi [_ Hst]. exact Hst.
Qed.

End WorkerStatus.

Lemma process_requests_async_advances_witness :
  let ctx := set_signer_queue example_queue (example_ctx 3 3 LOGSIG_ASYNCHRONOUS) in
  let env := example_env [example_response 203 [48; 1]] in
  exists ok ctx' as_' outfile' saved,
    @process_requests_async test_env ctx None (Some (mkFILE [] false)) env
    = Some (ok, ctx', as_', outfile', saved)
    /\ map (fun qi => (qaddr qi, status qi)) (saved ++ signer_queue ctx')
       = [(201%nat, QITEM_SENT); (202%nat, QITEM_WAITING); (203%nat, QITEM_DONE)]
    /\ Forall2 item_advances (signer_queue ctx) (saved ++ signer_queue ctx')
    /\ Forall (fun qi => status qi = QITEM_DONE) saved.
Proof.
  intros ctx env.
  destruct (@process_requests_async test_env ctx None (Some (mkFILE [] false)) env)
    as [[[[[ok ctx'] as_'] outfile'] saved]|] eqn:Hrun;
    [|vm_compute in Hrun; discriminate Hrun].
  exists ok, ctx', as_', outfile', saved.
  split; [reflexivity|]. split.
  - vm_compute in Hrun. inversion Hrun; subst. reflexivity.
  - apply (@process_requests_async_advances test_env ctx None (Some (mkFILE [] false))
             env ok ctx' as_' outfile' saved).
    exact Hrun.
Defined.

(** ** What is signed *)

Section SignedRoot.
Context `{KsiEnv}.

Lemma root_at_lookup (ksi : ksifile_s) (j : nat) (v : option KSI_DataHash) :
  roots ksi !! j = Some v -> root_at ksi j = v.
Proof. unfold root_at. intros ->. destruct v; reflexivity. Qed.

(** X29. The root of a block of two records: after [sigblkInitKSI] and two
    leaves, [sigblkFinishKSI] in asynchronous mode builds one waiting signing
    request whose hash is the hash of the first leaf node, the second leaf
    node and the level byte 2, in that order, with a record count of 2 and a
    tree level of 2 (four leaves with the masks); each leaf node is the hash
    of a mask, the hash of its record and the level byte 1. The request is
    appended to the queue when [malloc] and the push succeed; when either
    fails the queue stays as it is and the context is disabled. *)
Theorem sigblkFinishKSI_two_records (ctx0 ctx : rsksictx_s) (k0 k k2 : ksifile_s)
    (sys0 sys : SysIn) (rec1 rec2 : list Z) (len1 len2 : Z) :
  syncMode ctx = LOGSIG_ASYNCHRONOUS ->
  disabled k0 = false ->
  sigblkInitKSI ctx0 (Some k0) sys0 = Some k ->
  sigblkAddLeaves k [(rec1, len1, false); (rec2, len2, false)] = Some k2 ->
  exists mask1 hash1 node1 mask2 hash2 node2 root r ctx' k',
    KSI_DataHasher_run (take (Z.to_nat len1) rec1) = Some hash1
    /\ KSI_DataHasher_run (mask1 ++ hash1 ++ [1]) = Some node1
    /\ KSI_DataHasher_run (take (Z.to_nat len2) rec2) = Some hash2
    /\ KSI_DataHasher_run (mask2 ++ hash2 ++ [1]) = Some node2
    /\ KSI_DataHasher_run (node1 ++ node2 ++ [2]) = Some root
    /\ sigblkFinishKSI ctx k2 sys = Some (r, ctx', k')
    /\ signer_queue ctx'
       = signer_queue ctx
         ++ (if queued sys
             then [mkItem (sys_malloc sys) QITEM_SIGNATURE_REQUEST QITEM_WAITING
                          (ArgHash root) 2 2 None KSI_UNKNOWN_ERROR
                          (sys_time_enqueue sys)]
             else [])
    /\ ctx_disabled ctx' = ctx_disabled ctx || negb (queued sys).
Proof.
  intros Hm Hd0 Hi Hl.
  destruct (sigblkInitKSI_fields ctx0 k0 sys0)
    as (k_ & Hi' & _ & Hn0 & Hr0 & _ & _ & Hroots0 & _ & Hd).
  assert (k_ = k) by congruence. subst k_. rewrite Hd0 in Hd. clear Hi'.
  cbn [sigblkAddLeaves] in Hl.
  destruct (sigblkAddLeaf (Some k) rec1 len1 false) as [[r1 [k1|]]|] eqn:H1;
    try discriminate Hl; [|destruct r1; discriminate Hl].
  destruct r1; try discriminate Hl.
  destruct (sigblkAddLeaf (Some k1) rec2 len2 false) as [[r2 [k2'|]]|] eqn:H2;
    try discriminate Hl; [|destruct r2; discriminate Hl].
  destruct r2; try discriminate Hl.
  assert (k2' = k2) by congruence. subst k2'. clear Hl.
  assert (Hd1 : disabled k1 = false).
  { pose proof (sigblkAddLeaf_settings _ _ _ _ _ Hd H1) as Hs.
    unfold block_settings in Hs. congruence. }
  (* first leaf *)
  destruct (sigblkAddLeaf_inv _ _ _ _ _ Hd H1)
    as (iv1 & mask1 & hash1 & node1 & f1 & k6 & t1 & _ & _ & Hh1 & Hnode1 & Hc1 & Hk1).
  rewrite Hr0 in Hc1. cbn [sigblkAddLeaf_carry ret] in Hc1.
  inversion Hc1; subst k6 t1. clear Hc1.
  destruct Hk1 as [Hmax1 Hk1]. cbn in Hmax1. rewrite Hr0 in Hmax1.
  assert (Hk1r : roots k1 = <[0%nat := Some node1]> (replicate MAX_ROOTS None)).
  { rewrite Hk1. cbn. rewrite Hr0, Hroots0. reflexivity. }
  assert (Hk1n : nRoots k1 = 1%nat) by (rewrite Hk1; cbn; rewrite Hr0; reflexivity).
  assert (Hk1c : nRecords k1 = 1) by (rewrite Hk1; cbn; rewrite Hn0; reflexivity).
  clear Hk1.
  (* second leaf *)
  destruct (sigblkAddLeaf_inv _ _ _ _ _ Hd1 H2)
    as (iv2 & mask2 & hash2 & node2 & f2 & k6 & t2 & _ & _ & Hh2 & Hnode2 & Hc2 & Hk2).
  rewrite Hk1n in Hc2. cbn [sigblkAddLeaf_carry] in Hc2.
  rewrite (root_at_lookup _ 0 (Some node1)) in Hc2.
  2: { cbn. rewrite Hk1r. apply list_lookup_insert_eq. rewrite length_replicate. lia. }
  unfold sigblkHashTwoNodes in Hc2. change (u8 (Z.of_nat 0 + 2)) with 2 in Hc2.
  destruct (KSI_DataHasher_run (node1 ++ node2 ++ [2])) as [root|] eqn:Hroot.
  2: { inversion Hc2. destruct RSGTE_HASH_CREATE_nonzero. assumption. }
  bind_inv Hc2. destruct (write_hash_if_frame _ _ _ _ _ E) as [f3 ->]. clear E.
  cbn [ret] in Hc2. inversion Hc2; subst k6 t2. clear Hc2.
  destruct Hk2 as [Hmax2 Hk2]. cbn in Hmax2. rewrite Hk1n in Hmax2.
  assert (Hk2r : roots k2 = <[1%nat := Some root]>
                   (<[0%nat := None]> (<[0%nat := Some node1]>
                      (replicate MAX_ROOTS None)))).
  { rewrite Hk2. cbn. rewrite Hk1n, Hk1r. reflexivity. }
  assert (Hk2n : nRoots k2 = 2%nat) by (rewrite Hk2; cbn; rewrite Hk1n; reflexivity).
  assert (Hk2c : nRecords k2 = 2) by (rewrite Hk2; cbn; rewrite Hk1c; reflexivity).
  clear Hk2.
  (* closing the block *)
  assert (Hl0 : roots k2 !! 0%nat = Some None).
  { rewrite Hk2r. rewrite list_lookup_insert_ne by lia.
    apply list_lookup_insert_eq. rewrite length_insert, length_replicate. lia. }
  assert (Hl1 : roots (set_root 0 None k2) !! 1%nat = Some (Some root)).
  { cbn. rewrite list_lookup_insert_ne by lia. rewrite Hk2r.
    apply list_lookup_insert_eq. rewrite !length_insert, length_replicate. lia. }
  destruct (tlvWriteNoSigLS12_total (blockFile k2) 2 (Some root) None) as (r & f & Hw).
  unfold leaf_input in Hnode1, Hnode2.
  exists mask1, hash1, node1, mask2, hash2, node2, root.
  eexists _, _, _.
  split; [exact Hh1|]. split; [exact Hnode1|]. split; [exact Hh2|].
  split; [exact Hnode2|]. split; [exact Hroot|].
  unfold sigblkFinishKSI. rewrite Hk2c, Hk2n. change (2 =? 0) with false. cbv iota.
  cbn [sigblkFinishKSI_fold].
  rewrite (root_at_lookup _ 0 None Hl0), (root_at_lookup _ 1 (Some root) Hl1).
  cbn [bind ret negb]. change (negb (0 =? 0)) with false. cbv iota. rewrite Hm.
  cbn [nRecords blockFile set_root set_roots]. rewrite Hk2c, Hw. cbn [bind ret].
  split; [reflexivity|].
  rewrite add_queue_item_queue, add_queue_item_disabled.
  split; reflexivity.
Qed.

End SignedRoot.

Lemma sigblkFinishKSI_two_records_witness :
  let ctx := example_ctx 4 4 LOGSIG_ASYNCHRONOUS in
  exists mask1 hash1 node1 mask2 hash2 node2 root r ctx' k',
    test_hash (take (Z.to_nat 2) [65; 10]) = Some hash1
    /\ test_hash (mask1 ++ hash1 ++ [1]) = Some node1
    /\ test_hash (take (Z.to_nat 2) [66; 10]) = Some hash2
    /\ test_hash (mask2 ++ hash2 ++ [1]) = Some node2
    /\ test_hash (node1 ++ node2 ++ [2]) = Some root
    /\ @sigblkFinishKSI test_env ctx example_block2 example_sys = Some (r, ctx', k')
    /\ signer_queue ctx'
       = signer_queue ctx
         ++ [mkItem (sys_malloc example_sys) QITEM_SIGNATURE_REQUEST QITEM_WAITING
                    (ArgHash root) 2 2 None (@KSI_UNKNOWN_ERROR test_env)
                    (sys_time_enqueue example_sys)]
    /\ ctx_disabled ctx' = false.
Proof.
  intros ctx.
  apply (@sigblkFinishKSI_two_records test_env ctx ctx (example_ksi 0 0 None)
           example_open example_block2 example_sys example_sys
           [65; 10] [66; 10] 2 2).
  - reflexivity.
  - reflexivity.
  - vm_compute. reflexivity.
  - vm_compute. reflexivity.
Defined.

Section MetadataStatus.
Context `{KsiEnv} `{HostEnv}.

(** X30. [sigblkAddMetadata] reports success whatever happens to the leaf:
    it returns 0 with the handle exactly as it was, nothing counted and
    nothing written, when the handle is disabled and also when the hasher
    fails on the mask or on the encoded metadata. *)
Theorem sigblkAddMetadata_reports_success (k : ksifile_s) (iv key value : list Z) :
  disabled k = true
  \/ (disabled k = false /\ IV k = Some iv
      /\ (KSI_DataHasher_run (mask_input k iv) = None
          \/ let '(buffer, size) := tlvCreateMetadata k (nRecords k) key value in
             KSI_DataHasher_run (take (Z.to_nat size) buffer) = None)) ->
  sigblkAddMetadata (Some k) key value = Some (0, Some k)
  /\ RSGTE_HASH_CREATE <> 0.
Proof.
  intros Hc. split; [|apply RSGTE_HASH_CREATE_nonzero].
  unfold sigblkAddMetadata.
  destruct (tlvCreateMetadata k (nRecords k) key value) as [buffer size].
  destruct Hc as [Hd|(Hd & Hiv & Hfail)].
  - unfold sigblkAddLeaf. rewrite Hd. reflexivity.
  - rewrite (sigblkAddLeaf_hasher_fails k iv buffer size true Hd Hiv Hfail).
    reflexivity.
Qed.

End MetadataStatus.

Lemma sigblkAddMetadata_reports_success_witness :
  let k := example_ksi 4 1 (Some [7; 7]) in
  @sigblkAddMetadata test_env_min test_host_unencodable (Some k) blockCloseReason
    (cstr "Block closed due to file closure."%string)
  = Some (0, Some k)
  /\ @RSGTE_HASH_CREATE test_env_min <> 0.
Proof.
  intros k.
  apply (@sigblkAddMetadata_reports_success test_env_min test_host_unencodable k
           [7; 7] blockCloseReason (cstr "Block closed due to file closure."%string)).
  right. split; [reflexivity|]. split; [reflexivity|]. right. reflexivity.
Defined.

(** * The request of a block, the change of block and the signature file *)

(** ** The tree level of a signing request *)

Section RequestLevel.
Context `{KsiEnv}.

Lemma add_queue_item_outcome ctx sys ty a i1 i2 :
  snd (add_queue_item ctx sys ty a i1 i2)
  = enqueue_outcome ctx sys
      (mkItem (sys_malloc sys) ty QITEM_WAITING a (u64 i1) (u64 i2) None
              KSI_UNKNOWN_ERROR (sys_time_enqueue sys)).
Proof.
  unfold enqueue_outcome. destruct (queued sys) eqn:Hq.
  - rewrite add_queue_item_ok by assumption. reflexivity.
  - rewrite add_queue_item_refused by assumption. reflexivity.
Qed.

(** Closing a block with records: the roots are folded into one root. When
    a hash of the fold fails nothing is signed or queued. Otherwise, in
    asynchronous mode the request for the root is handed to
    [add_queue_item] with the record count and the level of twice the count,
    and in synchronous mode the signer is called with them. *)
Lemma sigblkFinishKSI_inv ctx ksi sys r ctx' ksi' :
  nRecords ksi <> 0 ->
  sigblkFinishKSI ctx ksi sys = Some (r, ctx', ksi') ->
  exists r0 ksi0 root,
    sigblkFinishKSI_fold (nRoots ksi) 0 ksi None = Some (r0, ksi0, root)
    /\ (r0 <> 0 -> ctx' = ctx /\ ksi' = sigblkFinishKSI_done ksi0)
    /\ (r0 = 0 ->
        let level := sigblkCalcLevel (u64 (2 * nRecords ksi)) in
        match syncMode ctx with
        | LOGSIG_ASYNCHRONOUS =>
            ctx' = enqueue_outcome ctx sys
                     (sign_request sys root (u64 (nRecords ksi)) (u64 level))
            /\ exists r1 f,
                 tlvWriteNoSigLS12 (blockFile ksi0) (nRecords ksi) root None
                 = Some (r1, f)
                 /\ ksi' = sigblkFinishKSI_done (set_blockFile f ksi0)
        | LOGSIG_SYNCHRONOUS =>
            ctx' = ctx
            /\ signed_in_place (blockFile ksi0) (nRecords ksi) root (s32 level)
                 (blockFile ksi')
        end).
Proof.
  intros Hn Hf. unfold sigblkFinishKSI in Hf.
  replace (nRecords ksi =? 0) with false in Hf
    by (symmetry; apply Z.eqb_neq; exact Hn).
  destruct (sigblkFinishKSI_fold (nRoots ksi) 0 ksi None) as [[[r0 k0] root]|] eqn:Ht;
    [|discriminate Hf].
  cbn [bind] in Hf.
  pose proof (sigblkFinishKSI_fold_nRecords _ _ _ _ _ _ _ Ht) as Hrec.
  exists r0, k0, root. split; [reflexivity|].
  destruct (Z.eqb_spec r0 0) as [Hr0|Hr0]; cbn [negb] in Hf.
  - split; [intros Hc; contradiction|]. intros _. cbv zeta.
    rewrite Hrec in Hf.
    destruct (syncMode ctx).
    + destruct (tlvWriteNoSigLS12 (blockFile k0) (nRecords ksi) root None)
        as [[r1 f]|] eqn:Hw; [|discriminate Hf].
      cbn [bind ret] in Hf. injection Hf as _ <- <-.
      split; [apply add_queue_item_outcome|].
      exists r1, f. split; reflexivity.
    + destruct (sigblkSign k0 root (sigblkCalcLevel (u64 (2 * nRecords ksi))))
        as [[r1 k1]|] eqn:Hs; [|discriminate Hf].
      cbn [bind ret] in Hf. injection Hf as _ <- <-.
      split; [reflexivity|].
      unfold sigblkSign in Hs. rewrite Hrec in Hs. unfold signed_in_place.
      destruct (KSI_sign (default [] root)
                  (s32 (sigblkCalcLevel (u64 (2 * nRecords ksi))))) as [e|der].
      * bind_inv Hs. destruct p as [r2 f]. inversion Hs; subst.
        exists r2. reflexivity.
      * bind_inv Hs. destruct p as [r2 f]. inversion Hs; subst.
        exists r2. reflexivity.
  - unfold ret in Hf. injection Hf as _ <- <-.
    split; [intros _; split; reflexivity | intros Hc; contradiction].
Qed.

(** With a hasher that does not fail the block is closed, and the fold
    ends with status 0. *)
Lemma sigblkFinishKSI_finishes ctx ksi sys :
  (forall bs, KSI_DataHasher_run bs <> None) ->
  nRecords ksi <> 0 ->
  exists r ctx' ksi' ksi0 root,
    sigblkFinishKSI ctx ksi sys = Some (r, ctx', ksi')
    /\ sigblkFinishKSI_fold (nRoots ksi) 0 ksi None = Some (0, ksi0, root)
    /\ let level := sigblkCalcLevel (u64 (2 * nRecords ksi)) in
       match syncMode ctx with
       | LOGSIG_ASYNCHRONOUS =>
           ctx' = enqueue_outcome ctx sys
                    (sign_request sys root (u64 (nRecords ksi)) (u64 level))
           /\ exists r1 f,
                tlvWriteNoSigLS12 (blockFile ksi0) (nRecords ksi) root None
                = Some (r1, f)
                /\ ksi' = sigblkFinishKSI_done (set_blockFile f ksi0)
       | LOGSIG_SYNCHRONOUS =>
           ctx' = ctx
           /\ signed_in_place (blockFile ksi0) (nRecords ksi) root (s32 level)
                (blockFile ksi')
           /\ exists k1, ksi' = sigblkFinishKSI_done k1
                         /\ block_settings k1 = block_settings ksi0
                         /\ lastLeaf k1 = lastLeaf ksi0
       end.
Proof.
  intros Hh Hn. unfold sigblkFinishKSI.
  replace (nRecords ksi =? 0) with false by (symmetry; apply Z.eqb_neq; exact Hn).
  destruct (sigblkFinishKSI_fold_total Hh (nRoots ksi) 0 ksi None)
    as (r0 & k0 & root & Ht).
  pose proof (sigblkFinishKSI_fold_status _ Hh _ _ _ _ _ _ Ht) as ->.
  pose proof (sigblkFinishKSI_fold_nRecords _ _ _ _ _ _ _ Ht) as Hrec.
  rewrite Ht. cbn [bind]. change (negb (0 =? 0)) with false. cbv iota.
  rewrite Hrec.
  destruct (syncMode ctx) eqn:Hmode.
  - destruct (tlvWriteNoSigLS12_total (blockFile k0) (nRecords ksi) root None)
      as (r1 & f & Hw).
    rewrite Hw. cbn [bind ret].
    eexists _, _, _, k0, root. split; [reflexivity|]. split; [reflexivity|].
    cbv zeta. split; [apply add_queue_item_outcome|].
    exists r1, f. split; [exact Hw | reflexivity].
  - destruct (sigblkSign_total k0 root (sigblkCalcLevel (u64 (2 * nRecords ksi))))
      as (r1 & k1 & Hs).
    rewrite Hs. cbn [bind ret].
    eexists _, _, _, k0, root. split; [reflexivity|]. split; [reflexivity|].
    cbv zeta. split; [reflexivity|].
    unfold sigblkSign in Hs. rewrite Hrec in Hs. unfold signed_in_place.
    destruct (KSI_sign (default [] root)
                (s32 (sigblkCalcLevel (u64 (2 * nRecords ksi))))) as [e|der].
    + bind_inv Hs. destruct p as [r2 f]. inversion Hs; subst.
      split; [exists r2; reflexivity|]. eexists. split; [reflexivity|].
      split; reflexivity.
    + bind_inv Hs. destruct p as [r2 f]. inversion Hs; subst.
      split; [exists r2; reflexivity|]. eexists. split; [reflexivity|].
      split; reflexivity.
Qed.

(** C4 (amended). For [N >= 1] with [2 * N] in the range of [unsigned],
    [sigblkCalcLevel (2 * N)] is the least [l >= 0] with [2 ^ l >= 2 * N],
    and [sigblkCalcLevel 0 = 0]. That level goes with the signing request of
    every block of [N] records that [sigblkFinishKSI] closes: unless a hash
    of the fold of the roots fails, in which case nothing is requested, in
    asynchronous mode the context comes back with the request for the root,
    [N] records and level [l] as the new last item of the queue (or
    disabled, the queue as it was, when [malloc] or the push fails), and in
    synchronous mode the block file receives what the signer answers for the
    root at level [l]. With a hasher that does not fail the block is closed
    and the fold succeeds. *)
Theorem sigblkCalcLevel_ceil_log2 (N : Z) :
  1 <= N -> 2 * N < 4294967296 ->
  let l := sigblkCalcLevel (2 * N) in
  0 <= l
  /\ 2 * N <= 2 ^ l
  /\ (forall l', 0 <= l' -> 2 * N <= 2 ^ l' -> l <= l')
  /\ sigblkCalcLevel 0 = 0
  /\ (forall ctx ksi sys r ctx' ksi',
         nRecords ksi = N ->
         sigblkFinishKSI ctx ksi sys = Some (r, ctx', ksi') ->
         exists r0 ksi0 root,
           sigblkFinishKSI_fold (nRoots ksi) 0 ksi None = Some (r0, ksi0, root)
           /\ (r0 <> 0 -> ctx' = ctx /\ blockFile ksi' = blockFile ksi0)
           /\ (r0 = 0 ->
               match syncMode ctx with
               | LOGSIG_ASYNCHRONOUS =>
                   ctx' = enqueue_outcome ctx sys (sign_request sys root N l)
               | LOGSIG_SYNCHRONOUS =>
                   ctx' = ctx
                   /\ signed_in_place (blockFile ksi0) N root l (blockFile ksi')
               end))
  /\ ((forall bs, KSI_DataHasher_run bs <> None) ->
      forall ctx ksi sys,
        nRecords ksi = N ->
        exists r ctx' ksi' ksi0 root,
          sigblkFinishKSI ctx ksi sys = Some (r, ctx', ksi')
          /\ sigblkFinishKSI_fold (nRoots ksi) 0 ksi None = Some (0, ksi0, root)).
Proof.
  intros HN Hfit l.
  destruct (sigblkCalcLevel_least N HN Hfit) as (H0 & Hup & Hleast).
  fold l in H0, Hup, Hleast.
  split; [assumption|]. split; [assumption|]. split; [assumption|].
  split; [reflexivity|].
  assert (Hl32 : l <= 32).
  { apply Hleast; [lia|]. change (2 ^ 32) with 4294967296. lia. }
  split.
  - intros ctx ksi sys r ctx' ksi' HNrec Hf.
    destruct (sigblkFinishKSI_inv ctx ksi sys r ctx' ksi' ltac:(lia) Hf)
      as (r0 & ksi0 & root & Hfold & Hfail & Hm).
    exists r0, ksi0, root. split; [exact Hfold|]. split.
    + intros Hr0. destruct (Hfail Hr0) as [Hc ->]. split; [exact Hc | reflexivity].
    + intros Hr0. specialize (Hm Hr0).
      cbv zeta in Hm. rewrite HNrec in Hm.
      rewrite (u64_small (2 * N)) in Hm by lia. fold l in Hm.
      destruct (syncMode ctx).
      * destruct Hm as [Hm _].
        rewrite (u64_small N), (u64_small l) in Hm by lia. exact Hm.
      * destruct Hm as (Hc & Hs). split; [exact Hc|].
        rewrite s32_small in Hs by lia. exact Hs.
  - intros Hh ctx ksi sys HNrec.
    destruct (sigblkFinishKSI_finishes ctx ksi sys Hh ltac:(lia))
      as (r & ctx' & ksi' & ksi0 & root & Hf & Hfold & _).
    exists r, ctx', ksi', ksi0, root. split; assumption.
Qed.

End RequestLevel.

(** C4 (counterexample). A block of [2 ^ 31] records: twice the count does
    not fit the [unsigned] parameter of [sigblkCalcLevel], which receives 0;
    the request of the block carries level 0, while 32 is the least [l] with
    [2 ^ l >= 2 ^ 32]. *)
Lemma sigblkCalcLevel_wraps :
  let N := 2147483648 in
  1 <= N
  /\ sigblkCalcLevel (2 * N) = 0
  /\ 2 ^ 0 < 2 * N
  /\ exists r ctx' ksi',
       @sigblkFinishKSI test_env (example_ctx 32 32 LOGSIG_ASYNCHRONOUS)
         (example_ksi 4294967296 N (Some [9; 9])) example_sys
       = Some (r, ctx', ksi')
       /\ map (fun qi => (type qi, intarg1 qi, intarg2 qi)) (signer_queue ctx')
          = [(QITEM_SIGNATURE_REQUEST, N, 0)].
Proof.
  split; [discriminate|]. split; [reflexivity|]. split; [reflexivity|].
  eexists _, _, _. split; vm_compute; reflexivity.
Qed.

Lemma sigblkCalcLevel_ceil_log2_witness :
  let ctx := example_ctx 4 4 LOGSIG_ASYNCHRONOUS in
  sigblkCalcLevel (2 * 3) = 3
  /\ (forall l', 0 <= l' -> 2 * 3 <= 2 ^ l' -> 3 <= l')
  /\ exists r ctx' ksi',
       @sigblkFinishKSI test_env ctx example_block3 example_sys = Some (r, ctx', ksi')
       /\ map (fun qi => (qaddr qi, type qi, intarg1 qi, intarg2 qi))
            (signer_queue ctx')
          = [(4096%nat, QITEM_SIGNATURE_REQUEST, 3, 3)].
Proof.
  intros ctx.
  destruct (@sigblkCalcLevel_ceil_log2 test_env 3 ltac:(lia) ltac:(lia))
    as (_ & _ & Hleast & _ & Hreq & Htotal).
  split; [reflexivity|]. split; [exact Hleast|].
  destruct (Htotal ltac:(intros bs; discriminate) ctx example_block3 example_sys
              eq_refl) as (r & ctx' & ksi' & k0 & root & Hf & Hfold).
  destruct (Hreq ctx example_block3 example_sys r ctx' ksi' eq_refl Hf)
    as (r0 & k0' & root' & Hfold' & _ & Hq).
  assert (Hr0 : r0 = 0) by congruence.
  specialize (Hq Hr0). cbn [syncMode ctx example_ctx] in Hq.
  exists r, ctx', ksi'. split; [exact Hf|]. rewrite Hq. reflexivity.
Defined.

(** ** The block size limit and the change of block *)

Section BlockChange.
Context `{KsiEnv}.

Lemma sigblkCalcLevel_range (leaves : Z) : 0 <= sigblkCalcLevel leaves <= 32.
Proof.
  unfold sigblkCalcLevel.
  assert (Hu : 0 <= u32 leaves < 4294967296)
    by (unfold u32; apply Z.mod_pos_bound; lia).
  rewrite sigblkCalcLevel_loop_log2;
    [| change (2 ^ Z.of_nat 32) with 4294967296; lia | lia | simpl; lia].
  rewrite Z.add_0_l.
  assert (Hnn : 0 <= Z.log2 (u32 leaves)) by apply Z.log2_nonneg.
  assert (Hlt : Z.log2 (u32 leaves) < 32).
  { destruct (Z.eq_dec (u32 leaves) 0) as [->|Hne]; [simpl; lia|].
    apply Z.log2_lt_pow2; [lia|]. change (2 ^ 32) with 4294967296. lia. }
  destruct (s32 (Z.shiftl 1 (Z.log2 (u32 leaves))) <? s32 (u32 leaves)).
  - rewrite u32_small by lia. lia.
  - lia.
Qed.

Lemma sigblkAddLeaf_counts k rec len md k1 :
  disabled k = false ->
  0 <= nRecords k < 18446744073709551615 ->
  sigblkAddLeaf (Some k) rec len md = Some (0, Some k1) ->
  nRecords k1 = nRecords k + 1 /\ blockSizeLimit k1 = blockSizeLimit k.
Proof.
  intros Hd Hn Hleaf.
  destruct (sigblkAddLeaf_inv _ _ _ _ _ Hd Hleaf)
    as (iv & mask & leafHash & node & f & k6 & t' & _ & _ & _ & _ & Hc & Hk').
  pose proof (sigblkAddLeaf_carry_frame _ _ _ _ _ _ _ Hc) as (_ & _ & Hr & _).
  pose proof (sigblkAddLeaf_carry_settings _ _ _ _ _ _ _ Hc) as (_ & _ & Hb & _).
  cbn in Hr, Hb.
  destruct t' as [t|]; [destruct Hk' as [_ ->] | subst k1]; cbn; rewrite Hr;
    (split; [apply u64_small; lia | exact Hb]).
Qed.

(** C9 (amended). Under an effective level limit [L] between 1 and 31
    every [sigblkInitKSI] sets [blockSizeLimit] to [2 ^ (L - 1)]. A successful
    [sigblkAddRecordKSI] adds its leaf; when that brings [nRecords] to
    [blockSizeLimit], the same call closes the block and opens the next one.
    Closing folds the roots into the root of the block; unless a hash of that
    fold fails, in which case nothing is signed, in asynchronous mode the
    record without signature goes to the block file and the request for the
    root, with the record count and its tree level, is queued (or the context
    disabled when [malloc] or the push fails), and in synchronous mode the
    block file receives what the signer answers. The next block has no
    records, no roots, a fresh IV and start time, the last leaf of the block
    before, and the limit taken anew from [L]. Below the limit the call is
    the added leaf alone. *)
Theorem sigblkAddRecordKSI_block_limit (ctx : rsksictx_s) (k : ksifile_s)
    (rec : list Z) (len : Z) (sys : SysIn) (ctx' : rsksictx_s)
    (ksi' : option ksifile_s) :
  disabled k = false ->
  1 <= effectiveBlockLevelLimit ctx <= 31 ->
  0 <= nRecords k < 18446744073709551615 ->
  sigblkAddRecordKSI ctx (Some k) rec len sys = Some (0, ctx', ksi') ->
  (forall k0, exists k1,
      sigblkInitKSI ctx (Some k0) sys = Some k1
      /\ blockSizeLimit k1 = 2 ^ (effectiveBlockLevelLimit ctx - 1))
  /\ exists k1,
       sigblkAddLeaf (Some k) rec len false = Some (0, Some k1)
       /\ nRecords k1 = nRecords k + 1
       /\ (nRecords k1 <> blockSizeLimit k1 -> ctx' = ctx /\ ksi' = Some k1)
       /\ (nRecords k1 = blockSizeLimit k1 ->
           exists k3 r0 ksi0 root,
             ksi' = Some k3
             /\ sigblkFinishKSI_fold (nRoots k1) 0 k1 None = Some (r0, ksi0, root)
             /\ (r0 <> 0 -> ctx' = ctx /\ blockFile k3 = blockFile ksi0)
             /\ (r0 = 0 ->
                 let N := nRecords k1 in
                 let l := sigblkCalcLevel (u64 (2 * N)) in
                 match syncMode ctx with
                 | LOGSIG_ASYNCHRONOUS =>
                     ctx' = enqueue_outcome ctx sys (sign_request sys root N l)
                     /\ exists r,
                          tlvWriteNoSigLS12 (blockFile ksi0) N root None
                          = Some (r, blockFile k3)
                 | LOGSIG_SYNCHRONOUS =>
                     ctx' = ctx
                     /\ signed_in_place (blockFile ksi0) N root l (blockFile k3)
                 end)
             /\ nRecords k3 = 0 /\ nRoots k3 = 0%nat
             /\ roots k3 = replicate MAX_ROOTS None
             /\ bInBlk k3 = 1
             /\ IV k3 = Some (sys_random sys)
             /\ blockStarted k3 = sys_time_init sys
             /\ lastLeaf k3 = lastLeaf k1
             /\ blockSizeLimit k3 = 2 ^ (effectiveBlockLevelLimit ctx - 1)).
Proof.
  intros Hd HL Hn Hr. split.
  - intros k0. destruct (sigblkInitKSI_fields ctx k0 sys) as (k1 & Hi & Hb & _).
    exists k1. split; [assumption|]. rewrite Hb. apply int_shift_small. assumption.
  - unfold sigblkAddRecordKSI in Hr. rewrite Hd in Hr.
    bind_inv Hr. destruct p as [r o].
    destruct (sigblkAddLeaf_some _ _ _ _ _ _ E) as [k1 Ho]. subst o.
    destruct (Z.eqb_spec r 0) as [Hr0|Hr0]; simpl in Hr.
    2: { inversion Hr; subst. congruence. }
    subst r. exists k1. split; [reflexivity|].
    destruct (sigblkAddLeaf_counts _ _ _ _ _ Hd Hn E) as [Hrec _].
    split; [exact Hrec|].
    destruct (Z.eqb_spec (nRecords k1) (blockSizeLimit k1)) as [Heq|Hne].
    + split; [intros Hc; contradiction|]. intros _.
      destruct (sigblkFinishKSI ctx k1 sys) as [[[r2 ctx2] k2]|] eqn:Hf;
        [|discriminate Hr].
      destruct (sigblkFinishKSI_inv ctx k1 sys r2 ctx2 k2 ltac:(lia) Hf)
        as (r0 & ksi0 & root & Hfold & Hfail & Hm).
      cbn [bind ret] in Hr.
      destruct (sigblkFinishKSI_settings _ _ _ _ _ _ Hf) as (Hll & _).
      pose proof (sigblkFinishKSI_level _ _ _ _ _ _ Hf) as Hlev.
      destruct (sigblkInitKSI_fields ctx2 k2 sys)
        as (k3 & Hi & Hb & Hn3 & Hr3 & Hin & Hiv & Hroots & Hll3 & _).
      assert (Hr' : Some (0, ctx2, Some k3) = Some (0, ctx', ksi')).
      { rewrite <- Hr. unfold sigblkInitKSI in Hi. inversion Hi. reflexivity. }
      inversion Hr'; subst ctx2 ksi'. clear Hr Hr'.
      assert (Hfile : blockFile k3 = blockFile k2).
      { unfold sigblkInitKSI in Hi. inversion Hi. reflexivity. }
      assert (Hst : blockStarted k3 = sys_time_init sys).
      { unfold sigblkInitKSI in Hi. inversion Hi. reflexivity. }
      exists k3, r0, ksi0, root. split; [reflexivity|]. split; [exact Hfold|].
      split.
      { intros Hr0. destruct (Hfail Hr0) as [Hc Hk2]. split; [exact Hc|].
        rewrite Hfile, Hk2. reflexivity. }
      split.
      { intros Hr0. specialize (Hm Hr0). cbv zeta in Hm |- *.
        pose proof (sigblkCalcLevel_range (u64 (2 * nRecords k1))) as Hl.
        rewrite (u64_small (sigblkCalcLevel _)) in Hm by lia.
        rewrite s32_small in Hm by lia.
        rewrite (u64_small (nRecords k1)) in Hm by lia.
        rewrite Hfile.
        destruct (syncMode ctx).
        - destruct Hm as (Hc & r1 & f & Hw & ->). split; [exact Hc|].
          exists r1. exact Hw.
        - destruct Hm as (Hc & Hs). split; [exact Hc | exact Hs]. }
      split; [exact Hn3|]. split; [exact Hr3|]. split; [exact Hroots|].
      split; [exact Hin|]. split; [exact Hiv|]. split; [exact Hst|].
      split; [congruence|].
      rewrite Hb, Hlev. apply int_shift_small. exact HL.
    + split; [|intros Hc; contradiction].
      intros _. inversion Hr; subst. split; reflexivity.
Qed.

End BlockChange.

(** C9 (counterexample). Under an effective level limit of 32 the [int]
    shift [1 << 31] is [INT_MIN], which the [uint64_t] field holds as
    [2 ^ 64 - 2 ^ 31], not [2 ^ 31]. A config push that reports maxLevel 0
    installs the limit 0, and the next block gets the same value. *)
Lemma sigblkInitKSI_limit_outside_range :
  let ctx32 := example_ctx 32 32 LOGSIG_ASYNCHRONOUS in
  let ctx0 := fst (handle_ksi_config ctx32 None (mkConfig None (Some 0))) in
  exists k32 k0,
    @sigblkInitKSI test_env ctx32 (Some (example_ksi 0 0 None)) example_sys = Some k32
    /\ blockSizeLimit k32 = 18446744071562067968
    /\ blockSizeLimit k32 <> 2 ^ (effectiveBlockLevelLimit ctx32 - 1)
    /\ effectiveBlockLevelLimit ctx0 = 0
    /\ @sigblkInitKSI test_env ctx0 (Some (example_ksi 0 0 None)) example_sys = Some k0
    /\ blockSizeLimit k0 = 18446744071562067968.
Proof.
  eexists _, _. split; [reflexivity|]. split; [reflexivity|].
  split; [discriminate|]. split; [reflexivity|]. split; reflexivity.
Qed.

Lemma sigblkAddRecordKSI_block_limit_witness :
  let ctx := example_ctx 2 2 LOGSIG_ASYNCHRONOUS in
  let k := default (example_ksi 0 0 None) example_block in
  nRecords k = 1 /\ blockSizeLimit k = 2 ^ (2 - 1)
  /\ exists ctx' k3,
       @sigblkAddRecordKSI test_env ctx (Some k) [66; 10] 2 example_sys
       = Some (0, ctx', Some k3)
       /\ map (fun qi => (qaddr qi, type qi, intarg1 qi, intarg2 qi))
            (signer_queue ctx')
          = [(4096%nat, QITEM_SIGNATURE_REQUEST, 2, 2)]
       /\ ctx_disabled ctx' = false
       /\ nRecords k3 = 0 /\ nRoots k3 = 0%nat /\ bInBlk k3 = 1
       /\ IV k3 = Some [9; 9]
       /\ blockSizeLimit k3 = 2 ^ (2 - 1).
Proof.
  intros ctx k.
  split; [reflexivity|]. split; [reflexivity|].
  assert (Hrun : exists ctx' ksi',
             @sigblkAddRecordKSI test_env ctx (Some k) [66; 10] 2 example_sys
             = Some (0, ctx', ksi')).
  { eexists _, _. vm_compute. reflexivity. }
  destruct Hrun as (ctx' & ksi' & Hrun).
  destruct (@sigblkAddRecordKSI_block_limit test_env ctx k [66; 10] 2 example_sys
              ctx' ksi')
    as (_ & k1 & Hleaf & _ & _ & Hfull).
  - reflexivity.
  - vm_compute. split; discriminate.
  - vm_compute. split; [discriminate | reflexivity].
  - exact Hrun.
  - vm_compute in Hleaf. inversion Hleaf; subst k1. clear Hleaf.
    destruct (Hfull eq_refl)
      as (k3 & r0 & ksi0 & root & Hk & Hfold & _ & Hmode
          & Hn & Hr & _ & Hb & Hiv & _ & _ & Hlim).
    assert (Hr0 : r0 = 0).
    { pose proof Hfold as Hc. vm_compute in Hc. inversion Hc. reflexivity. }
    specialize (Hmode Hr0).
    cbv zeta in Hmode. cbn [syncMode ctx example_ctx] in Hmode.
    destruct Hmode as [Hctx _].
    exists ctx', k3. rewrite Hrun, Hk, Hctx.
    split; [reflexivity|]. split; [reflexivity|]. split; [reflexivity|].
    split; [exact Hn|]. split; [exact Hr|]. split; [exact Hb|].
    split; [exact Hiv | exact Hlim].
Defined.

(** ** The value bytes of an integer *)

Section IntegerValue.
Context `{KsiEnv}.

Lemma tlvInt64_fill_bytes (count : nat) :
  forall nTmp buf,
    Forall (fun b => 0 <= b < 256) buf ->
    Forall (fun b => 0 <= b < 256) (tlvInt64_fill count nTmp buf).
Proof.
  induction count as [|count IH]; intros nTmp buf Hb; cbn [tlvInt64_fill].
  - exact Hb.
  - apply IH. constructor; [|exact Hb].
    rewrite Z.land_comm, land_255. apply Z.mod_pos_bound. lia.
Qed.

(** What [sigblkFinishKSI] queues has a record count that is not 0, and for
    a block without records it writes nothing. *)
Lemma sigblkFinishKSI_counts ctx ksi sys r ctx' ksi' :
  0 <= nRecords ksi < 18446744073709551616 ->
  sigblkFinishKSI ctx ksi sys = Some (r, ctx', ksi') ->
  (nRecords ksi = 0 -> ctx' = ctx /\ blockFile ksi' = blockFile ksi)
  /\ exists new,
       signer_queue ctx' = signer_queue ctx ++ new
       /\ Forall (fun qi => intarg1 qi <> 0) new.
Proof.
  intros Hn Hf. unfold sigblkFinishKSI in Hf.
  destruct (Z.eqb_spec (nRecords ksi) 0) as [H0|H0].
  - inversion Hf; subst. split; [intros _; split; reflexivity|].
    exists []. rewrite app_nil_r. split; [reflexivity | constructor].
  - split; [intros Hc; contradiction|].
    bind_inv Hf. destruct p as [[r0 k0] root].
    apply sigblkFinishKSI_fold_nRecords in E.
    destruct (negb (r0 =? 0)).
    { inversion Hf; subst. exists []. rewrite app_nil_r.
      split; [reflexivity | constructor]. }
    destruct (syncMode ctx).
    + bind_inv Hf. destruct p as [r1 f]. inversion Hf; subst.
      rewrite add_queue_item_queue. eexists. split; [reflexivity|].
      destruct (queued sys); [|constructor].
      constructor; [|constructor]. cbn [intarg1]. rewrite E.
      rewrite u64_small by lia. exact H0.
    + bind_inv Hf. destruct p as [r1 k1]. inversion Hf; subst.
      exists []. rewrite app_nil_r. split; [reflexivity | constructor].
Qed.

(** C6 (amended). An integer of 64 bits is written as the tag, the length
    byte and the value bytes; the value bytes are the value most significant
    byte first in as few bytes as hold it, none for 0. For every value but 0 the
    call returns 0. For 0 the header with length 0 is all that is written
    and the call reports [RSGTE_IO]: the [fwrite] of the empty payload counts
    no item. The integers the file writes are record counts, and those are
    never 0: for a block without records [sigblkFinishKSI] writes and queues
    nothing, and the requests it queues carry a count that is not 0. *)
Theorem tlvWriteInt64TLV_value_bytes (bs : list Z) (tlvtype val : Z) :
  0 <= tlvtype <= 31 -> 0 <= val < 18446744073709551616 ->
  (exists payload : list Z,
      tlvGetIntSize val = Z.of_nat (length payload)
      /\ Forall (fun b => 0 <= b < 256) payload
      /\ be_value payload = val
      /\ (val = 0 -> payload = [])
      /\ (val <> 0 -> 256 ^ (Z.of_nat (length payload) - 1) <= val)
      /\ tlvWriteInt64TLV (mkFILE bs false) 0 tlvtype val
         = Some ((if val =? 0 then RSGTE_IO else 0),
                 mkFILE (bs ++ [tlvtype; Z.of_nat (length payload)] ++ payload)
                        false))
  /\ RSGTE_IO <> 0
  /\ (forall ctx ksi sys r ctx' ksi',
         0 <= nRecords ksi < 18446744073709551616 ->
         sigblkFinishKSI ctx ksi sys = Some (r, ctx', ksi') ->
         (nRecords ksi = 0 -> ctx' = ctx /\ blockFile ksi' = blockFile ksi)
         /\ exists new,
              signer_queue ctx' = signer_queue ctx ++ new
              /\ Forall (fun qi => intarg1 qi <> 0) new).
Proof.
  intros Ht Hv. split; [|split; [apply RSGTE_IO_nonzero|]].
  2: { intros ctx ksi sys r ctx' ksi'. apply sigblkFinishKSI_counts. }
  destruct (Z.eq_dec val 0) as [->|Hnz].
  - exists []. split; [reflexivity|]. split; [constructor|]. split; [reflexivity|].
    split; [reflexivity|]. split; [intros Hc; contradiction|].
    unfold tlvWriteInt64TLV. change (tlvGetIntSize (u64 0)) with 0.
    rewrite tlvWriteHeader_short_tag by lia.
    reflexivity.
  - destruct (tlvWriteInt64TLV_ok bs tlvtype val Ht ltac:(lia))
      as (Hw & Hr & Hlen & Hval).
    destruct (tlvGetIntSize_loop_spec 8 val 0) as (n & Hn & Hle & Hup & Hlo).
    { change (256 ^ Z.of_nat 8) with 18446744073709551616. lia. }
    { lia. }
    { simpl. lia. }
    assert (Hsz : tlvGetIntSize val = Z.of_nat n).
    { unfold tlvGetIntSize. rewrite u64_small by lia. rewrite Hn. lia. }
    exists (tlvInt64_fill (Z.to_nat (tlvGetIntSize val)) val []).
    rewrite Hlen. split; [reflexivity|].
    split; [apply tlvInt64_fill_bytes; constructor|].
    split; [exact Hval|]. split; [intros Hc; contradiction|].
    split.
    + intros _. rewrite Hsz. apply Hlo. lia.
    + replace (val =? 0) with false by (symmetry; apply Z.eqb_neq; exact Hnz).
      exact Hw.
Qed.

End IntegerValue.

(** C6 (counterexample). Written alone, the integer 0 makes
    [tlvWriteInt64TLV] report [RSGTE_IO], 1 in the example, after the header
    [01 00]. *)
Lemma tlvWriteInt64TLV_zero_not_success :
  exists r f,
    @tlvWriteInt64TLV test_env (mkFILE [] false) 0 0x01 0 = Some (r, f)
    /\ r <> 0 /\ fbytes f = [0x01; 0].
Proof.
  eexists _, _. split; [reflexivity|]. split; [discriminate | reflexivity].
Qed.

Lemma tlvWriteInt64TLV_value_bytes_witness :
  @tlvWriteInt64TLV test_env (mkFILE [0x89; 0x04] false) 0 0x01 258
  = Some (0, mkFILE [0x89; 0x04; 0x01; 2; 1; 2] false)
  /\ @tlvWriteInt64TLV test_env (mkFILE [] false) 0 0x01 0
     = Some (1, mkFILE [0x01; 0] false).
Proof.
  destruct (@tlvWriteInt64TLV_value_bytes test_env [0x89; 0x04] 0x01 258
              ltac:(lia) ltac:(lia)) as ((p1 & Hs1 & _ & _ & _ & _ & Hw1) & _).
  destruct (@tlvWriteInt64TLV_value_bytes test_env [] 0x01 0
              ltac:(lia) ltac:(lia)) as ((p0 & Hs0 & _ & _ & _ & _ & Hw0) & _).
  assert (H1 : p1 = [1; 2]).
  { pose proof Hw1 as Hc. vm_compute in Hc. inversion Hc. reflexivity. }
  assert (H0 : p0 = []).
  { pose proof Hw0 as Hc. vm_compute in Hc. inversion Hc. reflexivity. }
  subst p1 p0. split; [exact Hw1 | exact Hw0].
Defined.

(** ** The records of the signature file *)

Section SignatureRecords.
Context `{KsiEnv}.

Lemma tlvInt64_fill_be (count : nat) :
  forall nTmp buf, tlvInt64_fill count nTmp buf = be_bytes count nTmp ++ buf.
Proof.
  induction count as [|count IH]; intros nTmp buf; cbn [tlvInt64_fill be_bytes].
  - reflexivity.
  - rewrite IH, shiftr_8, Z.land_comm, land_255, <- app_assoc. reflexivity.
Qed.

Lemma length_be_bytes (n : nat) : forall v, length (be_bytes n v) = n.
Proof.
  induction n as [|n IH]; intros v; cbn [be_bytes]; [reflexivity|].
  rewrite length_app, IH. cbn [length]. lia.
Qed.

Lemma tlvGetIntSize_loop_length (fuel : nat) :
  forall v n,
    0 <= n -> n + Z.of_nat fuel < 256 ->
    tlvGetIntSize_loop fuel v n = n + Z.of_nat (byte_length fuel v).
Proof.
  induction fuel as [|fuel IH]; intros v n Hn Hb;
    cbn [tlvGetIntSize_loop byte_length].
  - cbn. lia.
  - destruct (v =? 0); [cbn; lia|].
    rewrite u8_small by lia. rewrite IH by lia. rewrite shiftr_8. lia.
Qed.

Lemma tlvGetIntSize_length (v : Z) :
  0 <= v < 18446744073709551616 ->
  tlvGetIntSize v = Z.of_nat (byte_length 8 v).
Proof.
  intros Hv. unfold tlvGetIntSize. rewrite u64_small by lia.
  rewrite tlvGetIntSize_loop_length by (simpl; lia). lia.
Qed.

(** The integer TLV of a record count that is not 0. *)
Lemma tlvWriteInt64TLV_count (bs : list Z) (n : Z) :
  0 < n < 18446744073709551616 ->
  tlvWriteInt64TLV (mkFILE bs false) 0 0x01 n
  = Some (0, mkFILE (bs ++ count_tlv n) false)
  /\ 1 <= Z.of_nat (length (be_bytes (byte_length 8 n) n)) <= 8.
Proof.
  intros Hn.
  destruct (tlvWriteInt64TLV_ok bs 0x01 n ltac:(lia) Hn) as (Hw & Hr & Hlen & _).
  cbv zeta in Hw, Hlen.
  rewrite tlvInt64_fill_be, app_nil_r in Hw, Hlen.
  rewrite tlvGetIntSize_length in Hw, Hlen, Hr by lia.
  rewrite Nat2Z.id in Hw, Hlen.
  split; [|lia].
  rewrite Hw. unfold count_tlv, tlv8. rewrite Hlen. reflexivity.
Qed.

Lemma length_tlv8 (tag : Z) (value : list Z) :
  Z.of_nat (length (tlv8 tag value)) = 2 + Z.of_nat (length value).
Proof. unfold tlv8. rewrite length_app. cbn [length]. lia. Qed.

Lemma length_tlv16 (tag : Z) (value : list Z) :
  Z.of_nat (length (tlv16 tag value)) = 4 + Z.of_nat (length value).
Proof. unfold tlv16. cbv zeta. rewrite length_app. cbn [length]. lia. Qed.

Lemma length_count_tlv (n : Z) :
  0 < n < 18446744073709551616 ->
  Z.of_nat (length (count_tlv n)) = 2 + tlvGetIntSize n
  /\ 1 <= tlvGetIntSize n <= 8.
Proof.
  intros Hn. destruct (tlvWriteInt64TLV_count [] n Hn) as [_ Hr].
  rewrite length_be_bytes in Hr.
  unfold count_tlv. rewrite length_tlv8, length_be_bytes.
  rewrite !tlvGetIntSize_length by lia. lia.
Qed.

(** The signature record as [tlvWriteKSISigLS12] writes it. *)
Lemma tlvWriteKSISigLS12_record (bs : list Z) (n : Z) (der : list Z) :
  0 < n < 18446744073709551616 ->
  (0 < length der)%nat -> Z.of_nat (length der) <= 65000 ->
  tlvWriteKSISigLS12 (mkFILE bs false) n der (Z.of_nat (length der))
  = Some (0, mkFILE (bs ++ sig_record n der) false).
Proof.
  intros Hn Hd0 Hd.
  destruct (length_count_tlv n Hn) as [Hc Hr].
  set (lenDer := Z.of_nat (length der)) in *.
  unfold tlvWriteKSISigLS12. rewrite (u16_small lenDer) by lia.
  rewrite s32_small by lia.
  erewrite CHKr_ok by (apply tlvWriteHeader_long_tag_ok; lia).
  erewrite CHKr_ok by (apply tlvWriteInt64TLV_count; exact Hn).
  rewrite tlvWriteOctetStringTLV_long_ok by lia.
  subst lenDer. rewrite Nat2Z.id, firstn_all.
  unfold sig_record. unfold tlv16 at 1. cbv zeta.
  rewrite length_app, Nat2Z.inj_add, Hc, length_tlv16.
  unfold tlv16. cbv zeta.
  replace (2 + tlvGetIntSize n + (4 + Z.of_nat (length der)))
    with (2 + tlvGetIntSize n + 4 + Z.of_nat (length der)) by lia.
  rewrite <- !app_assoc. reflexivity.
Qed.

(** The record of a block without signature as [tlvWriteNoSigLS12] writes
    it. *)
Lemma tlvWriteNoSigLS12_record (bs : list Z) (n : Z) (imprint text : list Z) :
  0 < n < 18446744073709551616 ->
  (0 < length imprint)%nat ->
  Z.of_nat (length imprint) + Z.of_nat (length text) + 5 <= 255 ->
  tlvWriteNoSigLS12 (mkFILE bs false) n (Some imprint) (Some text)
  = Some (0, mkFILE (bs ++ nosig_record n imprint text) false).
Proof.
  intros Hn Hi HS.
  destruct (length_count_tlv n Hn) as [Hc Hr].
  set (L := Z.of_nat (length imprint)) in *.
  set (t := Z.of_nat (length text)) in *.
  assert (Ht0 : 0 <= t) by (subst t; lia).
  unfold tlvWriteNoSigLS12. change (default [] (Some imprint)) with imprint.
  cbv zeta. fold L. fold t.
  rewrite (s32_small (2 + L + (2 + t + 1))) by lia.
  rewrite s32_small by lia.
  erewrite CHKr_ok by (apply tlvWriteHeader_long_tag_ok; lia).
  erewrite CHKr_ok by (apply tlvWriteInt64TLV_count; exact Hn).
  erewrite CHKr_ok by (apply tlvWriteHeader_short_tag; lia).
  erewrite CHKr_ok by (apply tlvWriteOctetStringTLV_short_ok; lia).
  rewrite tlvWriteOctetStringTLV_short_ok by lia.
  rewrite (Z.mod_small (2 + L + (2 + t + 1)) 256) by lia.
  rewrite (Z.mod_small L 256) by lia.
  rewrite (Z.mod_small (t + 1) 256) by lia.
  subst L. rewrite Nat2Z.id, firstn_all.
  replace (Z.to_nat (t + 1)) with (length (text ++ [0]))
    by (rewrite length_app; cbn [length]; lia).
  rewrite firstn_all.
  assert (Hbody : Z.of_nat (length (tlv8 1 imprint ++ tlv8 2 (text ++ [0])))
                  = 2 + Z.of_nat (length imprint) + (2 + t + 1)).
  { rewrite length_app, Nat2Z.inj_add, !length_tlv8, length_app. cbn [length].
    subst t. lia. }
  unfold nosig_record. unfold tlv16 at 1. cbv zeta.
  rewrite length_app, Nat2Z.inj_add, Hc, length_tlv8, Hbody.
  unfold tlv8 at 1. rewrite Hbody.
  unfold tlv8. rewrite length_app. cbn [length].
  replace (Z.of_nat (length text + 1)) with (t + 1) by (subst t; lia).
  replace (2 + tlvGetIntSize n + (2 + (2 + Z.of_nat (length imprint) + (2 + t + 1))))
    with (2 + tlvGetIntSize n + 2 + (2 + Z.of_nat (length imprint) + (2 + t + 1)))
    by lia.
  rewrite <- !app_assoc. reflexivity.
Qed.

Lemma tlvWriteKSISigLS12_broken (f : FILE) (val : Z) (der : list Z) (lenDer : Z) :
  ferror f = true -> tlvWriteKSISigLS12 f val der lenDer = Some (RSGTE_IO, f).
Proof.
  intros Hf. unfold tlvWriteKSISigLS12.
  apply CHKr_fail; [|apply RSGTE_IO_nonzero].
  rewrite tlvWriteHeader_len_u16.
  pose proof (u16_range (s32 (2 + tlvGetIntSize val + 4 + u16 lenDer))).
  apply tlvWriteHeader_broken; (assumption || lia).
Qed.

(** [save_response] leaves in the file the record of the item; a stream
    with its error indicator set stays as it is. *)
Lemma save_response_record (f : FILE) (item : QueueItem) :
  ferror f = true \/ record_fits item = true ->
  exists b, save_response f item = Some (b, with_record f item).
Proof.
  intros Hc. unfold with_record. destruct (ferror f) eqn:Hf.
  - unfold save_response.
    destruct (respHandle item) as [h|];
      [destruct (ksi_status item =? KSI_OK);
       [destruct (KSI_AsyncHandle_getSignature h) as [res|raw]|]|];
      rewrite ?tlvWriteKSISigLS12_broken, ?tlvWriteNoSigLS12_broken by exact Hf;
      cbn [bind ret]; eexists; reflexivity.
  - destruct Hc as [Hc|Hc]; [discriminate Hc|].
    destruct f as [bs e]. cbn in Hf. subst e. cbn [fbytes].
    unfold record_fits in Hc.
    apply andb_prop in Hc. destruct Hc as [Hn Hans].
    apply andb_prop in Hn. destruct Hn as [Hn0 Hn1].
    apply Z.ltb_lt in Hn0, Hn1.
    assert (Hnosig : forall e,
               (0 <? length (default [] (item_hash item)))%nat
               && (Z.of_nat (length (default [] (item_hash item)))
                   + Z.of_nat (length (KSI_getErrorString e)) + 5 <=? 255) = true ->
               tlvWriteNoSigLS12 (mkFILE bs false) (intarg1 item) (item_hash item)
                 (Some (KSI_getErrorString e))
               = Some (0, mkFILE (bs ++ nosig_record (intarg1 item)
                                          (default [] (item_hash item))
                                          (KSI_getErrorString e)) false)).
    { intros e He. apply andb_prop in He. destruct He as [Hi HS].
      apply Nat.ltb_lt in Hi. apply Z.leb_le in HS.
      destruct (item_hash item) as [imprint|]; [|cbn in Hi; lia].
      change (default [] (Some imprint)) with imprint in *.
      apply tlvWriteNoSigLS12_record; (lia || assumption). }
    unfold save_response, response_record. unfold item_answer in Hans |- *.
    fold (item_hash item).
    destruct (respHandle item) as [h|].
    + destruct (ksi_status item =? KSI_OK).
      * destruct (KSI_AsyncHandle_getSignature h) as [res|raw].
        -- rewrite (Hnosig res Hans). cbn [bind ret]. eexists. reflexivity.
        -- apply andb_prop in Hans. destruct Hans as [Hr0 Hr1].
           apply Nat.ltb_lt in Hr0. apply Z.leb_le in Hr1.
           rewrite tlvWriteKSISigLS12_record by (lia || assumption).
           cbn [bind ret]. eexists. reflexivity.
      * rewrite (Hnosig _ Hans). cbn [bind ret]. eexists. reflexivity.
    + rewrite (Hnosig _ Hans). cbn [bind ret]. eexists. reflexivity.
Qed.

Lemma replay_app (items1 : list QueueItem) :
  forall f closed items2,
    replay f closed (items1 ++ items2)
    = replay (fst (replay f closed items1)) (snd (replay f closed items1)) items2.
Proof.
  induction items1 as [|item items1 IH]; intros f closed items2; [reflexivity|].
  cbn [app replay]. destruct (type item); apply IH.
Qed.

(** The save loop: the items taken off are the front of the queue, all of
    them signing requests, and the file is the file with their records. *)
Lemma save_responses_records (q : ProtectedQueue) :
  forall outfile q' outfile' saved,
    save_responses q outfile = Some (q', outfile', saved) ->
    Forall (fun qi => record_fits qi = true) saved ->
    q = saved ++ q'
    /\ List.filter is_sign saved = saved
    /\ forall closed, replay outfile closed saved = (outfile', closed).
Proof.
  induction q as [|item q IH]; intros outfile q' outfile' saved Hs Hfit;
    cbn [save_responses] in Hs.
  - inversion Hs; subst. repeat split.
  - destruct (QITEM_type_eqb (type item) QITEM_SIGNATURE_REQUEST) eqn:Hty;
      cbn [negb] in Hs; [|inversion Hs; subst; repeat split].
    destruct (negb (QITEM_status_eqb (status item) QITEM_DONE));
      [inversion Hs; subst; repeat split|].
    destruct outfile as [f|]; [|discriminate Hs].
    bind_inv Hs. destruct p as [b f1]. bind_inv Hs. destruct p as [[q2 o2] s2].
    inversion Hs; subst. clear Hs.
    inversion Hfit as [|? ? Hfit1 Hfit2]; subst.
    destruct (IH _ _ _ _ E0 Hfit2) as (Hq & Hsign & Hfile).
    destruct (save_response_record f item (or_intror Hfit1)) as [b' Hw].
    assert (Hf1 : f1 = with_record f item) by congruence. subst f1.
    split; [rewrite Hq; reflexivity|]. split.
    + cbn [List.filter]. unfold is_sign at 1. rewrite Hty, Hsign. reflexivity.
    + intros closed. cbn [replay].
      assert (Ht : type item = QITEM_SIGNATURE_REQUEST)
        by (destruct (type item); (reflexivity || discriminate Hty)).
      rewrite Ht. apply Hfile.
Qed.

Lemma keys_update_item a g q :
  keeps_key g -> map item_key (update_item a g q) = map item_key q.
Proof.
  intros Hg. unfold update_item. rewrite map_map. apply map_ext. intros qi.
  destruct (Nat.eqb (qaddr qi) a); [|reflexivity].
  destruct (Hg qi) as [Ht Hk]. unfold item_key. rewrite Ht, Hk. reflexivity.
Qed.

Lemma keys_insert q :
  forall i item item',
    q !! i = Some item ->
    type item' = type item -> sign_key item' = sign_key item ->
    map item_key (<[i := item']> q) = map item_key q.
Proof.
  induction q as [|qi q IH]; intros i item item' Hl Ht Hk; [reflexivity|].
  destruct i as [|i]; cbn in Hl.
  - change (<[0%nat := item']> (qi :: q)) with (item' :: q).
    inversion Hl; subst. cbn [map]. unfold item_key at 1 3.
    rewrite Ht, Hk. reflexivity.
  - change (<[S i := item']> (qi :: q)) with (qi :: <[i := item']> q).
    cbn [map]. f_equal. exact (IH i item item' Hl Ht Hk).
Qed.

Lemma process_responses_keys hs :
  forall ctx as_ ok ctx' as_',
    process_responses hs ctx as_ = Some (ok, ctx', as_') ->
    map item_key (signer_queue ctx') = map item_key (signer_queue ctx).
Proof.
  induction hs as [|h hs IH]; intros ctx as_ ok ctx' as_' Hp;
    cbn [process_responses] in Hp.
  - inversion Hp; subst. reflexivity.
  - destruct (KSI_AsyncHandle_getState h) as [e|[| | | |]].
    + inversion Hp; subst. reflexivity.
    + eapply IH; eassumption.
    + eapply IH; eassumption.
    + destruct (KSI_AsyncHandle_getConfig h) as [e|config].
      * eapply IH; eassumption.
      * destruct (handle_ksi_config ctx as_ config) as [ctx1 as1] eqn:Hc.
        apply IH in Hp. rewrite Hp.
        change ctx1 with (fst (ctx1, as1)). rewrite <- Hc.
        f_equal. apply handle_ksi_config_queue.
    + destruct (KSI_AsyncHandle_getRequestCtx h) as [e|[a|]].
      * inversion Hp; subst. reflexivity.
      * apply IH in Hp. rewrite Hp. cbn. apply keys_update_item.
        intros qi. split; reflexivity.
      * discriminate Hp.
    + destruct (KSI_AsyncHandle_getRequestCtx h) as [e|[a|]].
      * inversion Hp; subst. reflexivity.
      * apply IH in Hp. rewrite Hp. cbn. apply keys_update_item.
        intros qi. split; reflexivity.
      * eapply IH; eassumption.
Qed.

Lemma send_requests_keys env n :
  forall i q ok q',
    send_requests env n i q = (ok, q') -> map item_key q' = map item_key q.
Proof.
  induction n as [|n IH]; intros i q ok q' Hs; cbn [send_requests] in Hs.
  - inversion Hs; subst. reflexivity.
  - unfold ProtectedQueue_getItem in Hs.
    destruct (q !! i) as [item|] eqn:Hl; [|eapply IH; eassumption].
    destruct (negb (QITEM_type_eqb (type item) QITEM_SIGNATURE_REQUEST));
      [eapply IH; eassumption|].
    destruct (negb (QITEM_status_eqb (status item) QITEM_WAITING));
      [eapply IH; eassumption|].
    destruct (negb (env_build env (qaddr item) =? KSI_OK));
      [inversion Hs; subst; reflexivity|].
    destruct (env_addRequest env (qaddr item) =? KSI_OK).
    + apply IH in Hs. rewrite Hs. eapply keys_insert; [eassumption| |]; reflexivity.
    + inversion Hs; subst. eapply keys_insert; [eassumption| |]; reflexivity.
Qed.

(** One call of [process_requests_async]: the items written are the front
    of the queue, and the file given is the file with their records. *)
Lemma process_requests_async_records ctx as_ outfile env ok ctx' as_' outfile' saved :
  process_requests_async ctx as_ outfile env = Some (ok, ctx', as_', outfile', saved) ->
  Forall (fun qi => record_fits qi = true) saved ->
  map item_key (signer_queue ctx) = map item_key (saved ++ signer_queue ctx')
  /\ List.filter is_sign saved = saved
  /\ forall closed, replay outfile closed saved = (outfile', closed).
Proof.
  unfold process_requests_async. intros Hp Hfit.
  bind_inv Hp. destruct p as [[ok1 ctx1] as1].
  apply process_responses_keys in E. rewrite <- E.
  destruct ok1; cbn in Hp; [|inversion Hp; subst; repeat split].
  destruct (send_requests env (ProtectedQueue_count (signer_queue ctx1)) 0
              (signer_queue ctx1)) as [ok2 q2] eqn:Hs.
  apply send_requests_keys in Hs. rewrite <- Hs.
  destruct ok2; cbn in Hp; [|inversion Hp; subst; repeat split].
  bind_inv Hp. destruct p as [[q3 o3] s3]. inversion Hp; subst.
  destruct (save_responses_records _ _ _ _ _ E0 Hfit) as (Hq & Hsign & Hfile).
  cbn. rewrite Hq. repeat split; assumption.
Qed.

(** One turn of the worker: the items it takes off the queue are the front
    of the queue, the signing requests among them are the items written, and
    the files are as [replay] has them. *)
Lemma signer_thread_turn_records w env w' saved :
  signer_thread_turn w env = Some (w', saved) ->
  Forall (fun qi => record_fits qi = true) saved ->
  exists taken,
    map item_key (signer_queue (w_ctx w))
    = map item_key (taken ++ signer_queue (w_ctx w'))
    /\ List.filter is_sign taken = saved
    /\ replay (ksiFile w) (w_closed w) taken = (ksiFile w', w_closed w').
Proof.
  unfold signer_thread_turn. intros Ht Hfit.
  destruct (negb (w_running w)).
  { inversion Ht; subst. exists []. repeat split. }
  destruct (ProtectedQueue_count (signer_queue (w_ctx w)) =? 0)%nat.
  - bind_inv Ht. destruct p as [[[[ok ctx1] as1] f1] s1]. inversion Ht; subst.
    destruct (process_requests_async_records _ _ _ _ _ _ _ _ _ E Hfit)
      as (Hk & Hs & Hf).
    exists saved. split; [exact Hk|]. split; [exact Hs|]. apply Hf.
  - bind_inv Ht. destruct p as [[[[ok ctx1] as1] f1] s1].
    assert (Hp : Forall (fun qi => record_fits qi = true) s1 ->
                 map item_key (signer_queue (w_ctx w))
                 = map item_key (s1 ++ signer_queue ctx1)
                 /\ List.filter is_sign s1 = s1
                 /\ forall closed, replay (ksiFile w) closed s1 = (f1, closed)).
    { intros Hfit1. destruct (ksiFile w) as [f|] eqn:Hfile.
      - eapply process_requests_async_records; eassumption.
      - inversion E; subst. repeat split. }
    clear E.
    destruct ok; cbn [negb] in Ht.
    2: { inversion Ht; subst. destruct (Hp Hfit) as (Hk & Hs & Hf).
         exists saved. split; [exact Hk|]. split; [exact Hs|]. apply Hf. }
    destruct (signer_queue ctx1) as [|item q'] eqn:Hq;
      cbn [ProtectedQueue_peekFront ProtectedQueue_popFront head] in Ht.
    + inversion Ht; subst. destruct (Hp Hfit) as (Hk & Hs & Hf).
      exists saved. cbn [w_ctx ksiFile w_closed]. rewrite Hq.
      split; [exact Hk|]. split; [exact Hs|]. apply Hf.
    + destruct (type item) eqn:Hty; cbn in Ht; inversion Ht; subst; clear Ht;
        destruct (Hp Hfit) as (Hk & Hs & Hf); cbn [w_ctx ksiFile w_closed].
      * exists saved. rewrite Hq. split; [exact Hk|]. split; [exact Hs|]. apply Hf.
      * exists (saved ++ [item]). rewrite <- app_assoc. cbn [app signer_queue].
        split; [exact Hk|]. split.
        { rewrite List.filter_app, Hs. cbn [List.filter]. unfold is_sign at 1.
          rewrite Hty. cbn. apply app_nil_r. }
        rewrite replay_app, Hf. cbn [fst snd replay]. rewrite Hty. reflexivity.
      * exists (saved ++ [item]). rewrite <- app_assoc. cbn [app signer_queue].
        split; [exact Hk|]. split.
        { rewrite List.filter_app, Hs. cbn [List.filter]. unfold is_sign at 1.
          rewrite Hty. cbn. apply app_nil_r. }
        rewrite replay_app, Hf. cbn [fst snd replay]. rewrite Hty. reflexivity.
      * exists (saved ++ [item]). rewrite <- app_assoc. cbn [app signer_queue].
        split; [exact Hk|]. split.
        { rewrite List.filter_app, Hs. cbn [List.filter]. unfold is_sign at 1.
          rewrite Hty. cbn. apply app_nil_r. }
        rewrite replay_app, Hf. cbn [fst snd replay]. rewrite Hty. reflexivity.
Qed.

(** A run: what has been taken off the queue and what is still in it are
    the items the run began with and those it enqueued, in that order; the
    signing requests taken off are the items written; the files are as
    [replay] has them. *)
Lemma run_records evs :
  forall w w' saved,
    run w evs = Some (w', saved) ->
    Forall (fun qi => record_fits qi = true) saved ->
    exists taken,
      map item_key (signer_queue (w_ctx w)) ++ enqueued_all evs
      = map item_key (taken ++ signer_queue (w_ctx w'))
      /\ List.filter is_sign taken = saved
      /\ replay (ksiFile w) (w_closed w) taken = (ksiFile w', w_closed w').
Proof.
  induction evs as [|e evs IH]; intros w w' saved Hr Hfit; cbn [run] in Hr.
  - inversion Hr; subst. exists []. cbn. rewrite app_nil_r. repeat split.
  - bind_inv Hr. destruct p as [w1 s1]. bind_inv Hr. destruct p as [w2 s2].
    inversion Hr; subst. clear Hr.
    apply Forall_app in Hfit. destruct Hfit as [Hfit1 Hfit2].
    destruct (IH _ _ _ E0 Hfit2) as (taken2 & Hk2 & Hs2 & Hf2).
    destruct e as [sys ty a i1 i2|env]; cbn [step] in E.
    + unfold ret in E. injection E as <- <-. cbn [w_ctx ksiFile w_closed] in Hk2, Hf2.
      rewrite add_queue_item_queue, map_app in Hk2.
      exists taken2. split; [|split; [exact Hs2 | exact Hf2]].
      rewrite <- Hk2, <- app_assoc. f_equal.
      cbn [enqueued_all]. destruct (queued sys); reflexivity.
    + destruct (signer_thread_turn_records _ _ _ _ E Hfit1)
        as (taken1 & Hk1 & Hs1 & Hf1).
      exists (taken1 ++ taken2). cbn [enqueued_all]. split; [|split].
      * rewrite Hk1, !map_app, <- !app_assoc. f_equal.
        rewrite <- map_app. exact Hk2.
      * rewrite List.filter_app, Hs1, Hs2. reflexivity.
      * rewrite replay_app, Hf1. exact Hf2.
Qed.

Lemma write_saved_records (items : list QueueItem) :
  forall bs,
    Forall (fun qi => record_fits qi = true) items ->
    write_saved (mkFILE bs false) items
    = Some (mkFILE (bs ++ concat (map response_record items)) false).
Proof.
  induction items as [|item items IH]; intros bs Hfit; cbn [write_saved map concat].
  - rewrite app_nil_r. reflexivity.
  - inversion Hfit as [|? ? Hfit1 Hfit2]; subst.
    destruct (save_response_record (mkFILE bs false) item (or_intror Hfit1))
      as [b Hw].
    rewrite Hw. cbn [bind]. unfold with_record. cbn [ferror fbytes].
    rewrite IH by assumption. rewrite <- app_assoc. reflexivity.
Qed.

(** C2. In every run of the worker the items handed to [save_response], in
    the order of the calls, are finished signing requests and are the
    requests enqueued, in enqueue order, up to those still waiting in the
    queue, whatever the order of the responses. The save loop takes them off
    the front of the queue and stops at the first item that is not a finished
    signing request. The records reach the signature file in that order:
    with records of well-formed sizes, the items the run has taken off the
    queue are the front of what was queued, the signing requests among them
    are the items written, and the file in use and the files closed are what
    comes of taking those items one by one, each request leaving its record
    at the end of the file then in use; in a run that only signs, the
    signature file ends as the bytes it had followed by the record of every
    item written, first to last. *)
Theorem signer_thread_signature_order (w : Worker) (evs : list Event)
    (w' : Worker) (saved : list QueueItem) :
  run w evs = Some (w', saved) ->
  pending (signer_queue (w_ctx w)) ++ enqueued evs
  = map sign_key saved ++ pending (signer_queue (w_ctx w'))
  /\ Forall done_sign saved
  /\ (forall q outfile q' outfile' s,
         save_responses q outfile = Some (q', outfile', s) ->
         q = s ++ q'
         /\ Forall done_sign s
         /\ match q' with
            | [] => True
            | qi :: _ => ~ done_sign qi
            end)
  /\ (Forall (fun qi => record_fits qi = true) saved ->
      (exists taken,
          map item_key (signer_queue (w_ctx w)) ++ enqueued_all evs
          = map item_key (taken ++ signer_queue (w_ctx w'))
          /\ List.filter is_sign taken = saved
          /\ replay (ksiFile w) (w_closed w) taken = (ksiFile w', w_closed w'))
      /\ (forall f,
             all_sign (signer_queue (w_ctx w)) -> Forall sign_event evs ->
             ksiFile w = Some f -> ferror f = false ->
             ksiFile w'
             = Some (mkFILE (fbytes f ++ concat (map response_record saved)) false))).
Proof.
  intros Hr. destruct (run_pending _ _ _ _ Hr) as [Hp Hall].
  split; [assumption|]. split; [assumption|]. split.
  - intros q outfile q' outfile' s Hs.
    destruct (save_responses_front _ _ _ _ _ Hs) as (H1 & H2 & H3 & _).
    repeat split; assumption.
  - intros Hfit. split; [eapply run_records; eassumption|].
    intros f Hq Hev Hf He.
    destruct (run_file _ _ _ _ _ Hr Hq Hev Hf) as (f' & Hf' & Hw).
    destruct f as [bs e]. cbn in He. subst e.
    rewrite write_saved_records in Hw by assumption.
    rewrite Hf'. symmetry. exact Hw.
Qed.

End SignatureRecords.

Lemma signer_thread_signature_order_witness :
  (exists w' saved,
      @run test_env example_worker example_run = Some (w', saved)
      /\ map qaddr saved = [101; 102; 103]%nat
      /\ pending (signer_queue (w_ctx example_worker)) ++ enqueued example_run
         = map sign_key saved ++ pending (signer_queue (w_ctx w'))
      /\ Forall done_sign saved
      /\ ksiFile w'
         = Some (mkFILE ([76; 79; 71; 49; 50; 83; 73; 71]
                         ++ [0x89; 0x04; 0; 9; 0x01; 1; 4; 0x89; 0x05; 0; 2; 48; 1]
                         ++ [0x89; 0x04; 0; 9; 0x01; 1; 4; 0x89; 0x05; 0; 2; 48; 2]
                         ++ [0x89; 0x04; 0; 15; 0x01; 1; 2;
                             0x02; 10; 0x01; 3; 1; 33; 7; 0x02; 3; 69; 10; 0])
                        false))
  /\ (exists w' saved taken,
         @run test_env example_worker_idle example_run_file = Some (w', saved)
         /\ map qaddr saved = [101]%nat
         /\ List.filter is_sign taken = saved
         /\ @replay test_env None [] taken = (ksiFile w', w_closed w')
         /\ ksiFile w' = None
         /\ w_closed w'
            = [mkFILE ([76; 79; 71; 49; 50; 83; 73; 71]
                       ++ [0x89; 0x04; 0; 9; 0x01; 1; 4; 0x89; 0x05; 0; 2; 48; 1])
                      false]).
Proof.
  split.
  - destruct (@run test_env example_worker example_run) as [[w' saved]|] eqn:Hrun;
      [|vm_compute in Hrun; discriminate Hrun].
    destruct (@signer_thread_signature_order test_env example_worker example_run
                w' saved Hrun) as (Hord & Hdone & _ & Hfile).
    assert (Hsaved : map qaddr saved = [101; 102; 103]%nat
                     /\ Forall (fun qi => @record_fits test_env qi = true) saved).
    { vm_compute in Hrun. inversion Hrun; subst.
      split; [reflexivity | repeat constructor]. }
    destruct Hsaved as [Haddr Hfit].
    destruct (Hfile Hfit) as [_ Hbytes].
    exists w', saved. split; [reflexivity|]. split; [exact Haddr|].
    split; [exact Hord|]. split; [exact Hdone|].
    rewrite (Hbytes (mkFILE [76; 79; 71; 49; 50; 83; 73; 71] false)).
    + vm_compute in Hrun. inversion Hrun; subst. reflexivity.
    + repeat constructor.
    + repeat constructor.
    + reflexivity.
    + reflexivity.
  - destruct (@run test_env example_worker_idle example_run_file)
      as [[w' saved]|] eqn:Hrun; [|vm_compute in Hrun; discriminate Hrun].
    destruct (@signer_thread_signature_order test_env example_worker_idle
                example_run_file w' saved Hrun) as (_ & _ & _ & Hfile).
    assert (Hsaved : map qaddr saved = [101]%nat
                     /\ Forall (fun qi => @record_fits test_env qi = true) saved).
    { vm_compute in Hrun. inversion Hrun; subst.
      split; [reflexivity | repeat constructor]. }
    destruct Hsaved as [Haddr Hfit].
    destruct (Hfile Hfit) as [(taken & Hkeys & Hsign & Hreplay) _].
    exists w', saved, taken. split; [reflexivity|]. split; [exact Haddr|].
    split; [exact Hsign|]. split; [exact Hreplay|].
    assert (Hfiles : (ksiFile w', w_closed w')
                     = (None,
                        [mkFILE ([76; 79; 71; 49; 50; 83; 73; 71]
                                 ++ [0x89; 0x04; 0; 9; 0x01; 1; 4;
                                     0x89; 0x05; 0; 2; 48; 1]) false])).
    { vm_compute in Hrun. inversion Hrun; subst. reflexivity. }
    split; [exact (f_equal fst Hfiles) | exact (f_equal snd Hfiles)].
Defined.
